(** * Rent: signal copier server (clients, event log, slave cursors)

    A shallow embedding of [server.js] (Express application): the Client
    Registry, the Event Log, the Slave Directory, the access-control
    predicates and the push / registerSlave / events / ack / admin
    handlers, followed by the properties of the design document.  The
    second copy of the server in the repository differs in its auth
    predicates and in the way it adds a client, which are embedded in
    [Variant] and [VariantClients].

    Conventions of the embedding.
    - The three module-level stores [clients], [copier] and [slaves] are
      the fields of one [State] record that every handler threads.  The
      dashboard and agent endpoints keep maps of their own, never touch
      these stores, and are embedded apart, in [Dashboard].
    - A handler is a function from the request (headers and the values
      its first lines coerce out of the body or query) and the state to
      the response it sends and the state it leaves in memory.  [serve]
      puts the coercions before the handlers: a field on which
      [String(...)] or [Number(...)] throws ends the request, with the
      writes made so far, in the 500 of Express.
    - Every reading of [Date.now()] is an input of the handler: [now]
      is the first one (the expiry check of [clientActive], [ts],
      [createdAt], the base of an extension), [seen] the one stored in
      [lastSeenAt] and [sent] the one put in the response of events.
    - Writing the JSON files is outside the model: only the in-memory
      stores are, and a write is taken to succeed.
    - Counters and timestamps produced by the server are integers and
      are kept in [Z]: [nextId + 1] stands for [copier.nextId++], which
      it is for a counter from -2^53 up to 2^53 - 1 (at 2^53 the
      JavaScript number stays where it is); [counter_safe] names that
      range.  Numbers coerced from a request with [Number(...)] live in
      [number], which has [NaN] and the infinities.
    - Strings are sequences of code units below 256 (Latin-1, as Node
      decodes header values). *)

From Stdlib Require Import ZArith QArith Qcanon List String Ascii Bool Lia.
From stdpp Require Import base decidable option numbers list sorting strings gmap fin_maps.

Local Open Scope string_scope.
Local Open Scope Z_scope.

(** ** JavaScript numbers coming from a request *)

Inductive number : Type :=
| NaN
| NegInf
| Fin (q : Qc)
| PosInf.

#[global] Instance number_eq_dec : EqDecision number.
Proof. solve_decision. Defined.

Definition Int (z : Z) : number := Fin (Qc_of_Z z).

Definition Qc_leb (x y : Qc) : bool := Qle_bool (this x) (this y).
Definition Qc_eqb (x y : Qc) : bool := Qeq_bool (this x) (this y).

(** [a <= b] of JavaScript: false as soon as one side is [NaN]. *)
Definition num_leb (a b : number) : bool :=
  match a, b with
  | NaN, _ | _, NaN => false
  | NegInf, _ => true
  | _, PosInf => true
  | Fin x, Fin y => Qc_leb x y
  | _, _ => false
  end.

(** [a >= b] is [b <= a]; [a < b] and [a > b] are not the negations of
    these: all four are false on [NaN]. *)
Definition num_geb (a b : number) : bool := num_leb b a.

Definition num_ltb (a b : number) : bool :=
  match a, b with
  | NaN, _ | _, NaN => false
  | _, _ => negb (num_leb b a)
  end.

Definition num_gtb (a b : number) : bool := num_ltb b a.

(** Truthiness of a number: [0] and [NaN] are falsy. *)
Definition num_truthy (a : number) : bool :=
  match a with
  | NaN => false
  | Fin q => negb (Qc_eqb q (Qc_of_Z 0))
  | _ => true
  end.

(** [a || b] on numbers. *)
Definition num_or (a b : number) : number := if num_truthy a then a else b.

(** [Math.max(a, b)] and [Math.min(a, b)]: [NaN] is contagious. *)
Definition Math_max (a b : number) : number :=
  match a, b with
  | NaN, _ | _, NaN => NaN
  | _, _ => if num_leb a b then b else a
  end.

Definition Math_min (a b : number) : number :=
  match a, b with
  | NaN, _ | _, NaN => NaN
  | _, _ => if num_leb a b then a else b
  end.

(** ** Strings *)

(** [!s] for a string. *)
Definition str_empty (s : string) : bool :=
  match s with EmptyString => true | _ => false end.

(** White space of [String.prototype.trim] among the code units below
    256: TAB, LF, VT, FF, CR, SP and NBSP. *)
Definition is_white (a : ascii) : bool :=
  let n := N_of_ascii a in
  ((9 <=? n) && (n <=? 13) || (n =? 32) || (n =? 160))%N.

Fixpoint trim_start (s : string) : string :=
  match s with
  | EmptyString => EmptyString
  | String a s' => if is_white a then trim_start s' else s
  end.

Definition trim (s : string) : string :=
  String.rev (trim_start (String.rev (trim_start s))).

(** [h || ""] for a string that may be absent (a header, a variable of
    the environment). *)
Definition header_or_empty (h : option string) : string :=
  match h with
  | Some s => if str_empty s then "" else s
  | None => ""
  end.

(** ** Helpers *)

Definition day : Z := 24 * 60 * 60 * 1000.

Definition addDurationMs (code : string) : Z :=
  if decide (code = "M1") then 31 * day
  else if decide (code = "M3") then 93 * day
  else if decide (code = "M6") then 186 * day
  else if decide (code = "Y1") then 366 * day
  else 31 * day.

(** ** Environment and request headers *)

Record Config : Type := mkConfig {
  API_KEY : string;
  ADMIN_KEY : string;
  MASTER_KEY : string
}.

(** [process.env.NAME || ""]: the three constants of server.js, from
    the variables of the environment. *)
Definition config_of_env (api admin master : option string) : Config :=
  mkConfig (header_or_empty api) (header_or_empty admin) (header_or_empty master).

(** [req.get(name)] is [None] when the header is absent. *)
Record headers : Type := mkHeaders {
  x_api_key : option string;
  x_admin_key : option string;
  x_master_key : option string
}.

(** ** Auth *)

Definition authOk (cfg : Config) (req : headers) : bool :=
  if str_empty (API_KEY cfg) then true
  else bool_decide (x_api_key req = Some (API_KEY cfg)).

Definition adminOk (cfg : Config) (req : headers) : bool :=
  if str_empty (ADMIN_KEY cfg) then true
  else bool_decide (x_admin_key req = Some (ADMIN_KEY cfg)).

Definition masterOk (cfg : Config) (req : headers) : bool :=
  if str_empty (MASTER_KEY cfg) then false
  else bool_decide (x_master_key req = Some (MASTER_KEY cfg)).

(** The other source variant of the server trims the variables of the
    environment, reads the headers with [req.get(name) || ""] and denies
    admin requests when [ADMIN_KEY] is empty. *)
Module Variant.

Definition config_of_env (api admin master : option string) : Config :=
  mkConfig (trim (header_or_empty api)) (trim (header_or_empty admin))
           (trim (header_or_empty master)).

Definition authOk (cfg : Config) (req : headers) : bool :=
  if str_empty (API_KEY cfg) then true
  else bool_decide (header_or_empty (x_api_key req) = API_KEY cfg).

Definition adminOk (cfg : Config) (req : headers) : bool :=
  if str_empty (ADMIN_KEY cfg) then false
  else bool_decide (header_or_empty (x_admin_key req) = ADMIN_KEY cfg).

Definition masterOk (cfg : Config) (req : headers) : bool :=
  if str_empty (MASTER_KEY cfg) then false
  else bool_decide (header_or_empty (x_master_key req) = MASTER_KEY cfg).

End Variant.

(** ** Clients store *)

Record Client : Type := mkClient {
  clientId : string;
  fullName : string;
  groupId : string;
  apiKey : string;
  enabled : bool;
  createdAt : Z;
  expiresAt : Z;
  boundSlaveId : string
}.

Definition set_enabled (v : bool) (c : Client) : Client :=
  mkClient (clientId c) (fullName c) (groupId c) (apiKey c) v
           (createdAt c) (expiresAt c) (boundSlaveId c).

Definition set_expiresAt (v : Z) (c : Client) : Client :=
  mkClient (clientId c) (fullName c) (groupId c) (apiKey c) (enabled c)
           (createdAt c) v (boundSlaveId c).

Definition set_boundSlaveId (v : string) (c : Client) : Client :=
  mkClient (clientId c) (fullName c) (groupId c) (apiKey c) (enabled c)
           (createdAt c) (expiresAt c) v.

(** [arr.find(p)]: the first element satisfying [p]. *)
Fixpoint js_find {A : Type} (p : A -> bool) (l : list A) : option A :=
  match l with
  | [] => None
  | x :: l' => if p x then Some x else js_find p l'
  end.

(** Assignment to a field of the object returned by [find]: the object
    is the array's own element, so the array sees the write. *)
Fixpoint update_first {A : Type} (p : A -> bool) (f : A -> A) (l : list A) : list A :=
  match l with
  | [] => []
  | x :: l' => if p x then f x :: l' else x :: update_first p f l'
  end.

Definition has_apiKey (k : string) (c : Client) : bool := bool_decide (apiKey c = k).
Definition has_clientId (k : string) (c : Client) : bool := bool_decide (clientId c = k).

Definition findClientByApiKey (cs : list Client) (k : string) : option Client :=
  js_find (has_apiKey k) cs.

Definition findClientById (cs : list Client) (k : string) : option Client :=
  js_find (has_clientId k) cs.

(** [expiresAt] is an integer, on which [Number(x || 0)] is the
    identity. *)
Definition clientActive (now : Z) (c : Client) : bool :=
  if negb (enabled c) then false
  else if expiresAt c <=? now then false
  else true.

(** ** Copier: event log *)

(** The fields [id], [group], [type], ... of an event object. *)
Record Event : Type := mkEvent {
  ev_id : Z;
  ev_group : string;
  ev_type : string;
  ev_ts : Z;
  ev_master_ticket : number;
  ev_open_time : number;
  ev_symbol : string;
  ev_cmd : number;
  ev_lots : number;
  ev_price : number;
  ev_sl : number;
  ev_tp : number;
  ev_magic : number
}.

Record Copier : Type := mkCopier {
  nextId : Z;
  events : list Event
}.

Definition MAX_EVENTS : Z := 50000.

(** [arr.slice(start)]: a negative [start] counts from the end. *)
Definition js_slice {A : Type} (start : Z) (l : list A) : list A :=
  let len := Z.of_nat (length l) in
  let k := if start <? 0 then Z.max (len + start) 0 else Z.min start len in
  drop (Z.to_nat k) l.

Definition saveCopier (c : Copier) : Copier :=
  if MAX_EVENTS <? Z.of_nat (length (events c))
  then mkCopier (nextId c) (js_slice (- MAX_EVENTS) (events c))
  else c.

(** ** Slave directory *)

Record SlaveRec : Type := mkSlaveRec {
  lastAckId : number;
  lastSeenAt : Z
}.

Definition set_lastAckId (v : number) (r : SlaveRec) : SlaveRec :=
  mkSlaveRec v (lastSeenAt r).

Definition set_lastSeenAt (v : Z) (r : SlaveRec) : SlaveRec :=
  mkSlaveRec (lastAckId r) v.

Definition slaveKey (group slaveId : string) : string :=
  group ++ "|" ++ slaveId.

(** [if (!slaves.slaves[k]) slaves.slaves[k] = { lastAckId: 0, lastSeenAt: 0 }].
    A key always contains the bar, so it never names a property
    inherited from [Object.prototype]. *)
Definition ensure_slave (k : string) (m : gmap string SlaveRec) : gmap string SlaveRec :=
  match m !! k with
  | Some _ => m
  | None => <[k := mkSlaveRec (Int 0) 0]> m
  end.

(** The three lines shared by registerSlave and events. *)
Definition touch_slave (now : Z) (k : string) (m : gmap string SlaveRec) : gmap string SlaveRec :=
  alter (set_lastSeenAt now) k (ensure_slave k m).

(** The four lines of ack. *)
Definition ack_slave (now : Z) (k : string) (event_id : number)
    (m : gmap string SlaveRec) : gmap string SlaveRec :=
  let m1 := ensure_slave k m in
  let m2 := alter (fun r => set_lastAckId
                     (Math_max (num_or (lastAckId r) (Int 0)) event_id) r) k m1 in
  alter (set_lastSeenAt now) k m2.

(** ** The state of the server *)

Record State : Type := mkState {
  clients : list Client;
  copier : Copier;
  slaves : gmap string SlaveRec
}.

(** The fallbacks of [readJsonSafe]: what the server starts from when
    no file exists. *)
Definition init_state : State :=
  mkState [] (mkCopier 1 []) ∅.

Definition with_clients (cs : list Client) (st : State) : State :=
  mkState cs (copier st) (slaves st).

Definition with_copier (c : Copier) (st : State) : State :=
  mkState (clients st) c (slaves st).

Definition with_slaves (m : gmap string SlaveRec) (st : State) : State :=
  mkState (clients st) (copier st) m.

(** ** Responses *)

Inductive body : Type :=
| Err (error : string)
| Ok
| OkId (id : Z)
| OkBound (bound : string)
| OkEvents (now : Z) (evs : list Event)
| OkClients (now : Z) (cs : list Client)
| OkClient (c : Client)
| OkExpires (e : Z).

Record response : Type := mkResponse {
  status : Z;
  json : body
}.

(** [res.json(b)] answers 200; [res.status(n).json({ ok: false, error })]
    answers [n]. *)
Definition ok (b : body) : response := mkResponse 200 b.
Definition fail (n : Z) (msg : string) : response := mkResponse n (Err msg).

(** The error taxonomy of the design, by status code. *)
Inductive category : Type :=
| InvalidInput
| Unauthorized
| Forbidden
| NotFound.

Definition category_of (r : response) : option category :=
  if status r =? 400 then Some InvalidInput
  else if status r =? 401 then Some Unauthorized
  else if status r =? 403 then Some Forbidden
  else if status r =? 404 then Some NotFound
  else None.

(** ** Copier auth *)

(** Copier auth: must have valid client API key, not expired, and group
    match.  [inl r]: the response [r] was sent and [null] returned. *)
Definition requireClient (now : Z) (cs : list Client) (req : headers)
    (groupIdFromReq : string) : response + Client :=
  let k := trim (header_or_empty (x_api_key req)) in
  if str_empty k then inl (fail 401 "missing x-api-key")
  else match findClientByApiKey cs k with
  | None => inl (fail 401 "invalid api key")
  | Some c =>
    if negb (clientActive now c) then inl (fail 403 "expired/disabled")
    else if negb (str_empty groupIdFromReq)
            && negb (bool_decide (groupId c = groupIdFromReq))
    then inl (fail 403 "group mismatch")
    else inr c
  end.

(** ** Copier handlers *)

(** The coerced fields of a push body: [String(b.group || "")],
    [Number(b.master_ticket || 0)], ..., [Number(b.lots || b.lot || 0)]. *)
Record PushBody : Type := mkPushBody {
  b_group : string;
  b_type : string;
  b_master_ticket : number;
  b_open_time : number;
  b_symbol : string;
  b_cmd : number;
  b_lots : number;
  b_price : number;
  b_sl : number;
  b_tp : number;
  b_magic : number
}.

(** The event object a push builds at time [now] with the id [n]. *)
Definition event_of (now n : Z) (b : PushBody) : Event :=
  mkEvent n (b_group b) (b_type b) now
    (b_master_ticket b) (b_open_time b) (b_symbol b) (b_cmd b)
    (b_lots b) (b_price b) (b_sl b) (b_tp b) (b_magic b).

(** POST /copier/push: MASTER pushes OPEN/CLOSE.  The event object is
    built, and [copier.nextId++] evaluated, before the check of
    [master_ticket] and [symbol]. *)
Definition copier_push (cfg : Config) (now : Z) (req : headers) (b : PushBody)
    (st : State) : response * State :=
  if negb (masterOk cfg req) then (fail 401 "unauthorized master", st)
  else
    let group := b_group b in
    let type := b_type b in
    if str_empty group
       || (negb (bool_decide (type = "OPEN")) && negb (bool_decide (type = "CLOSE")))
    then (fail 400 "bad group/type", st)
    else
      let ev := event_of now (nextId (copier st)) b in
      let st1 := with_copier (mkCopier (nextId (copier st) + 1) (events (copier st))) st in
      if negb (num_truthy (ev_master_ticket ev)) || str_empty (ev_symbol ev)
      then (fail 400 "missing master_ticket/symbol", st1)
      else
        let st2 := with_copier
                     (mkCopier (nextId (copier st1)) (events (copier st1) ++ [ev])%list) st1 in
        let st3 := with_copier (saveCopier (copier st2)) st2 in
        (ok (OkId (ev_id ev)), st3).

(** POST /copier/registerSlave: bind slaveId to client (1 account per
    client), then touch the cursor record at time [seen]. *)
Definition copier_registerSlave (now seen : Z) (req : headers)
    (group slaveId : string) (st : State) : response * State :=
  if str_empty group || str_empty slaveId
  then (fail 400 "missing group/slaveId", st)
  else match requireClient now (clients st) req group with
  | inl r => (r, st)
  | inr c =>
    let bound :=
      if str_empty (boundSlaveId c)
      then inr (set_boundSlaveId slaveId c,
                with_clients (update_first (has_apiKey (apiKey c))
                                (set_boundSlaveId slaveId) (clients st)) st)
      else if negb (bool_decide (boundSlaveId c = slaveId))
      then inl (fail 403 "this api key is already bound to another slaveId")
      else inr (c, st) in
    match bound with
    | inl r => (r, st)
    | inr (c1, st1) =>
      let k := slaveKey group slaveId in
      let st2 := with_slaves (touch_slave seen k (slaves st1)) st1 in
      (ok (OkBound (boundSlaveId c1)), st2)
    end
  end.

(** The loop of GET /copier/events over [copier.events], from the
    element the index stands at, with the array [out] built so far. *)
Fixpoint scan_events (group : string) (since limit : number)
    (evs out : list Event) : list Event :=
  match evs with
  | [] => out
  | ev :: rest =>
    if negb (bool_decide (ev_group ev = group)) then scan_events group since limit rest out
    else if num_leb (Int (ev_id ev)) since then scan_events group since limit rest out
    else
      let out1 := (out ++ [ev])%list in
      if num_geb (Int (Z.of_nat (length out1))) limit then out1
      else scan_events group since limit rest out1
  end.

(** [Math.min(500, Math.max(1, n))] for [n = Number(req.query.limit || 200)]. *)
Definition clamp_limit (n : number) : number :=
  Math_min (Int 500) (Math_max (Int 1) n).

(** GET /copier/events: slave polls events.  [since] and [limit_raw] are
    [Number(req.query.since || 0)] and [Number(req.query.limit || 200)]. *)
Definition copier_events (now seen sent : Z) (req : headers)
    (group slaveId : string) (since limit_raw : number) (st : State)
    : response * State :=
  let limit := clamp_limit limit_raw in
  if str_empty group || str_empty slaveId
  then (fail 400 "missing group/slaveId", st)
  else match requireClient now (clients st) req group with
  | inl r => (r, st)
  | inr c =>
    let bound :=
      if str_empty (boundSlaveId c)
      then inr (with_clients (update_first (has_apiKey (apiKey c))
                                (set_boundSlaveId slaveId) (clients st)) st)
      else if negb (bool_decide (boundSlaveId c = slaveId))
      then inl (fail 403 "boundSlaveId mismatch (1 account per client)")
      else inr st in
    match bound with
    | inl r => (r, st)
    | inr st1 =>
      let k := slaveKey group slaveId in
      let st2 := with_slaves (touch_slave seen k (slaves st1)) st1 in
      let out := scan_events group since limit (events (copier st2)) [] in
      (ok (OkEvents sent out), st2)
    end
  end.

(** POST /copier/ack: slave ACK.  [event_id] is [Number(b.event_id || 0)]. *)
Definition copier_ack (now seen : Z) (req : headers) (group slaveId : string)
    (event_id : number) (ack_status : string) (st : State) : response * State :=
  if str_empty group || str_empty slaveId || negb (num_truthy event_id)
     || str_empty ack_status
  then (fail 400 "missing fields", st)
  else match requireClient now (clients st) req group with
  | inl r => (r, st)
  | inr c =>
    if negb (str_empty (boundSlaveId c)) && negb (bool_decide (boundSlaveId c = slaveId))
    then (fail 403 "boundSlaveId mismatch", st)
    else
      let k := slaveKey group slaveId in
      (ok Ok, with_slaves (ack_slave seen k event_id (slaves st)) st)
  end.

(** ** Admin handlers *)

Definition admin_clients (cfg : Config) (now : Z) (req : headers) (st : State)
    : response * State :=
  if negb (adminOk cfg req) then (fail 401 "unauthorized admin", st)
  else (ok (OkClients now (clients st)), st).

(** POST /admin/clients/add.  [rnd_id] and [rnd_key] are the two draws
    of [crypto.randomBytes], in hexadecimal. *)
Definition admin_add (cfg : Config) (now : Z) (req : headers)
    (b_fullName b_groupId b_duration rnd_id rnd_key : string) (st : State)
    : response * State :=
  if negb (adminOk cfg req) then (fail 401 "unauthorized admin", st)
  else
    let fullName := trim b_fullName in
    let groupId := trim b_groupId in
    let duration := trim b_duration in
    if str_empty fullName || str_empty groupId
    then (fail 400 "missing fullName/groupId", st)
    else
      let createdAt := now in
      let expiresAt := createdAt + addDurationMs duration in
      let c := mkClient rnd_id fullName groupId rnd_key true createdAt expiresAt "" in
      (ok (OkClient c), with_clients (clients st ++ [c])%list st).

Definition admin_disable (cfg : Config) (req : headers) (b_clientId : string)
    (b_enabled : bool) (st : State) : response * State :=
  if negb (adminOk cfg req) then (fail 401 "unauthorized admin", st)
  else match findClientById (clients st) b_clientId with
  | None => (fail 404 "not found", st)
  | Some c =>
    (ok Ok, with_clients (update_first (has_clientId b_clientId)
                            (set_enabled b_enabled) (clients st)) st)
  end.

Definition admin_extend (cfg : Config) (now : Z) (req : headers)
    (b_clientId duration : string) (st : State) : response * State :=
  if negb (adminOk cfg req) then (fail 401 "unauthorized admin", st)
  else match findClientById (clients st) b_clientId with
  | None => (fail 404 "not found", st)
  | Some c =>
    let base := Z.max now (expiresAt c) in
    let e := base + addDurationMs duration in
    (ok (OkExpires e),
     with_clients (update_first (has_clientId b_clientId) (set_expiresAt e) (clients st)) st)
  end.

Definition admin_resetBind (cfg : Config) (req : headers) (b_clientId : string)
    (st : State) : response * State :=
  if negb (adminOk cfg req) then (fail 401 "unauthorized admin", st)
  else match findClientById (clients st) b_clientId with
  | None => (fail 404 "not found", st)
  | Some c =>
    (ok Ok, with_clients (update_first (has_clientId b_clientId)
                            (set_boundSlaveId "") (clients st)) st)
  end.

Definition admin_delete (cfg : Config) (req : headers) (b_clientId : string)
    (st : State) : response * State :=
  if negb (adminOk cfg req) then (fail 401 "unauthorized admin", st)
  else
    (ok Ok, with_clients (filter (fun x => clientId x <> b_clientId) (clients st)) st).

(** ** The server as a transition system *)

Inductive request : Type :=
| Push (req : headers) (b : PushBody)
| RegisterSlave (req : headers) (group slaveId : string)
| PollEvents (req : headers) (group slaveId : string) (since limit_raw : number)
| Ack (req : headers) (group slaveId : string) (event_id : number) (ack_status : string)
| AdminClients (req : headers)
| AdminAdd (req : headers) (b_fullName b_groupId b_duration rnd_id rnd_key : string)
| AdminDisable (req : headers) (b_clientId : string) (b_enabled : bool)
| AdminExtend (req : headers) (b_clientId duration : string)
| AdminResetBind (req : headers) (b_clientId : string)
| AdminDelete (req : headers) (b_clientId : string).

(** The values [Date.now()] returns while one request is served: no
    handler reads it more than three times. *)
Record Clock : Type := mkClock {
  now0 : Z;
  now1 : Z;
  now2 : Z
}.

(** One request served under the clock [t]. *)
Definition handle (cfg : Config) (t : Clock) (r : request) (st : State)
    : response * State :=
  match r with
  | Push req b => copier_push cfg (now0 t) req b st
  | RegisterSlave req g s => copier_registerSlave (now0 t) (now1 t) req g s st
  | PollEvents req g s since lim =>
    copier_events (now0 t) (now1 t) (now2 t) req g s since lim st
  | Ack req g s e a => copier_ack (now0 t) (now1 t) req g s e a st
  | AdminClients req => admin_clients cfg (now0 t) req st
  | AdminAdd req f g d i k => admin_add cfg (now0 t) req f g d i k st
  | AdminDisable req i e => admin_disable cfg req i e st
  | AdminExtend req i d => admin_extend cfg (now0 t) req i d st
  | AdminResetBind req i => admin_resetBind cfg req i st
  | AdminDelete req i => admin_delete cfg req i st
  end.

(** Requests are served one at a time, each to completion; [run] serves
    a list of timed requests and collects the responses. *)
Fixpoint run (cfg : Config) (rs : list (Clock * request)) (st : State)
    : list response * State :=
  match rs with
  | [] => ([], st)
  | (t, r) :: rs' =>
    let '(resp, st1) := handle cfg t r st in
    let '(resps, st2) := run cfg rs' st1 in
    (resp :: resps, st2)
  end.

Inductive reachable (cfg : Config) : State -> Prop :=
| reach_init : reachable cfg init_state
| reach_step t r st :
    reachable cfg st -> reachable cfg (handle cfg t r st).2.

(** ** Notions used in the statements *)

(** The acknowledged id the handlers read for a key: the record's
    [lastAckId], or the [0] a record is created with. *)
Definition cursor_of (m : gmap string SlaveRec) (k : string) : number :=
  match m !! k with
  | Some r => lastAckId r
  | None => Int 0
  end.

(** No stored [lastAckId] is [NaN]. *)
Definition cursors_ok (m : gmap string SlaveRec) : Prop :=
  forall k r, m !! k = Some r -> lastAckId r <> NaN.

(** The two checks of push, as predicates on the coerced body. *)
Definition group_type_ok (b : PushBody) : bool :=
  negb (str_empty (b_group b))
  && (bool_decide (b_type b = "OPEN") || bool_decide (b_type b = "CLOSE")).

Definition ticket_symbol_ok (b : PushBody) : bool :=
  num_truthy (b_master_ticket b) && negb (str_empty (b_symbol b)).

(** Ids grow along the list and stay below the counter. *)
Definition log_ok (c : Copier) : Prop :=
  StronglySorted Z.lt (ev_id <$> events c) /\
  Forall (fun ev => ev_id ev < nextId c) (events c).

(** The id a response to a push carries. *)
Definition pushed_id (r : response) : option Z :=
  match json r with
  | OkId i => Some i
  | _ => None
  end.

Definition pushed_ids (rs : list response) : list Z := omap pushed_id rs.

Definition is_push (r : request) : bool :=
  match r with
  | Push _ _ => true
  | _ => false
  end.

(** [n] events of one group with the ids [i], [i + 1], ... *)
Fixpoint events_from (group : string) (n : nat) (i : Z) : list Event :=
  match n with
  | O => []
  | S n' => mkEvent i group "OPEN" 0 (Int 101) (Int 0) "EURUSD" (Int 0)
              (Int 0) (Int 0) (Int 0) (Int 0) (Int 0)
            :: events_from group n' (i + 1)
  end.

(** A full log of 50,000 events with the ids 1 to 50,000. *)
Definition full_log : list Event := events_from "G1" (Z.to_nat 50000) 1.

(** The headers, the group and the slaveId of a request that can bind:
    only registerSlave and events carry a slaveId that the handler
    writes into a client. *)
Definition bind_request (r : request) : option (headers * string * string) :=
  match r with
  | RegisterSlave req g s | PollEvents req g s _ _ => Some (req, g, s)
  | _ => None
  end.

(** [x], at the index [i], is the element [l.find(p)] returns: the first
    one that satisfies [p]. *)
Definition first_at {A : Type} (p : A -> bool) (l : list A) (i : nat) (x : A) : Prop :=
  l !! i = Some x /\ p x = true /\
  forall j y, (j < i)%nat -> l !! j = Some y -> p y = false.

(** What one request, served at [now], may do to the clients, place by
    place in the array: leave the [boundSlaveId] as it is; bind, on a
    successful registerSlave or events, the unbound client that
    [requireClient] returns for the key of the request, the first one
    with that key, to the slaveId of the request; or clear, on a
    successful resetBind, the [boundSlaveId] of the first client with
    the clientId of the request.  The two writes change no other
    field. *)
Definition bound_frame (now : Z) (r : request) (resp : response)
    (cs cs' : list Client) : Prop :=
  length cs' = length cs /\
  forall i c c', cs !! i = Some c -> cs' !! i = Some c' ->
    boundSlaveId c' = boundSlaveId c \/
    (exists req g s,
       bind_request r = Some (req, g, s) /\ status resp = 200 /\
       requireClient now cs req g = inr c /\
       first_at (has_apiKey (trim (header_or_empty (x_api_key req)))) cs i c /\
       boundSlaveId c = "" /\
       c' = mkClient (clientId c) (fullName c) (groupId c) (apiKey c) (enabled c)
              (createdAt c) (expiresAt c) s) \/
    (exists req id,
       r = AdminResetBind req id /\ status resp = 200 /\
       first_at (has_clientId id) cs i c /\
       c' = mkClient (clientId c) (fullName c) (groupId c) (apiKey c) (enabled c)
              (createdAt c) (expiresAt c) "").

(** A push that passes the three checks of the handler. *)
Definition valid_push (cfg : Config) (r : request) : bool :=
  match r with
  | Push req b => masterOk cfg req && group_type_ok b && ticket_symbol_ok b
  | _ => false
  end.

(** [nextId] can be incremented [k] more times as an exact integer:
    [n++] on a JavaScript number is [n + 1] from -2^53 up to 2^53 - 1,
    and leaves the number 2^53 where it is. *)
Definition counter_safe (c : Copier) (k : Z) : Prop :=
  - 2 ^ 53 <= nextId c /\ nextId c + k <= 2 ^ 53.

(** The test of the loop of events on one event. *)
Definition wanted (group : string) (since : number) (ev : Event) : bool :=
  bool_decide (ev_group ev = group) && negb (num_leb (Int (ev_id ev)) since).

(** The events of a response to events. *)
Definition polled (r : response) : list Event :=
  match json r with
  | OkEvents _ evs => evs
  | _ => []
  end.

(** ** Further notions used in the statements *)

(** The key a request must present: the master key for a push, the
    admin key for an admin request; the slave-facing requests carry the
    key of a client instead. *)
Definition privileged_ok (cfg : Config) (r : request) : bool :=
  match r with
  | Push req _ => masterOk cfg req
  | AdminClients req | AdminAdd req _ _ _ _ _ | AdminDisable req _ _
  | AdminExtend req _ _ | AdminResetBind req _ | AdminDelete req _ => adminOk cfg req
  | RegisterSlave _ _ _ | PollEvents _ _ _ _ _ | Ack _ _ _ _ _ => true
  end.

(** [c] is the client that both its clientId and its apiKey find. *)
Definition resolves (cs : list Client) (c : Client) : Prop :=
  findClientById cs (clientId c) = Some c /\
  findClientByApiKey cs (apiKey c) = Some c.

(** A group without the bar that [slaveKey] joins with. *)
Fixpoint no_bar (s : string) : bool :=
  match s with
  | EmptyString => true
  | String a s' => negb (Ascii.eqb a "|"%char) && no_bar s'
  end.

(** What add establishes of a client and extend keeps. *)
Definition client_ok (c : Client) : Prop :=
  fullName c <> "" /\ groupId c <> "" /\ createdAt c + 31 * day <= expiresAt c.

(** The (group, slaveId) whose cursor record a registerSlave or an
    events touches. *)
Definition touch_target (r : request) : option (string * string) :=
  match r with
  | RegisterSlave _ g s | PollEvents _ g s _ _ => Some (g, s)
  | _ => None
  end.

(** The key and the id of an ack. *)
Definition ack_target (r : request) : option (string * number) :=
  match r with
  | Ack _ g s e _ => Some (slaveKey g s, e)
  | _ => None
  end.

(** ** Requests as they arrive *)

(** The handlers read the fields of a JSON body with [String(b.x || "")]
    and [Number(b.x || 0)].  On a string, a number, a boolean, an array
    or a plain object these return a string or a number; on an object
    that has a property "toString" of its own, which in a JSON body is
    never a function, they throw a TypeError.  The handler then stops
    where it is, with the writes it has made, and Express answers 500.
    The query parser of Express 4 builds such objects from the query
    string as well.  A field of a request as it arrives is the outcome
    of its coercion. *)
Inductive coerced (A : Type) : Type :=
| Val (a : A)
| Throws.

Arguments Val {A} a.
Arguments Throws {A}.

#[global] Instance coerced_ret : MRet coerced := fun A a => Val a.

#[global] Instance coerced_bind : MBind coerced :=
  fun A B f x => match x with Val a => f a | Throws => Throws end.

(** What the client gets: the response the handler sent, or the 500 of
    Express when the handler threw. *)
Inductive outcome : Type :=
| Sent (r : response)
| Crashed.

Definition outcome_status (o : outcome) : Z :=
  match o with
  | Sent r => status r
  | Crashed => 500
  end.

Definition answered (p : response * State) : outcome * State := (Sent p.1, p.2).

Inductive raw_request : Type :=
| RawPush (req : headers) (r_group r_type : coerced string)
    (r_master_ticket r_open_time : coerced number) (r_symbol : coerced string)
    (r_cmd r_lots r_price r_sl r_tp r_magic : coerced number)
| RawRegisterSlave (req : headers) (r_group r_slaveId : coerced string)
| RawPollEvents (req : headers) (r_group r_slaveId : coerced string)
    (r_since r_limit : coerced number)
| RawAck (req : headers) (r_group r_slaveId : coerced string)
    (r_event_id : coerced number) (r_status : coerced string)
| RawAdminClients (req : headers)
| RawAdminAdd (req : headers) (r_fullName r_groupId r_duration : coerced string)
    (rnd_id rnd_key : string)
| RawAdminDisable (req : headers) (r_clientId : coerced string) (b_enabled : bool)
| RawAdminExtend (req : headers) (r_clientId r_duration : coerced string)
| RawAdminResetBind (req : headers) (r_clientId : coerced string)
| RawAdminDelete (req : headers) (r_clientId : coerced string).

(** The fields of the event literal of push, coerced in the order of
    the literal. *)
Definition coerce_push (g ty : string) (r_master_ticket r_open_time : coerced number)
    (r_symbol : coerced string) (r_cmd r_lots r_price r_sl r_tp r_magic : coerced number)
    : coerced PushBody :=
  mt ← r_master_ticket; ot ← r_open_time; sym ← r_symbol; cmd ← r_cmd;
  lots ← r_lots; price ← r_price; sl ← r_sl; tp ← r_tp; magic ← r_magic;
  mret (mkPushBody g ty mt ot sym cmd lots price sl tp magic).

(** One request served from its arrival.  The key of push and of the
    admin endpoints is checked before the body is read; in push, the
    fields of the event literal are coerced after [copier.nextId++].
    Once its fields are coerced the request is served by its handler. *)
Definition serve (cfg : Config) (t : Clock) (r : raw_request) (st : State)
    : outcome * State :=
  match r with
  | RawPush req r_group r_type mt ot sym cmd lots price sl tp magic =>
    if negb (masterOk cfg req) then (Sent (fail 401 "unauthorized master"), st)
    else match (g ← r_group; ty ← r_type; mret (g, ty)) with
    | Throws => (Crashed, st)
    | Val (g, ty) =>
      if str_empty g
         || (negb (bool_decide (ty = "OPEN")) && negb (bool_decide (ty = "CLOSE")))
      then (Sent (fail 400 "bad group/type"), st)
      else match coerce_push g ty mt ot sym cmd lots price sl tp magic with
      | Throws =>
        (Crashed, with_copier (mkCopier (nextId (copier st) + 1) (events (copier st))) st)
      | Val b => answered (copier_push cfg (now0 t) req b st)
      end
    end
  | RawRegisterSlave req r_group r_slaveId =>
    match (g ← r_group; s ← r_slaveId; mret (g, s)) with
    | Throws => (Crashed, st)
    | Val (g, s) => answered (copier_registerSlave (now0 t) (now1 t) req g s st)
    end
  | RawPollEvents req r_group r_slaveId r_since r_limit =>
    match (g ← r_group; s ← r_slaveId; n ← r_since; l ← r_limit; mret (g, s, n, l)) with
    | Throws => (Crashed, st)
    | Val (g, s, n, l) =>
      answered (copier_events (now0 t) (now1 t) (now2 t) req g s n l st)
    end
  | RawAck req r_group r_slaveId r_event_id r_status =>
    match (g ← r_group; s ← r_slaveId; e ← r_event_id; a ← r_status;
           mret (g, s, e, a)) with
    | Throws => (Crashed, st)
    | Val (g, s, e, a) => answered (copier_ack (now0 t) (now1 t) req g s e a st)
    end
  | RawAdminClients req => answered (admin_clients cfg (now0 t) req st)
  | RawAdminAdd req r_fullName r_groupId r_duration i k =>
    if negb (adminOk cfg req) then (Sent (fail 401 "unauthorized admin"), st)
    else match (f ← r_fullName; g ← r_groupId; d ← r_duration; mret (f, g, d)) with
    | Throws => (Crashed, st)
    | Val (f, g, d) => answered (admin_add cfg (now0 t) req f g d i k st)
    end
  | RawAdminDisable req r_clientId en =>
    if negb (adminOk cfg req) then (Sent (fail 401 "unauthorized admin"), st)
    else match r_clientId with
    | Throws => (Crashed, st)
    | Val i => answered (admin_disable cfg req i en st)
    end
  | RawAdminExtend req r_clientId r_duration =>
    if negb (adminOk cfg req) then (Sent (fail 401 "unauthorized admin"), st)
    else match (i ← r_clientId; d ← r_duration; mret (i, d)) with
    | Throws => (Crashed, st)
    | Val (i, d) => answered (admin_extend cfg (now0 t) req i d st)
    end
  | RawAdminResetBind req r_clientId =>
    if negb (adminOk cfg req) then (Sent (fail 401 "unauthorized admin"), st)
    else match r_clientId with
    | Throws => (Crashed, st)
    | Val i => answered (admin_resetBind cfg req i st)
    end
  | RawAdminDelete req r_clientId =>
    if negb (adminOk cfg req) then (Sent (fail 401 "unauthorized admin"), st)
    else match r_clientId with
    | Throws => (Crashed, st)
    | Val i => answered (admin_delete cfg req i st)
    end
  end.

(** The request a handler works on when every coercion returns. *)
Definition coerce_request (r : raw_request) : coerced request :=
  match r with
  | RawPush req r_group r_type mt ot sym cmd lots price sl tp magic =>
    g ← r_group; ty ← r_type;
    b ← coerce_push g ty mt ot sym cmd lots price sl tp magic;
    mret (Push req b)
  | RawRegisterSlave req r_group r_slaveId =>
    g ← r_group; s ← r_slaveId; mret (RegisterSlave req g s)
  | RawPollEvents req r_group r_slaveId r_since r_limit =>
    g ← r_group; s ← r_slaveId; n ← r_since; l ← r_limit;
    mret (PollEvents req g s n l)
  | RawAck req r_group r_slaveId r_event_id r_status =>
    g ← r_group; s ← r_slaveId; e ← r_event_id; a ← r_status;
    mret (Ack req g s e a)
  | RawAdminClients req => mret (AdminClients req)
  | RawAdminAdd req r_fullName r_groupId r_duration i k =>
    f ← r_fullName; g ← r_groupId; d ← r_duration; mret (AdminAdd req f g d i k)
  | RawAdminDisable req r_clientId en =>
    i ← r_clientId; mret (AdminDisable req i en)
  | RawAdminExtend req r_clientId r_duration =>
    i ← r_clientId; d ← r_duration; mret (AdminExtend req i d)
  | RawAdminResetBind req r_clientId => i ← r_clientId; mret (AdminResetBind req i)
  | RawAdminDelete req r_clientId => i ← r_clientId; mret (AdminDelete req i)
  end.

(** A push whose key is the master's and whose group and type pass the
    first check: the requests for which the handler reaches
    [copier.nextId++]. *)
Definition reaches_increment (cfg : Config) (r : raw_request) : bool :=
  match r with
  | RawPush req (Val g) (Val ty) _ _ _ _ _ _ _ _ _ =>
    masterOk cfg req && negb (str_empty g)
    && (bool_decide (ty = "OPEN") || bool_decide (ty = "CLOSE"))
  | _ => false
  end.

(** ** Copier health *)

(** The numbers of GET /copier/health. *)
Record CopierHealth : Type := mkCopierHealth {
  h_now : Z;
  maxEventId : Z;
  eventsStored : Z;
  h_slaves : Z;
  h_clients : Z
}.

(** [(copier.nextId || 1) - 1], the lengths of the two arrays and the
    number of keys of [slaves.slaves]. *)
Definition copier_health (now : Z) (st : State) : CopierHealth :=
  mkCopierHealth now
    ((if nextId (copier st) =? 0 then 1 else nextId (copier st)) - 1)
    (Z.of_nat (length (events (copier st))))
    (Z.of_nat (size (slaves st)))
    (Z.of_nat (length (clients st))).

(** The log of a state the server reaches: ordered, with ids from 1 up
    to the counter, and within the retention bound. *)
Definition log_wf (c : Copier) : Prop :=
  log_ok c /\ 1 <= nextId c /\ Forall (fun ev => 1 <= ev_id ev) (events c) /\
  Z.of_nat (length (events c)) <= MAX_EVENTS.

(** ** Dashboard and agent endpoints *)

(** The account reports and the one pending command per account.  These
    endpoints keep two maps and a counter of their own, apart from the
    copier's stores, and are guarded by [authOk]. *)
Module Dashboard.

(** A JSON value, for the fields the server stores without looking
    inside. *)
#[local] Unset Elimination Schemes.
Inductive json : Type :=
| JNull
| JBool (b : bool)
| JNum (n : number)
| JStr (s : string)
| JArr (l : list json)
| JObj (l : list (string * json)).
#[local] Set Elimination Schemes.

(** The payload stored for an account. *)
Record Account : Type := mkAccount {
  accountId : string;
  name : string;
  login : number;
  server : string;
  currency : string;
  leverage : number;
  ts : Z;
  balance : number;
  equity : number;
  margin : number;
  free : number;
  orders : list json;
  stats : json
}.

(** The coerced fields of a report body: [String(b.accountId || "")],
    [Number(b.login || 0)], ..., the array [b.orders] or [[]], the
    object [b.stats] or [{}]. *)
Record ReportBody : Type := mkReportBody {
  b_accountId : string;
  b_name : string;
  b_login : number;
  b_server : string;
  b_currency : string;
  b_leverage : number;
  b_balance : number;
  b_equity : number;
  b_margin : number;
  b_free : number;
  b_orders : list json;
  b_stats : json
}.

Definition payload_of (now : Z) (b : ReportBody) : Account :=
  mkAccount (b_accountId b) (b_name b) (b_login b) (b_server b) (b_currency b)
    (b_leverage b) now (b_balance b) (b_equity b) (b_margin b) (b_free b)
    (b_orders b) (b_stats b).

(** A command object; [ackTs] is a field only once the command was
    acknowledged. *)
Record Command : Type := mkCommand {
  cmd_id : Z;
  cmd_type : string;
  cmd_target : string;
  cmd_ts : Z;
  cmd_status : string;
  cmd_errMsg : string;
  cmd_ackTs : option Z
}.

(** A [Map] whose order of iteration matters: the entries in the order
    their keys were first set. *)
Fixpoint map_get {A : Type} (k : string) (m : list (string * A)) : option A :=
  match m with
  | [] => None
  | (k', v) :: m' => if decide (k' = k) then Some v else map_get k m'
  end.

(** [m.set(k, v)]: a key that is present keeps its place. *)
Fixpoint map_set {A : Type} (k : string) (v : A) (m : list (string * A))
    : list (string * A) :=
  match m with
  | [] => [(k, v)]
  | (k', v') :: m' => if decide (k' = k) then (k, v) :: m' else (k', v') :: map_set k v m'
  end.

Record DState : Type := mkDState {
  accounts : list (string * Account);
  commands : gmap string Command;
  nextCmdId : Z
}.

(** What the process starts with. *)
Definition init_dstate : DState := mkDState [] ∅ 1.

Inductive dbody : Type :=
| DErr (error : string)
| DOk
| DHealth (now accounts_size commands_size : Z)
| DHas (c : option Command)
| DAccounts (now : Z) (out : list Account)
| DIssued (issued : string).

Record dresponse : Type := mkDResponse {
  dstatus : Z;
  djson : dbody
}.

Definition dok (b : dbody) : dresponse := mkDResponse 200 b.
Definition dfail (n : Z) (msg : string) : dresponse := mkDResponse n (DErr msg).

(** GET /health: open to everyone. *)
Definition health (now : Z) (st : DState) : dresponse :=
  dok (DHealth now (Z.of_nat (length (accounts st))) (Z.of_nat (size (commands st)))).

(** POST /report *)
Definition report (cfg : Config) (now : Z) (req : headers) (b : ReportBody)
    (st : DState) : dresponse * DState :=
  if negb (authOk cfg req) then (dfail 401 "unauthorized", st)
  else
    let accountId := b_accountId b in
    if str_empty accountId then (dfail 400 "missing accountId", st)
    else
      (dok DOk,
       mkDState (map_set accountId (payload_of now b) (accounts st))
                (commands st) (nextCmdId st)).

(** GET /command: the pending command of the account, if it is NEW. *)
Definition command (cfg : Config) (req : headers) (q_accountId : string)
    (st : DState) : dresponse :=
  if negb (authOk cfg req) then dfail 401 "unauthorized"
  else if str_empty q_accountId then dfail 400 "missing accountId"
  else match commands st !! q_accountId with
  | None => dok (DHas None)
  | Some cmd =>
    if negb (bool_decide (cmd_status cmd = "NEW")) then dok (DHas None)
    else dok (DHas (Some cmd))
  end.

(** POST /command_ack; [id] is [Number(b.id || 0)]. *)
Definition command_ack (cfg : Config) (now : Z) (req : headers)
    (b_accountId : string) (id : number) (b_status b_errMsg : string)
    (st : DState) : dresponse * DState :=
  if negb (authOk cfg req) then (dfail 401 "unauthorized", st)
  else if str_empty b_accountId || negb (num_truthy id) || str_empty b_status
  then (dfail 400 "missing fields", st)
  else match commands st !! b_accountId with
  | Some cmd =>
    if bool_decide (Int (cmd_id cmd) = id)
    then (dok DOk,
          mkDState (accounts st)
            (<[b_accountId :=
                 mkCommand (cmd_id cmd) (cmd_type cmd) (cmd_target cmd) (cmd_ts cmd)
                   b_status b_errMsg (Some now)]> (commands st))
            (nextCmdId st))
    else (dok DOk, st)
  | None => (dok DOk, st)
  end.

(** [arr.sort((a, b) => b.ts - a.ts)]: the latest report comes first,
    and reports with one [ts] keep their order, [sort] being stable
    (ECMAScript 2019, which every Node that loads this ES module
    implements).  A stable sort has one result, whatever the algorithm;
    it is computed here by insertion. *)
Fixpoint insert_by_ts (a : Account) (l : list Account) : list Account :=
  match l with
  | [] => [a]
  | b :: l' => if ts a <? ts b then b :: insert_by_ts a l' else a :: b :: l'
  end.

Fixpoint sort_by_ts (l : list Account) : list Account :=
  match l with
  | [] => []
  | a :: l' => insert_by_ts a (sort_by_ts l')
  end.

(** GET /api/accounts *)
Definition api_accounts (cfg : Config) (now : Z) (req : headers) (st : DState)
    : dresponse :=
  if negb (authOk cfg req) then dfail 401 "unauthorized"
  else dok (DAccounts now (sort_by_ts (snd <$> accounts st))).

(** The command a panic issues. *)
Definition panic_command (id : Z) (target : string) (now : Z) : Command :=
  mkCommand id "PANIC_CLOSE" target now "NEW" "" None.

(** The loop of panic over [accounts.keys()]: one command per account,
    each with the next id and its own reading [clock k] of the clock. *)
Fixpoint panic_all (target : string) (clock : nat -> Z) (k : nat)
    (keys : list string) (cmds : gmap string Command) (next : Z)
    : gmap string Command * Z :=
  match keys with
  | [] => (cmds, next)
  | accId :: keys' =>
    panic_all target clock (S k) keys'
      (<[accId := panic_command next target (clock k)]> cmds) (next + 1)
  end.

(** POST /api/panic; [b_target] is [String(b.target || "ALL")]. *)
Definition api_panic (cfg : Config) (clock : nat -> Z) (req : headers)
    (b_accountId b_target : string) (st : DState) : dresponse * DState :=
  if negb (authOk cfg req) then (dfail 401 "unauthorized", st)
  else if bool_decide (b_accountId = "ALL") then
    let '(cmds, next) :=
      panic_all b_target clock 0 (fst <$> accounts st) (commands st) (nextCmdId st) in
    (dok (DIssued "ALL"), mkDState (accounts st) cmds next)
  else if str_empty b_accountId then (dfail 400 "missing accountId", st)
  else
    (dok (DIssued b_accountId),
     mkDState (accounts st)
       (<[b_accountId := panic_command (nextCmdId st) b_target (clock 0%nat)]>
          (commands st))
       (nextCmdId st + 1)).

(** The requests that write the dashboard state. *)
Inductive drequest : Type :=
| Report (req : headers) (b : ReportBody)
| CommandAck (req : headers) (b_accountId : string) (id : number)
    (b_status b_errMsg : string)
| Panic (req : headers) (b_accountId b_target : string).

Definition dhandle (cfg : Config) (clock : nat -> Z) (r : drequest) (st : DState)
    : dresponse * DState :=
  match r with
  | Report req b => report cfg (clock 0%nat) req b st
  | CommandAck req a id s e => command_ack cfg (clock 0%nat) req a id s e st
  | Panic req a tg => api_panic cfg clock req a tg st
  end.

Inductive dreachable (cfg : Config) : DState -> Prop :=
| dreach_init : dreachable cfg init_dstate
| dreach_step clock r st :
    dreachable cfg st -> dreachable cfg (dhandle cfg clock r st).2.

(** Every stored command has an id from 1 up to the counter, and no two
    accounts hold commands with the same id. *)
Definition commands_ok (st : DState) : Prop :=
  1 <= nextCmdId st /\
  (forall a c, commands st !! a = Some c -> 1 <= cmd_id c < nextCmdId st) /\
  (forall a a' c c', commands st !! a = Some c -> commands st !! a' = Some c' ->
                     cmd_id c = cmd_id c' -> a = a').

End Dashboard.

(** POST /admin/clients/add of the second variant: the admin check is
    the variant's, the generated id and key carry the prefixes "C_" and
    "K_", and the new client is put in front ([unshift]). *)
Module VariantClients.

Definition admin_add (cfg : Config) (now : Z) (req : headers)
    (b_fullName b_groupId b_duration rnd_id rnd_key : string) (st : State)
    : response * State :=
  if negb (Variant.adminOk cfg req) then (fail 401 "unauthorized admin", st)
  else
    let fullName := trim b_fullName in
    let groupId := trim b_groupId in
    let duration := trim b_duration in
    if str_empty fullName || str_empty groupId
    then (fail 400 "missing fullName/groupId", st)
    else
      let clientId := String.append "C_" rnd_id in
      let apiKey := String.append "K_" rnd_key in
      let createdAt := now in
      let expiresAt := createdAt + addDurationMs duration in
      let c := mkClient clientId fullName groupId apiKey true createdAt expiresAt "" in
      (ok (OkClient c), with_clients (c :: clients st) st).

End VariantClients.

(** * Properties *)

(** ** Basic facts about the helpers *)

Lemma str_empty_true (s : string) : str_empty s = true <-> s = "".
Proof. destruct s; simpl; split; congruence. Qed.

Lemma str_empty_false (s : string) : str_empty s = false <-> s <> "".
Proof. destruct s; simpl; split; congruence. Qed.

Lemma header_or_empty_Some (h : option string) (k : string) :
  k <> "" -> header_or_empty h = k <-> h = Some k.
Proof.
  intros Hk. destruct h as [s|]; simpl.
  - destruct s; simpl; split; congruence.
  - split; congruence.
Qed.

Lemma day_ms : day = 86400000.
Proof. reflexivity. Qed.

Lemma addDurationMs_cases (code : string) :
  addDurationMs code = 31 * day \/ addDurationMs code = 93 * day \/
  addDurationMs code = 186 * day \/ addDurationMs code = 366 * day.
Proof. unfold addDurationMs. repeat case_decide; auto. Qed.

Lemma addDurationMs_lower (code : string) : 31 * day <= addDurationMs code.
Proof.
  pose proof day_ms.
  destruct (addDurationMs_cases code) as [E|[E|[E|E]]]; rewrite E; lia.
Qed.

Section find_update.
Context {A : Type} (p : A -> bool) (f : A -> A).

Lemma js_find_Some (l : list A) (x : A) :
  js_find p l = Some x -> x ∈ l /\ p x = true.
Proof.
  induction l as [|y l IH]; simpl; [discriminate|].
  destruct (p y) eqn:E.
  - intros [= ->]. split; [left | done].
  - intros H. destruct (IH H). split; [by right | done].
Qed.

Lemma js_find_None (l : list A) :
  js_find p l = None <-> forall x, x ∈ l -> p x = false.
Proof.
  induction l as [|y l IH]; simpl.
  - split; [|done]. intros _ x Hx. by apply elem_of_nil in Hx.
  - destruct (p y) eqn:E.
    + split; [discriminate|]. intros H. rewrite H in E; [discriminate | left].
    + rewrite IH. split.
      * intros H x Hx. apply elem_of_cons in Hx as [->|Hx]; auto.
      * intros H x Hx. apply H. by right.
Qed.

Lemma update_first_length (l : list A) :
  length (update_first p f l) = length l.
Proof.
  induction l as [|y l IH]; simpl; [done|].
  destruct (p y); simpl; congruence.
Qed.

Lemma update_first_None (l : list A) :
  js_find p l = None -> update_first p f l = l.
Proof.
  induction l as [|y l IH]; simpl; [done|].
  destruct (p y); [discriminate|]. intros H. by rewrite IH.
Qed.

(** Element by element, [update_first] leaves the element alone or
    replaces the element [find] returns by its image. *)
Lemma update_first_lookup (l : list A) (i : nat) (x x' : A) :
  l !! i = Some x -> update_first p f l !! i = Some x' ->
  x' = x \/ (js_find p l = Some x /\ x' = f x).
Proof.
  revert i. induction l as [|y l IH]; intros i; simpl; [discriminate|].
  destruct (p y) eqn:E.
  - destruct i as [|i]; simpl.
    + intros [= ->] [= <-]. by right.
    + intros H1 H2. left. congruence.
  - destruct i as [|i]; simpl.
    + intros [= ->] [= <-]. by left.
    + apply IH.
Qed.

(** The one element the write changes is the first that satisfies [p]. *)
Lemma update_first_lookup_first (l : list A) (i : nat) (x x' : A) :
  l !! i = Some x -> update_first p f l !! i = Some x' ->
  x' = x \/ (first_at p l i x /\ x' = f x).
Proof.
  revert i. induction l as [|y l IH]; intros i; simpl; [discriminate|].
  destruct (p y) eqn:E.
  - destruct i as [|i]; simpl.
    + intros [= ->] [= <-]. right. split; [|done].
      split; [done|]. split; [done|]. intros j y' Hj. lia.
    + intros H1 H2. left. congruence.
  - destruct i as [|i]; simpl.
    + intros [= ->] [= <-]. by left.
    + intros H1 H2.
      destruct (IH i H1 H2) as [->|[(Hl & Hp & Hfirst) ->]]; [by left|].
      right. split; [|done]. split; [done|]. split; [done|].
      intros [|j] y' Hj Hy'; simpl in Hy'.
      * by injection Hy' as <-.
      * apply (Hfirst j); [lia | done].
Qed.

(** When [f] keeps the searched key, the search after the write finds
    the written object. *)
Lemma js_find_update_first (l : list A) :
  (forall x, p (f x) = p x) ->
  js_find p (update_first p f l) = f <$> js_find p l.
Proof.
  intros Hp. induction l as [|y l IH]; simpl; [done|].
  destruct (p y) eqn:E; simpl.
  - by rewrite Hp, E.
  - by rewrite E.
Qed.

(** A search for another key does not see the write, when [f] keeps
    that key too. *)
Lemma js_find_update_first_other (q : A -> bool) (l : list A) :
  (forall x, q (f x) = q x) ->
  (forall x, p x = true -> q x = false) ->
  js_find q (update_first p f l) = js_find q l.
Proof.
  intros Hq Hpq. induction l as [|y l IH]; simpl; [done|].
  destruct (p y) eqn:E; simpl.
  - by rewrite Hq, (Hpq y E).
  - by rewrite IH.
Qed.
End find_update.

(** ** Admin gate of the two variants *)

(** C9. With the same non-empty [ADMIN_KEY], [adminOk] of server.js and
    [adminOk] of the other variant accept the same requests, namely those
    whose x-admin-key header is exactly [ADMIN_KEY]; with an empty
    [ADMIN_KEY] the former accepts every request and the latter none. *)
Theorem adminOk_variants (cfg : Config) (req : headers) :
  (ADMIN_KEY cfg <> "" ->
     adminOk cfg req = Variant.adminOk cfg req /\
     (adminOk cfg req = true <-> x_admin_key req = Some (ADMIN_KEY cfg)) /\
     (Variant.adminOk cfg req = true <-> x_admin_key req = Some (ADMIN_KEY cfg))) /\
  (ADMIN_KEY cfg = "" ->
     adminOk cfg req = true /\ Variant.adminOk cfg req = false).
Proof.
  unfold adminOk, Variant.adminOk. split.
  - intros Hk. apply str_empty_false in Hk as Hk'. rewrite Hk'.
    assert (Hv : bool_decide (header_or_empty (x_admin_key req) = ADMIN_KEY cfg) = true
                 <-> x_admin_key req = Some (ADMIN_KEY cfg)).
    { rewrite bool_decide_eq_true. by apply header_or_empty_Some. }
    assert (Hs : bool_decide (x_admin_key req = Some (ADMIN_KEY cfg)) = true
                 <-> x_admin_key req = Some (ADMIN_KEY cfg)).
    { by rewrite bool_decide_eq_true. }
    split; [|done].
    apply eq_true_iff_eq. by rewrite Hs, Hv.
  - intros Hk. apply str_empty_true in Hk. by rewrite Hk.
Qed.

Lemma adminOk_variants_witness :
  (adminOk (mkConfig "" "s3cret" "") (mkHeaders None (Some "s3cret") None)
   = Variant.adminOk (mkConfig "" "s3cret" "") (mkHeaders None (Some "s3cret") None)) /\
  (adminOk (mkConfig "" "" "") (mkHeaders None None None) = true /\
   Variant.adminOk (mkConfig "" "" "") (mkHeaders None None None) = false).
Proof.
  split.
  - destruct (adminOk_variants (mkConfig "" "s3cret" "")
                (mkHeaders None (Some "s3cret") None)) as [H _].
    assert (Hk : "s3cret" <> "") by discriminate.
    exact (proj1 (H Hk)).
  - destruct (adminOk_variants (mkConfig "" "" "") (mkHeaders None None None))
      as [_ H].
    exact (H eq_refl).
Defined.

(** The constants themselves: the two variants read the same
    [ADMIN_KEY] from an environment whose values carry no white space at
    their ends, and not otherwise. *)
Lemma config_of_env_trimmed (api admin master : option string) :
  trim (header_or_empty api) = header_or_empty api ->
  trim (header_or_empty admin) = header_or_empty admin ->
  trim (header_or_empty master) = header_or_empty master ->
  Variant.config_of_env api admin master = config_of_env api admin master.
Proof. unfold Variant.config_of_env, config_of_env. by intros -> -> ->. Qed.

Example config_of_env_padded :
  ADMIN_KEY (config_of_env None (Some " k ") None) = " k " /\
  ADMIN_KEY (Variant.config_of_env None (Some " k ") None) = "k".
Proof. split; reflexivity. Qed.


(** ** Client registry: extend *)



(** ** Access control gate *)

Lemma requireClient_inr (now : Z) (cs : list Client) (req : headers)
    (g : string) (c : Client) :
  requireClient now cs req g = inr c <->
  trim (header_or_empty (x_api_key req)) <> "" /\
  findClientByApiKey cs (trim (header_or_empty (x_api_key req))) = Some c /\
  enabled c = true /\ now < expiresAt c /\ (g = "" \/ groupId c = g).
Proof.
  unfold requireClient, clientActive.
  destruct (str_empty (trim _)) eqn:Hk.
  { split; [discriminate|]. intros [Hne _]. apply str_empty_true in Hk. done. }
  apply str_empty_false in Hk.
  destruct (findClientByApiKey cs _) as [c0|] eqn:Hf.
  2:{ split; [discriminate|]. intros (_ & [=] & _). }
  destruct (enabled c0) eqn:He; simpl.
  2:{ split; [discriminate|]. intros (_ & [= ->] & He' & _). congruence. }
  destruct (Z.leb_spec (expiresAt c0) now) as [Hexp|Hexp]; simpl.
  { split; [discriminate|]. intros (_ & [= ->] & _ & Hlt & _). lia. }
  destruct (str_empty g) eqn:Hg; simpl.
  { apply str_empty_true in Hg. split.
    - intros [= ->]. repeat split; auto.
    - intros (_ & [= ->] & _). done. }
  apply str_empty_false in Hg.
  case_bool_decide as Hgrp; simpl.
  - split.
    + intros [= ->]. repeat split; auto.
    + intros (_ & [= ->] & _). done.
  - split; [discriminate|]. intros (_ & [= ->] & _ & _ & [?|?]); congruence.
Qed.

Lemma requireClient_no_key (now : Z) (cs : list Client) (req : headers) (g : string) :
  trim (header_or_empty (x_api_key req)) = "" ->
  requireClient now cs req g = inl (fail 401 "missing x-api-key").
Proof. intros Hk. unfold requireClient. by rewrite Hk. Qed.

Lemma requireClient_bad_key (now : Z) (cs : list Client) (req : headers) (g : string) :
  trim (header_or_empty (x_api_key req)) <> "" ->
  findClientByApiKey cs (trim (header_or_empty (x_api_key req))) = None ->
  requireClient now cs req g = inl (fail 401 "invalid api key").
Proof.
  intros Hk Hf. unfold requireClient.
  apply str_empty_false in Hk. by rewrite Hk, Hf.
Qed.

Lemma requireClient_inactive (now : Z) (cs : list Client) (req : headers)
    (g : string) (c : Client) :
  trim (header_or_empty (x_api_key req)) <> "" ->
  findClientByApiKey cs (trim (header_or_empty (x_api_key req))) = Some c ->
  enabled c = false \/ expiresAt c <= now ->
  requireClient now cs req g = inl (fail 403 "expired/disabled").
Proof.
  intros Hk Hf Hin. unfold requireClient, clientActive.
  apply str_empty_false in Hk. rewrite Hk, Hf.
  destruct (enabled c); simpl.
  - destruct Hin as [?|Hexp]; [done|].
    apply Z.leb_le in Hexp. by rewrite Hexp.
  - done.
Qed.

Lemma requireClient_group (now : Z) (cs : list Client) (req : headers)
    (g : string) (c : Client) :
  trim (header_or_empty (x_api_key req)) <> "" ->
  findClientByApiKey cs (trim (header_or_empty (x_api_key req))) = Some c ->
  enabled c = true -> now < expiresAt c -> g <> "" -> groupId c <> g ->
  requireClient now cs req g = inl (fail 403 "group mismatch").
Proof.
  intros Hk Hf He Hexp Hg Hne. unfold requireClient, clientActive.
  apply str_empty_false in Hk. apply str_empty_false in Hg.
  rewrite Hk, Hf, He, Hg. simpl.
  destruct (Z.leb_spec (expiresAt c) now); [lia|]. simpl.
  by rewrite bool_decide_eq_false_2.
Qed.

(** C4. [requireClient] checks in this order: the API key header, absent
    or blank, and then a key of no client, are Unauthorized; a matched
    client that is disabled or has [expiresAt <= now] is Forbidden,
    whatever the group; a group given in the request and different from
    the client's is Forbidden; otherwise the client is returned.  Hence
    registerSlave, events and ack, once their fields are present, answer
    Forbidden to the correct key of a client with [expiresAt <= now] and
    leave the state as it was. *)
Theorem requireClient_order (now seen sent : Z) (st : State) (req : headers)
    (g : string) :
  let k := trim (header_or_empty (x_api_key req)) in
  let cs := clients st in
  (x_api_key req = None \/ k = "" \/ findClientByApiKey cs k = None ->
     exists r, requireClient now cs req g = inl r /\
               category_of r = Some Unauthorized) /\
  (forall c, k <> "" -> findClientByApiKey cs k = Some c ->
     enabled c = false \/ expiresAt c <= now ->
     exists r, requireClient now cs req g = inl r /\
               category_of r = Some Forbidden) /\
  (forall c, k <> "" -> findClientByApiKey cs k = Some c ->
     enabled c = true -> now < expiresAt c -> g <> "" -> groupId c <> g ->
     exists r, requireClient now cs req g = inl r /\
               category_of r = Some Forbidden) /\
  (forall c, k <> "" -> findClientByApiKey cs k = Some c ->
     enabled c = true -> now < expiresAt c -> g = "" \/ groupId c = g ->
     requireClient now cs req g = inr c) /\
  (forall c slaveId since limit_raw event_id ack_status,
     k <> "" -> findClientByApiKey cs k = Some c -> expiresAt c <= now ->
     g <> "" -> slaveId <> "" ->
     (category_of (copier_registerSlave now seen req g slaveId st).1 = Some Forbidden /\
      (copier_registerSlave now seen req g slaveId st).2 = st) /\
     (category_of (copier_events now seen sent req g slaveId since limit_raw st).1
        = Some Forbidden /\
      (copier_events now seen sent req g slaveId since limit_raw st).2 = st) /\
     (num_truthy event_id = true -> ack_status <> "" ->
      category_of (copier_ack now seen req g slaveId event_id ack_status st).1
        = Some Forbidden /\
      (copier_ack now seen req g slaveId event_id ack_status st).2 = st)).
Proof.
  intros k cs. split; [|split; [|split; [|split]]].
  - intros Hcase.
    destruct (decide (k = "")) as [Hk|Hk].
    + exists (fail 401 "missing x-api-key"). split; [|done].
      by apply requireClient_no_key.
    + destruct Hcase as [Hnone|[?|Hf]]; [|done|].
      * exfalso. apply Hk. subst k. by rewrite Hnone.
      * exists (fail 401 "invalid api key"). split; [|done].
        by apply requireClient_bad_key.
  - intros c Hk Hf Hin. exists (fail 403 "expired/disabled"). split; [|done].
    by eapply requireClient_inactive.
  - intros c Hk Hf He Hexp Hg Hne. exists (fail 403 "group mismatch").
    split; [|done]. by eapply requireClient_group.
  - intros c Hk Hf He Hexp Hg. apply requireClient_inr. by repeat split.
  - intros c slaveId since limit_raw event_id ack_status Hk Hf Hexp Hg Hs.
    assert (Hreq : requireClient now cs req g = inl (fail 403 "expired/disabled"))
      by (eapply requireClient_inactive; eauto).
    apply str_empty_false in Hg, Hs.
    unfold copier_registerSlave, copier_events, copier_ack. fold cs.
    rewrite Hg, Hs, Hreq. simpl. split; [done | split; [done|]].
    intros He Ha. apply str_empty_false in Ha. by rewrite He, Ha.
Qed.

Lemma requireClient_order_witness :
  category_of
    (copier_registerSlave 2000 2000 (mkHeaders (Some "K1") None None) "G1" "S1"
       (mkState [mkClient "c1" "Bob" "G1" "K1" true 0 1000 ""] (mkCopier 1 []) ∅)).1
  = Some Forbidden.
Proof.
  pose proof (requireClient_order 2000 2000 2000
                (mkState [mkClient "c1" "Bob" "G1" "K1" true 0 1000 ""]
                   (mkCopier 1 []) ∅)
                (mkHeaders (Some "K1") None None) "G1") as H.
  simpl in H. destruct H as (_ & _ & _ & _ & H).
  refine (proj1 (proj1 (H (mkClient "c1" "Bob" "G1" "K1" true 0 1000 "") "S1"
                          NaN NaN NaN "" _ eq_refl _ _ _)));
    first [discriminate | simpl; lia].
Defined.

(** ** Facts about request numbers *)

Lemma Qc_leb_le (x y : Qc) : Qc_leb x y = true <-> (x <= y)%Qc.
Proof. unfold Qc_leb, Qcle. apply Qle_bool_iff. Qed.

Lemma Qc_eqb_eq (x y : Qc) : Qc_eqb x y = true <-> x = y.
Proof.
  unfold Qc_eqb. rewrite Qeq_bool_iff. split.
  - apply Qc_is_canon.
  - by intros ->.
Qed.

Lemma Qc_leb_refl (x : Qc) : Qc_leb x x = true.
Proof. apply Qc_leb_le, Qcle_refl. Qed.

Lemma Qc_leb_total (x y : Qc) : Qc_leb x y = false -> Qc_leb y x = true.
Proof.
  intros H. apply Qc_leb_le.
  destruct (Qclt_le_dec y x) as [Hlt|Hle].
  - by apply Qclt_le_weak.
  - apply Qc_leb_le in Hle. congruence.
Qed.

Lemma Qc_leb_antisym (x y : Qc) : Qc_leb x y = true -> Qc_leb y x = true -> x = y.
Proof. rewrite !Qc_leb_le. apply Qcle_antisym. Qed.

Lemma Qc_leb_trans (x y z : Qc) :
  Qc_leb x y = true -> Qc_leb y z = true -> Qc_leb x z = true.
Proof. rewrite !Qc_leb_le. apply Qcle_trans. Qed.

Lemma num_leb_Int (a b : Z) : num_leb (Int a) (Int b) = (a <=? b).
Proof.
  simpl. apply eq_true_iff_eq. rewrite Qc_leb_le, Z.leb_le.
  symmetry. apply Z2Qc_inj_le.
Qed.

Lemma num_or_zero (a : number) : a <> NaN -> num_or a (Int 0) = a.
Proof.
  intros Ha. unfold num_or. destruct a as [| |q|]; simpl; try done.
  destruct (Qc_eqb q (Qc_of_Z 0)) eqn:E; simpl; [|done].
  apply Qc_eqb_eq in E. by rewrite E.
Qed.

Lemma num_truthy_not_NaN (a : number) : num_truthy a = true -> a <> NaN.
Proof. by destruct a. Qed.

Lemma num_leb_refl (a : number) : a <> NaN -> num_leb a a = true.
Proof. destruct a; simpl; try done. intros _. apply Qc_leb_refl. Qed.

Lemma num_leb_trans (a b c : number) :
  num_leb a b = true -> num_leb b c = true -> num_leb a c = true.
Proof.
  destruct a, b, c; simpl; try done. apply Qc_leb_trans.
Qed.

Lemma Math_max_not_NaN (a b : number) : a <> NaN -> b <> NaN -> Math_max a b <> NaN.
Proof.
  intros Ha Hb. destruct a, b; try done; simpl; try done.
  by destruct (Qc_leb q q0).
Qed.

Lemma Math_max_ub_l (a b : number) :
  a <> NaN -> b <> NaN -> num_leb a (Math_max a b) = true.
Proof.
  intros Ha Hb. destruct a, b; try done; simpl; try done.
  - apply Qc_leb_refl.
  - destruct (Qc_leb q q0) eqn:E; simpl; [done | apply Qc_leb_refl].
Qed.

Lemma Math_max_ub_r (a b : number) :
  a <> NaN -> b <> NaN -> num_leb b (Math_max a b) = true.
Proof.
  intros Ha Hb. destruct a, b; try done; simpl; try done.
  - apply Qc_leb_refl.
  - destruct (Qc_leb q q0) eqn:E; simpl; [apply Qc_leb_refl | by apply Qc_leb_total].
Qed.

(** [Math.max(a, b)] is [a] when [b <= a]. *)
Lemma Math_max_absorb (a b : number) : num_leb b a = true -> Math_max a b = a.
Proof.
  destruct a, b; simpl; try done.
  intros H. destruct (Qc_leb q q0) eqn:E; [|done].
  f_equal. symmetry. by apply Qc_leb_antisym.
Qed.

Lemma Math_max_idem (a b : number) : Math_max (Math_max a b) b = Math_max a b.
Proof.
  destruct (decide (a = NaN)) as [->|Ha]; [done|].
  destruct (decide (b = NaN)) as [->|Hb]; [by destruct a|].
  apply Math_max_absorb. by apply Math_max_ub_r.
Qed.

(** ** Slave directory *)

Lemma cursor_of_ok (m : gmap string SlaveRec) (k : string) :
  cursors_ok m -> cursor_of m k <> NaN.
Proof.
  intros Hok. unfold cursor_of. destruct (m !! k) as [r|] eqn:E; [|done].
  by eapply Hok.
Qed.

Lemma ensure_slave_lookup (m : gmap string SlaveRec) (k : string) :
  ensure_slave k m !! k
  = Some (match m !! k with Some r => r | None => mkSlaveRec (Int 0) 0 end).
Proof.
  unfold ensure_slave. destruct (m !! k) as [r|] eqn:E; [done|].
  apply lookup_insert_eq.
Qed.

Lemma ensure_slave_lookup_ne (m : gmap string SlaveRec) (k k' : string) :
  k <> k' -> ensure_slave k m !! k' = m !! k'.
Proof.
  intros Hne. unfold ensure_slave. destruct (m !! k); [done|].
  by apply lookup_insert_ne.
Qed.

Lemma touch_slave_lookup (now : Z) (m : gmap string SlaveRec) (k : string) :
  touch_slave now k m !! k = Some (mkSlaveRec (cursor_of m k) now).
Proof.
  unfold touch_slave, cursor_of. rewrite lookup_alter_eq, ensure_slave_lookup.
  by destruct (m !! k).
Qed.

Lemma touch_slave_lookup_ne (now : Z) (m : gmap string SlaveRec) (k k' : string) :
  k <> k' -> touch_slave now k m !! k' = m !! k'.
Proof.
  intros Hne. unfold touch_slave.
  rewrite lookup_alter_ne by done. by apply ensure_slave_lookup_ne.
Qed.

Lemma ack_slave_lookup (now : Z) (m : gmap string SlaveRec) (k : string)
    (e : number) :
  ack_slave now k e m !! k
  = Some (mkSlaveRec (Math_max (num_or (cursor_of m k) (Int 0)) e) now).
Proof.
  unfold ack_slave, cursor_of.
  rewrite !lookup_alter_eq, ensure_slave_lookup.
  by destruct (m !! k).
Qed.

Lemma ack_slave_lookup_ne (now : Z) (m : gmap string SlaveRec) (k k' : string)
    (e : number) :
  k <> k' -> ack_slave now k e m !! k' = m !! k'.
Proof.
  intros Hne. unfold ack_slave.
  rewrite !lookup_alter_ne by done. by apply ensure_slave_lookup_ne.
Qed.

Lemma touch_slave_ok (now : Z) (m : gmap string SlaveRec) (k : string) :
  cursors_ok m -> cursors_ok (touch_slave now k m).
Proof.
  intros Hok k' r. destruct (decide (k = k')) as [<-|Hne].
  - rewrite touch_slave_lookup. intros [= <-]. simpl. by apply cursor_of_ok.
  - rewrite touch_slave_lookup_ne by done. apply Hok.
Qed.

Lemma ack_slave_ok (now : Z) (m : gmap string SlaveRec) (k : string) (e : number) :
  e <> NaN -> cursors_ok m -> cursors_ok (ack_slave now k e m).
Proof.
  intros He Hok k' r. destruct (decide (k = k')) as [<-|Hne].
  - rewrite ack_slave_lookup. intros [= <-]. simpl.
    apply Math_max_not_NaN; [|done].
    rewrite num_or_zero; by apply cursor_of_ok.
  - rewrite ack_slave_lookup_ne by done. apply Hok.
Qed.

Lemma requireClient_inl_status (now : Z) (cs : list Client) (req : headers)
    (g : string) (r : response) :
  requireClient now cs req g = inl r ->
  category_of r = Some Unauthorized \/ category_of r = Some Forbidden.
Proof.
  unfold requireClient. intros Hreq.
  repeat match type of Hreq with
         | (if ?b then _ else _) = _ => destruct b
         | match ?o with Some _ => _ | None => _ end = _ => destruct o
         end; try discriminate; injection Hreq as <-; auto.
Qed.

Lemma category_not_200 (r : response) (c : category) :
  category_of r = Some c -> status r <> 200.
Proof.
  unfold category_of. intros H E. rewrite E in H. discriminate.
Qed.

(** What a successful ack went through. *)
Lemma copier_ack_200 (now seen : Z) (req : headers) (g s : string) (e : number)
    (a : string) (st : State) :
  status (copier_ack now seen req g s e a st).1 = 200 ->
  g <> "" /\ s <> "" /\ num_truthy e = true /\ a <> "" /\
  (exists c, requireClient now (clients st) req g = inr c /\
             (boundSlaveId c = "" \/ boundSlaveId c = s)) /\
  copier_ack now seen req g s e a st
  = (ok Ok, with_slaves (ack_slave seen (slaveKey g s) e (slaves st)) st).
Proof.
  unfold copier_ack.
  destruct (str_empty g) eqn:Hg; [done|].
  destruct (str_empty s) eqn:Hs; [done|].
  destruct (num_truthy e) eqn:He; [|done].
  destruct (str_empty a) eqn:Ha; [done|]. simpl.
  apply str_empty_false in Hg, Hs, Ha.
  destruct (requireClient now (clients st) req g) as [r|c] eqn:Hreq.
  { intros H200. exfalso.
    destruct (requireClient_inl_status _ _ _ _ _ Hreq) as [Hc|Hc];
      by apply category_not_200 in Hc. }
  destruct (str_empty (boundSlaveId c)) eqn:Hb; simpl.
  - intros _. repeat split; try done. exists c. split; [done|].
    left. by apply str_empty_true.
  - case_bool_decide as Hbs; simpl; [|done].
    intros _. repeat split; try done. exists c. split; [done|]. by right.
Qed.

Lemma cursor_of_ack (now : Z) (m : gmap string SlaveRec) (k : string) (e : number) :
  cursors_ok m ->
  cursor_of (ack_slave now k e m) k = Math_max (cursor_of m k) e.
Proof.
  intros Hok. unfold cursor_of at 1. rewrite ack_slave_lookup. simpl.
  rewrite num_or_zero; [done | by apply cursor_of_ok].
Qed.

(** C3. A successful ack of [event_id] on the cursor of (group, slaveId)
    stores [max(lastAckId, event_id)], with [lastAckId] counted as [0]
    when the record did not exist, and touches no other cursor.  The
    stored id is at least the former one and at least [event_id].  A
    further successful ack of an id that is not above [event_id] (the
    same id again, or an older one) leaves [lastAckId] as it is: after 5
    and then 3 it is 5. *)
Theorem ack_monotonic (now seen : Z) (req : headers) (g s : string) (e : number)
    (a : string) (st : State) :
  cursors_ok (slaves st) ->
  status (copier_ack now seen req g s e a st).1 = 200 ->
  let k := slaveKey g s in
  let st1 := (copier_ack now seen req g s e a st).2 in
  (forall r, slaves st !! k = Some r ->
     slaves st1 !! k = Some (mkSlaveRec (Math_max (lastAckId r) e) seen)) /\
  (slaves st !! k = None ->
     slaves st1 !! k = Some (mkSlaveRec (Math_max (Int 0) e) seen)) /\
  (forall k', k' <> k -> slaves st1 !! k' = slaves st !! k') /\
  num_leb (cursor_of (slaves st) k) (cursor_of (slaves st1) k) = true /\
  num_leb e (cursor_of (slaves st1) k) = true /\
  cursors_ok (slaves st1) /\
  (forall now2 seen2 req2 a2 e2,
     status (copier_ack now2 seen2 req2 g s e2 a2 st1).1 = 200 ->
     num_leb e2 e = true ->
     cursor_of (slaves (copier_ack now2 seen2 req2 g s e2 a2 st1).2) k
     = cursor_of (slaves st1) k) /\
  (e = Int 5 -> num_leb (cursor_of (slaves st) k) (Int 5) = true ->
   forall now2 seen2 req2 a2,
     status (copier_ack now2 seen2 req2 g s (Int 3) a2 st1).1 = 200 ->
     cursor_of (slaves (copier_ack now2 seen2 req2 g s (Int 3) a2 st1).2) k = Int 5).
Proof.
  intros Hok H200 k st1.
  destruct (copier_ack_200 _ _ _ _ _ _ _ _ H200) as (_ & _ & He & _ & _ & Heq).
  apply num_truthy_not_NaN in He.
  assert (Hs1 : slaves st1 = ack_slave seen k e (slaves st)).
  { subst st1. by rewrite Heq. }
  assert (Hc0 : cursor_of (slaves st) k <> NaN) by by apply cursor_of_ok.
  assert (Hc1 : cursor_of (slaves st1) k = Math_max (cursor_of (slaves st) k) e).
  { rewrite Hs1. by apply cursor_of_ack. }
  assert (Hok1 : cursors_ok (slaves st1)).
  { rewrite Hs1. by apply ack_slave_ok. }
  assert (Hsecond : forall now2 seen2 req2 a2 e2,
     status (copier_ack now2 seen2 req2 g s e2 a2 st1).1 = 200 ->
     num_leb e2 (cursor_of (slaves st1) k) = true ->
     cursor_of (slaves (copier_ack now2 seen2 req2 g s e2 a2 st1).2) k
     = cursor_of (slaves st1) k).
  { intros now2 seen2 req2 a2 e2 H2 Hle.
    destruct (copier_ack_200 _ _ _ _ _ _ _ _ H2) as (_ & _ & _ & _ & _ & Heq2).
    rewrite Heq2. simpl. fold k. rewrite cursor_of_ack by done.
    by apply Math_max_absorb. }
  repeat split.
  - intros r Hr. rewrite Hs1, ack_slave_lookup.
    rewrite num_or_zero by done. unfold cursor_of. by rewrite Hr.
  - intros Hnone. rewrite Hs1, ack_slave_lookup.
    rewrite num_or_zero by done. unfold cursor_of. by rewrite Hnone.
  - intros k' Hne. rewrite Hs1. by apply ack_slave_lookup_ne.
  - rewrite Hc1. by apply Math_max_ub_l.
  - rewrite Hc1. by apply Math_max_ub_r.
  - done.
  - intros now2 seen2 req2 a2 e2 H2 Hle. apply Hsecond; [done|].
    eapply num_leb_trans; [exact Hle|].
    rewrite Hc1. by apply Math_max_ub_r.
  - intros -> Hle now2 seen2 req2 a2 H2.
    assert (H5 : cursor_of (slaves st1) k = Int 5).
    { rewrite Hc1. destruct (cursor_of (slaves st) k); simpl in *; try done.
      by rewrite Hle. }
    rewrite Hsecond; [done | done |]. by rewrite H5.
Qed.

Lemma ack_monotonic_witness :
  cursor_of
    (slaves
       (copier_ack 20 20 (mkHeaders (Some "K1") None None) "G1" "S1" (Int 3) "DONE"
          (copier_ack 10 10 (mkHeaders (Some "K1") None None) "G1" "S1" (Int 5) "DONE"
             (mkState [mkClient "c1" "Bob" "G1" "K1" true 0 1000 "S1"]
                (mkCopier 1 []) ∅)).2).2)
    (slaveKey "G1" "S1")
  = Int 5.
Proof.
  assert (Hok : cursors_ok (∅ : gmap string SlaveRec)).
  { intros k r Hk. by rewrite lookup_empty in Hk. }
  pose proof (ack_monotonic 10 10 (mkHeaders (Some "K1") None None) "G1" "S1"
                (Int 5) "DONE"
                (mkState [mkClient "c1" "Bob" "G1" "K1" true 0 1000 "S1"]
                   (mkCopier 1 []) ∅) Hok eq_refl) as H.
  destruct H as (_ & _ & _ & _ & _ & _ & _ & H).
  apply (H eq_refl eq_refl 20 20 (mkHeaders (Some "K1") None None) "DONE").
  reflexivity.
Defined.

(** ** Ack and the client registry *)

Lemma copier_ack_frame (now seen : Z) (req : headers) (g s : string) (e : number)
    (a : string) (st : State) :
  clients (copier_ack now seen req g s e a st).2 = clients st /\
  copier (copier_ack now seen req g s e a st).2 = copier st.
Proof.
  unfold copier_ack.
  destruct (_ || _ || _ || _); [done|].
  destruct (requireClient _ _ _ _); [done|].
  by destruct (_ && _).
Qed.

(** C8. An ack never writes the client registry (nor the event log).
    For a client with an empty [boundSlaveId] the ack succeeds and the
    client is found afterwards as it was, still unbound; for a client
    bound to another slaveId the ack is Forbidden and the whole state is
    as before. *)
Theorem ack_keeps_clients (now seen : Z) (req : headers) (g s : string) (e : number)
    (a : string) (st : State) :
  clients (copier_ack now seen req g s e a st).2 = clients st /\
  copier (copier_ack now seen req g s e a st).2 = copier st /\
  (forall c, g <> "" -> s <> "" -> num_truthy e = true -> a <> "" ->
     requireClient now (clients st) req g = inr c ->
     (boundSlaveId c = "" ->
        (copier_ack now seen req g s e a st).1 = ok Ok /\
        findClientByApiKey (clients (copier_ack now seen req g s e a st).2) (apiKey c)
        = Some c) /\
     (boundSlaveId c <> "" -> boundSlaveId c <> s ->
        category_of (copier_ack now seen req g s e a st).1 = Some Forbidden /\
        (copier_ack now seen req g s e a st).2 = st)).
Proof.
  pose proof (copier_ack_frame now seen req g s e a st) as Hframe.
  destruct Hframe as [Hcl Hco]. split; [done|]. split; [done|].
  intros c Hg Hs He Ha Hreq.
  apply str_empty_false in Hg, Hs, Ha.
  pose proof Hreq as (_ & Hf & _)%requireClient_inr.
  assert (Hkey : apiKey c = trim (header_or_empty (x_api_key req))).
  { apply js_find_Some in Hf as [_ Hp]. by apply bool_decide_eq_true in Hp. }
  split.
  - intros Hb. split.
    + unfold copier_ack. rewrite Hg, Hs, He, Ha, Hreq. simpl. by rewrite Hb.
    + by rewrite Hcl, Hkey.
  - intros Hb Hne. unfold copier_ack. rewrite Hg, Hs, He, Ha, Hreq. simpl.
    apply str_empty_false in Hb. rewrite Hb. simpl.
    by rewrite bool_decide_eq_false_2.
Qed.

Lemma ack_keeps_clients_witness :
  (copier_ack 10 10 (mkHeaders (Some "K1") None None) "G1" "S1" (Int 1) "DONE"
     (mkState [mkClient "c1" "Bob" "G1" "K1" true 0 1000 ""] (mkCopier 1 []) ∅)).1
  = ok Ok /\
  findClientByApiKey
    (clients
       (copier_ack 10 10 (mkHeaders (Some "K1") None None) "G1" "S1" (Int 1) "DONE"
          (mkState [mkClient "c1" "Bob" "G1" "K1" true 0 1000 ""]
             (mkCopier 1 []) ∅)).2) "K1"
  = Some (mkClient "c1" "Bob" "G1" "K1" true 0 1000 "").
Proof.
  destruct (ack_keeps_clients 10 10 (mkHeaders (Some "K1") None None) "G1" "S1"
              (Int 1) "DONE"
              (mkState [mkClient "c1" "Bob" "G1" "K1" true 0 1000 ""]
                 (mkCopier 1 []) ∅)) as (_ & _ & H).
  assert (Hne : forall x : string, String "G"%char x <> "") by discriminate.
  assert (Hs : "S1" <> "") by discriminate.
  assert (Hd : "DONE" <> "") by discriminate.
  exact (proj1 (H (mkClient "c1" "Bob" "G1" "K1" true 0 1000 "")
                  (Hne "1") Hs eq_refl Hd eq_refl) eq_refl).
Defined.

(** ** Event log: push *)

Lemma copier_push_unauthorized (cfg : Config) (now : Z) (req : headers)
    (b : PushBody) (st : State) :
  masterOk cfg req = false ->
  copier_push cfg now req b st = (fail 401 "unauthorized master", st).
Proof. intros H. unfold copier_push. by rewrite H. Qed.

Lemma copier_push_bad_group_type (cfg : Config) (now : Z) (req : headers)
    (b : PushBody) (st : State) :
  masterOk cfg req = true -> group_type_ok b = false ->
  copier_push cfg now req b st = (fail 400 "bad group/type", st).
Proof.
  intros Hm Hg. unfold copier_push, group_type_ok in *. rewrite Hm. simpl.
  destruct (str_empty (b_group b)); simpl in *; [done|].
  destruct (bool_decide (b_type b = "OPEN")),
           (bool_decide (b_type b = "CLOSE")); simpl in *; done.
Qed.

Lemma copier_push_missing (cfg : Config) (now : Z) (req : headers)
    (b : PushBody) (st : State) :
  masterOk cfg req = true -> group_type_ok b = true -> ticket_symbol_ok b = false ->
  copier_push cfg now req b st
  = (fail 400 "missing master_ticket/symbol",
     with_copier (mkCopier (nextId (copier st) + 1) (events (copier st))) st).
Proof.
  intros Hm Hg Ht. unfold copier_push, group_type_ok, ticket_symbol_ok in *.
  rewrite Hm. simpl.
  destruct (str_empty (b_group b)); simpl in *; [done|].
  destruct (bool_decide (b_type b = "OPEN")),
           (bool_decide (b_type b = "CLOSE")); simpl in *; try done;
    destruct (num_truthy (b_master_ticket b)), (str_empty (b_symbol b));
    simpl in *; done.
Qed.

Lemma copier_push_accepted (cfg : Config) (now : Z) (req : headers)
    (b : PushBody) (st : State) :
  masterOk cfg req = true -> group_type_ok b = true -> ticket_symbol_ok b = true ->
  copier_push cfg now req b st
  = (ok (OkId (nextId (copier st))),
     with_copier
       (saveCopier (mkCopier (nextId (copier st) + 1)
                      (events (copier st) ++ [event_of now (nextId (copier st)) b])%list))
       st).
Proof.
  intros Hm Hg Ht. unfold copier_push, group_type_ok, ticket_symbol_ok in *.
  rewrite Hm. simpl.
  destruct (str_empty (b_group b)); simpl in *; [done|].
  destruct (bool_decide (b_type b = "OPEN")),
           (bool_decide (b_type b = "CLOSE")); simpl in *; try done;
    destruct (num_truthy (b_master_ticket b)), (str_empty (b_symbol b));
    simpl in *; done.
Qed.

Lemma saveCopier_nextId (c : Copier) : nextId (saveCopier c) = nextId c.
Proof. unfold saveCopier. by destruct (_ <? _). Qed.

(** C10. A push by the master that passes the group/type check and then
    fails the check of master_ticket and symbol answers InvalidInput
    with [nextId] already incremented and the event list as it was.  So
    a valid push, a push rejected that way and another valid push get
    the ids [n] and [n + 2], and from the initial state the log ends up
    holding the ids 1 and 3. *)
Theorem push_rejected_after_increment :
  (forall cfg now req b st,
     masterOk cfg req = true ->
     b_group b <> "" -> (b_type b = "OPEN" \/ b_type b = "CLOSE") ->
     (num_truthy (b_master_ticket b) = false \/ b_symbol b = "") ->
     category_of (copier_push cfg now req b st).1 = Some InvalidInput /\
     nextId (copier (copier_push cfg now req b st).2) = nextId (copier st) + 1 /\
     events (copier (copier_push cfg now req b st).2) = events (copier st) /\
     clients (copier_push cfg now req b st).2 = clients st /\
     slaves (copier_push cfg now req b st).2 = slaves st) /\
  (forall cfg req st now1 now2 now3 b1 b2 b3,
     masterOk cfg req = true ->
     group_type_ok b1 = true -> ticket_symbol_ok b1 = true ->
     group_type_ok b2 = true -> ticket_symbol_ok b2 = false ->
     group_type_ok b3 = true -> ticket_symbol_ok b3 = true ->
     (run cfg [(now1, Push req b1); (now2, Push req b2); (now3, Push req b3)] st).1
     = [ok (OkId (nextId (copier st)));
        fail 400 "missing master_ticket/symbol";
        ok (OkId (nextId (copier st) + 2))]) /\
  (exists cfg rs,
     ev_id <$> events (copier (run cfg rs init_state).2) = [1; 3]).
Proof.
  split; [|split].
  - intros cfg now req b st Hm Hg Hty Hmiss.
    rewrite copier_push_missing; [done | done | |].
    + unfold group_type_ok. apply str_empty_false in Hg. rewrite Hg. simpl.
      destruct Hty as [-> | ->]; done.
    + unfold ticket_symbol_ok. destruct Hmiss as [-> | ->]; [done|].
      by rewrite andb_false_r.
  - intros cfg req st now1 now2 now3 b1 b2 b3 Hm Hg1 Ht1 Hg2 Ht2 Hg3 Ht3.
    simpl. rewrite copier_push_accepted by done. simpl.
    rewrite copier_push_missing by done. simpl.
    rewrite copier_push_accepted by done. simpl.
    rewrite saveCopier_nextId. simpl. do 3 f_equal. do 2 f_equal. lia.
  - exists (mkConfig "" "" "m").
    exists [(mkClock 1 1 1, Push (mkHeaders None None (Some "m"))
                  (mkPushBody "G1" "OPEN" (Int 101) (Int 0) "EURUSD" (Int 0)
                     (Int 0) (Int 0) (Int 0) (Int 0) (Int 0)));
            (mkClock 2 2 2, Push (mkHeaders None None (Some "m"))
                  (mkPushBody "G1" "OPEN" (Int 0) (Int 0) "EURUSD" (Int 0)
                     (Int 0) (Int 0) (Int 0) (Int 0) (Int 0)));
            (mkClock 3 3 3, Push (mkHeaders None None (Some "m"))
                  (mkPushBody "G2" "CLOSE" (Int 102) (Int 0) "XAUUSD" (Int 0)
                     (Int 0) (Int 0) (Int 0) (Int 0) (Int 0)))].
    reflexivity.
Qed.

Lemma push_rejected_after_increment_witness :
  nextId
    (copier
       (copier_push (mkConfig "" "" "m") 2 (mkHeaders None None (Some "m"))
          (mkPushBody "G1" "OPEN" (Int 0) (Int 0) "EURUSD" (Int 0)
             (Int 0) (Int 0) (Int 0) (Int 0) (Int 0))
          init_state).2)
  = 1 + 1.
Proof.
  destruct push_rejected_after_increment as [H _].
  assert (Hg : "G1" <> "") by discriminate.
  exact (proj1 (proj2 (H (mkConfig "" "" "m") 2 (mkHeaders None None (Some "m"))
                         (mkPushBody "G1" "OPEN" (Int 0) (Int 0) "EURUSD" (Int 0)
                            (Int 0) (Int 0) (Int 0) (Int 0) (Int 0))
                         init_state eq_refl Hg (or_introl eq_refl)
                         (or_introl eq_refl)))).
Defined.

(** ** Event log: retention *)

Lemma js_slice_drop {A : Type} (start : Z) (l : list A) :
  exists n, js_slice start l = drop n l.
Proof. unfold js_slice. eauto. Qed.

Lemma js_slice_last_length {A : Type} (k : Z) (l : list A) :
  0 < k ->
  Z.of_nat (length (js_slice (- k) l)) = Z.min (Z.of_nat (length l)) k.
Proof.
  intros Hk. unfold js_slice.
  destruct (Z.ltb_spec (- k) 0); [|lia].
  rewrite length_drop. lia.
Qed.

(** What [saveCopier] keeps is what is left of the list after a prefix
    is dropped, and it is the whole list or [MAX_EVENTS] elements. *)
Lemma saveCopier_events (c : Copier) :
  exists dropped,
    events c = (dropped ++ events (saveCopier c))%list /\
    Z.of_nat (length (events (saveCopier c)))
    = Z.min (Z.of_nat (length (events c))) MAX_EVENTS.
Proof.
  unfold saveCopier. destruct (Z.ltb_spec MAX_EVENTS (Z.of_nat (length (events c)))).
  - simpl. destruct (js_slice_drop (- MAX_EVENTS) (events c)) as [n Hn].
    exists (take n (events c)). split.
    + rewrite Hn. by rewrite take_drop.
    + by apply js_slice_last_length.
  - exists []. split; [done | lia].
Qed.

(** ** Event log: ids *)

Lemma log_ok_init : log_ok (copier init_state).
Proof. split; constructor. Qed.

Lemma log_ok_bump (c : Copier) :
  log_ok c -> log_ok (mkCopier (nextId c + 1) (events c)).
Proof.
  intros [Hs Hb]. split; [done|]. simpl.
  eapply Forall_impl; [exact Hb|]. simpl. intros. lia.
Qed.

Lemma log_ok_append (c : Copier) (ev : Event) :
  ev_id ev = nextId c -> log_ok c ->
  log_ok (mkCopier (nextId c + 1) (events c ++ [ev])%list).
Proof.
  intros Hid [Hs Hb]. split; simpl.
  - rewrite fmap_app. apply StronglySorted_app_2.
    + intros x1 x2 Hx1 Hx2. simpl in Hx2. apply list_elem_of_singleton in Hx2 as ->.
      apply list_elem_of_fmap in Hx1 as (e1 & -> & He1).
      rewrite Forall_forall in Hb. rewrite Hid. by apply Hb.
    + done.
    + repeat constructor.
  - apply Forall_app. split.
    + eapply Forall_impl; [exact Hb|]. simpl. intros. lia.
    + constructor; [lia | constructor].
Qed.

Lemma log_ok_save (c : Copier) : log_ok c -> log_ok (saveCopier c).
Proof.
  intros [Hs Hb]. destruct (saveCopier_events c) as (dropped & Hd & _).
  split.
  - rewrite Hd, fmap_app in Hs. by apply StronglySorted_app_1_r in Hs.
  - rewrite saveCopier_nextId. rewrite Hd in Hb. by apply Forall_app in Hb as [_ ?].
Qed.

(** ** Every handler and the event log *)

Lemma requireClient_inl_fail (now : Z) (cs : list Client) (req : headers)
    (g : string) (r : response) :
  requireClient now cs req g = inl r -> exists n msg, r = fail n msg.
Proof.
  unfold requireClient. intros Hreq.
  repeat match type of Hreq with
         | (if ?b then _ else _) = _ => destruct b
         | match ?o with Some _ => _ | None => _ end = _ => destruct o
         end; try discriminate; injection Hreq as <-; eauto.
Qed.

Ltac handler_cases :=
  repeat match goal with
  | |- context [match requireClient ?n ?cs ?rq ?g with _ => _ end] =>
      let H := fresh "Hreq" in
      destruct (requireClient n cs rq g) as [?|?] eqn:H;
      [apply requireClient_inl_fail in H as (? & ? & ->)|]
  | |- context [if ?b then _ else _] => destruct b eqn:?
  | |- context [match ?x with Some _ => _ | None => _ end] => destruct x eqn:?
  end; simpl.

(** Only push writes [copier], and only a push answers with an id. *)
Lemma handle_not_push (cfg : Config) (t : Clock) (r : request) (st : State) :
  is_push r = false ->
  copier (handle cfg t r st).2 = copier st /\
  pushed_id (handle cfg t r st).1 = None.
Proof.
  destruct r; simpl; [done|..]; intros _.
  - unfold copier_registerSlave. handler_cases; done.
  - unfold copier_events. handler_cases; done.
  - unfold copier_ack. handler_cases; done.
  - unfold admin_clients. handler_cases; done.
  - unfold admin_add. handler_cases; done.
  - unfold admin_disable. handler_cases; done.
  - unfold admin_extend. handler_cases; done.
  - unfold admin_resetBind. handler_cases; done.
  - unfold admin_delete. handler_cases; done.
Qed.

(** The three ways a push ends. *)
Lemma copier_push_cases (cfg : Config) (now : Z) (req : headers) (b : PushBody)
    (st : State) :
  (copier_push cfg now req b st).2 = st /\
    pushed_id (copier_push cfg now req b st).1 = None
  \/ copier_push cfg now req b st
     = (fail 400 "missing master_ticket/symbol",
        with_copier (mkCopier (nextId (copier st) + 1) (events (copier st))) st)
  \/ copier_push cfg now req b st
     = (ok (OkId (nextId (copier st))),
        with_copier
          (saveCopier (mkCopier (nextId (copier st) + 1)
             (events (copier st) ++ [event_of now (nextId (copier st)) b])%list))
          st).
Proof.
  destruct (masterOk cfg req) eqn:Hm.
  2:{ left. by rewrite copier_push_unauthorized. }
  destruct (group_type_ok b) eqn:Hg.
  2:{ left. by rewrite copier_push_bad_group_type. }
  destruct (ticket_symbol_ok b) eqn:Ht.
  - right. right. by apply copier_push_accepted.
  - right. left. by apply copier_push_missing.
Qed.

Lemma handle_log_ok (cfg : Config) (t : Clock) (r : request) (st : State) :
  log_ok (copier st) -> log_ok (copier (handle cfg t r st).2).
Proof.
  intros Hok. destruct (is_push r) eqn:Hp.
  - destruct r; try done. simpl.
    destruct (copier_push_cases cfg (now0 t) req b st) as [[-> _]|[->| ->]]; simpl.
    + done.
    + by apply log_ok_bump.
    + by apply log_ok_save, log_ok_append.
  - by destruct (handle_not_push cfg t r st Hp) as [-> _].
Qed.

Lemma handle_nextId (cfg : Config) (t : Clock) (r : request) (st : State) :
  nextId (copier st) <= nextId (copier (handle cfg t r st).2) /\
  forall i, pushed_id (handle cfg t r st).1 = Some i ->
    i = nextId (copier st) /\
    nextId (copier (handle cfg t r st).2) = i + 1.
Proof.
  destruct (is_push r) eqn:Hp.
  - destruct r; try done. simpl.
    destruct (copier_push_cases cfg (now0 t) req b st) as [[-> ->]|[->| ->]]; simpl.
    + split; [lia | done].
    + split; [lia | done].
    + rewrite saveCopier_nextId. simpl. split; [lia|].
      unfold pushed_id. simpl. by intros i [= <-].
  - destruct (handle_not_push cfg t r st Hp) as [-> ->]. split; [lia | done].
Qed.

Lemma reachable_log_ok (cfg : Config) (st : State) :
  reachable cfg st -> log_ok (copier st).
Proof.
  induction 1; [apply log_ok_init | by apply handle_log_ok].
Qed.

Lemma run_cons (cfg : Config) (t : Clock) (r : request) (rs : list (Clock * request))
    (st : State) :
  run cfg ((t, r) :: rs) st
  = ((handle cfg t r st).1 :: (run cfg rs (handle cfg t r st).2).1,
     (run cfg rs (handle cfg t r st).2).2).
Proof.
  simpl. destruct (handle cfg t r st) as [resp st1]. simpl.
  by destruct (run cfg rs st1).
Qed.

Lemma StronglySorted_lt_NoDup (l : list Z) : StronglySorted Z.lt l -> NoDup l.
Proof.
  induction 1 as [|x l Hs IH Hx]; constructor; [|done].
  intros Hin. rewrite Forall_forall in Hx. specialize (Hx x Hin). lia.
Qed.

(** The event a successful push answers for is the last of the log. *)
Lemma saveCopier_last (c : Copier) (l : list Event) (ev : Event) :
  events c = (l ++ [ev])%list -> last (events (saveCopier c)) = Some ev.
Proof.
  intros Hc. destruct (saveCopier_events c) as (dropped & Hd & Hlen).
  rewrite Hc in Hd. rewrite Hc, length_app in Hlen. simpl in Hlen.
  destruct (events (saveCopier c)) as [|x kept _] using rev_ind.
  - simpl in Hlen. unfold MAX_EVENTS in Hlen. lia.
  - rewrite app_assoc in Hd. apply app_inj_tail in Hd as [_ ->].
    by rewrite last_snoc.
Qed.

(** A response carries an id exactly when the request is a push that
    passes the three checks. *)
Lemma pushed_id_valid (cfg : Config) (t : Clock) (r : request) (st : State) :
  is_Some (pushed_id (handle cfg t r st).1) <-> valid_push cfg r = true.
Proof.
  destruct (is_push r) eqn:Hp.
  2:{ destruct (handle_not_push cfg t r st Hp) as [_ ->].
      split; [by intros [? ?] | by destruct r]. }
  destruct r as [req b| | | | | | | | |]; try done. simpl.
  destruct (masterOk cfg req) eqn:Hm; simpl.
  2:{ rewrite copier_push_unauthorized by done. split; [by intros [? ?] | done]. }
  destruct (group_type_ok b) eqn:Hg; simpl.
  2:{ rewrite copier_push_bad_group_type by done. split; [by intros [? ?] | done]. }
  destruct (ticket_symbol_ok b) eqn:Ht; simpl.
  - rewrite copier_push_accepted by done. split; [done | by eexists].
  - rewrite copier_push_missing by done. split; [by intros [? ?] | done].
Qed.

Lemma valid_push_accepted (cfg : Config) (now : Z) (req : headers) (b : PushBody)
    (st : State) :
  valid_push cfg (Push req b) = true ->
  copier_push cfg now req b st
  = (ok (OkId (nextId (copier st))),
     with_copier
       (saveCopier (mkCopier (nextId (copier st) + 1)
                      (events (copier st) ++ [event_of now (nextId (copier st)) b])%list))
       st).
Proof.
  simpl. intros [[Hm Hg]%andb_true_iff Ht]%andb_true_iff.
  by apply copier_push_accepted.
Qed.

(** One request moves the counter by one at most. *)
Lemma handle_nextId_le (cfg : Config) (t : Clock) (r : request) (st : State) :
  nextId (copier (handle cfg t r st).2) <= nextId (copier st) + 1.
Proof.
  destruct (is_push r) eqn:Hp.
  - destruct r; try done. simpl.
    destruct (copier_push_cases cfg (now0 t) req b st) as [[-> _]|[->| ->]]; simpl.
    + lia.
    + lia.
    + rewrite saveCopier_nextId. simpl. lia.
  - destruct (handle_not_push cfg t r st Hp) as [-> _]. lia.
Qed.

(** A run of pushes that all pass the checks is answered the
    consecutive values of the counter. *)
Lemma run_valid_pushes (cfg : Config) (rs : list (Clock * request)) :
  forall st,
  Forall (fun tr => valid_push cfg tr.2 = true) rs ->
  (run cfg rs st).1
  = (fun i => ok (OkId i)) <$> seqZ (nextId (copier st)) (Z.of_nat (length rs)) /\
  nextId (copier (run cfg rs st).2) = nextId (copier st) + Z.of_nat (length rs).
Proof.
  induction rs as [|[t r] rs IH]; intros st Hall.
  - simpl. split; [done | lia].
  - apply Forall_cons in Hall as [Hv Hall]. simpl in Hv.
    destruct r as [req b| | | | | | | | |]; try done.
    rewrite run_cons. cbn [fst snd handle].
    rewrite (valid_push_accepted _ _ _ _ _ Hv). cbn [fst snd].
    destruct (IH (with_copier
                    (saveCopier (mkCopier (nextId (copier st) + 1)
                       (events (copier st)
                        ++ [event_of (now0 t) (nextId (copier st)) b])%list)) st) Hall)
      as [Hresp Hnext].
    rewrite Hresp, Hnext. cbn [copier with_copier].
    rewrite saveCopier_nextId. cbn [nextId length].
    split; [|lia].
    rewrite (seqZ_cons (nextId (copier st))) by lia. rewrite fmap_cons.
    do 3 f_equal; lia.
Qed.

(** C5. Pushes take their ids from the one counter [nextId], whatever
    their groups.  A push that passes the checks is answered the value
    of the counter, increments it, and its event, carrying that id,
    becomes the last of the log; so a run of valid pushes is answered
    the consecutive ids [nextId], [nextId + 1], ...  Along any sequence
    of requests served from a state whose log is in order, exactly the
    valid pushes are answered an id, and these ids are strictly
    increasing in push order and pairwise distinct; the log stays
    ordered by id in its list order, which is the order of insertion,
    with distinct ids below the counter.  The counter is taken in the
    range in which the increment of a JavaScript number is exact. *)
Theorem push_ids_increasing (cfg : Config) (rs : list (Clock * request)) (st : State) :
  log_ok (copier st) ->
  counter_safe (copier st) (Z.of_nat (length rs)) ->
  (forall now req b,
     valid_push cfg (Push req b) = true -> nextId (copier st) < 2 ^ 53 ->
     (copier_push cfg now req b st).1 = ok (OkId (nextId (copier st))) /\
     nextId (copier (copier_push cfg now req b st).2) = nextId (copier st) + 1 /\
     last (events (copier (copier_push cfg now req b st).2))
     = Some (event_of now (nextId (copier st)) b)) /\
  (Forall (fun tr => valid_push cfg tr.2 = true) rs ->
     (run cfg rs st).1
     = (fun i => ok (OkId i)) <$> seqZ (nextId (copier st)) (Z.of_nat (length rs)) /\
     nextId (copier (run cfg rs st).2) = nextId (copier st) + Z.of_nat (length rs)) /\
  length (pushed_ids (run cfg rs st).1)
  = length (filter (fun tr => valid_push cfg tr.2 = true) rs) /\
  StronglySorted Z.lt (pushed_ids (run cfg rs st).1) /\
  NoDup (pushed_ids (run cfg rs st).1) /\
  Forall (fun i => nextId (copier st) <= i < nextId (copier (run cfg rs st).2))
         (pushed_ids (run cfg rs st).1) /\
  nextId (copier (run cfg rs st).2) <= 2 ^ 53 /\
  (forall now req b i,
     pushed_id (copier_push cfg now req b st).1 = Some i ->
     nextId (copier st) < 2 ^ 53 ->
     i = nextId (copier st) /\
     nextId (copier (copier_push cfg now req b st).2) = i + 1 /\
     last (events (copier (copier_push cfg now req b st).2))
     = Some (event_of now i b)) /\
  StronglySorted Z.lt (ev_id <$> events (copier (run cfg rs st).2)) /\
  NoDup (ev_id <$> events (copier (run cfg rs st).2)) /\
  Forall (fun ev => ev_id ev < nextId (copier (run cfg rs st).2))
         (events (copier (run cfg rs st).2)).
Proof.
  intros Hok [Hlo Hhi].
  assert (Hrun : StronglySorted Z.lt (pushed_ids (run cfg rs st).1) /\
                 Forall (fun i => nextId (copier st) <= i
                                  < nextId (copier (run cfg rs st).2))
                        (pushed_ids (run cfg rs st).1) /\
                 nextId (copier st) <= nextId (copier (run cfg rs st).2)
                 <= nextId (copier st) + Z.of_nat (length rs) /\
                 length (pushed_ids (run cfg rs st).1)
                 = length (filter (fun tr => valid_push cfg tr.2 = true) rs) /\
                 log_ok (copier (run cfg rs st).2)).
  { clear -Hok. revert st Hok. induction rs as [|[t r] rs IH]; intros st Hok.
    - simpl. repeat split; try constructor; try lia; apply Hok.
    - rewrite run_cons. cbn [fst snd].
      pose proof (handle_log_ok cfg t r st Hok) as Hok1.
      destruct (handle_nextId cfg t r st) as [Hle Hid].
      pose proof (handle_nextId_le cfg t r st) as Hup.
      pose proof (pushed_id_valid cfg t r st) as Hval.
      destruct (IH _ Hok1) as (Hs & Hb & Hn & Hlen & Hl).
      unfold pushed_ids in *. cbn [omap list_omap length].
      destruct (pushed_id (handle cfg t r st).1) as [i|] eqn:Hp.
      + destruct (Hid i eq_refl) as [-> Hn1].
        rewrite filter_cons_True by (apply Hval; by eexists).
        split; [|split; [|split; [|split]]]; [| |lia|simpl; by rewrite Hlen|done].
        * constructor; [done|].
          eapply Forall_impl; [exact Hb|]. simpl. intros. lia.
        * constructor; [lia|].
          eapply Forall_impl; [exact Hb|]. simpl. intros. lia.
      + rewrite filter_cons_False.
        2:{ intros Hv. apply Hval in Hv as [? ?]. discriminate. }
        split; [|split; [|split; [|split]]]; [done| |lia|done|done].
        eapply Forall_impl; [exact Hb|]. simpl. intros. lia. }
  destruct Hrun as (Hs & Hb & Hn & Hlen & Hl1 & Hl2).
  split.
  { intros now req b Hv _. rewrite (valid_push_accepted _ _ _ _ _ Hv). simpl.
    split; [done|]. split; [by rewrite saveCopier_nextId|].
    by eapply saveCopier_last. }
  split; [by apply run_valid_pushes|].
  split; [done|]. split; [done|]. split; [by apply StronglySorted_lt_NoDup|].
  split; [done|]. split; [lia|].
  split; [|by split; [|split; [apply StronglySorted_lt_NoDup|]]].
  intros now req b i Hp _.
  destruct (handle_nextId cfg (mkClock now now now) (Push req b) st) as [_ Hid].
  destruct (Hid i Hp) as [Hi Hn']. split; [done|]. split; [done|].
  simpl in *. destruct (copier_push_cases cfg now req b st) as [[_ Hnone]|[Hm|Ha]].
  - congruence.
  - rewrite Hm in Hp. discriminate.
  - rewrite Ha. simpl. subst i. by eapply saveCopier_last.
Qed.

Lemma push_ids_increasing_witness :
  (run (mkConfig "" "" "m")
     [(mkClock 1 1 1, Push (mkHeaders None None (Some "m"))
            (mkPushBody "G1" "OPEN" (Int 101) (Int 0) "EURUSD" (Int 0)
               (Int 0) (Int 0) (Int 0) (Int 0) (Int 0)));
      (mkClock 2 2 2, Push (mkHeaders None None (Some "m"))
            (mkPushBody "G2" "CLOSE" (Int 102) (Int 0) "XAUUSD" (Int 0)
               (Int 0) (Int 0) (Int 0) (Int 0) (Int 0)))]
     init_state).1
  = [ok (OkId 1); ok (OkId 2)].
Proof.
  match goal with |- (run _ ?l _).1 = _ => set (rs := l) end.
  assert (Hok : log_ok (copier init_state)) by (split; constructor).
  assert (Hsafe : counter_safe (copier init_state) (Z.of_nat (length rs)))
    by (split; vm_compute; discriminate).
  assert (Hall : Forall (fun tr => valid_push (mkConfig "" "" "m") tr.2 = true) rs)
    by (repeat constructor).
  exact (proj1 (proj1 (proj2 (push_ids_increasing (mkConfig "" "" "m") rs init_state
                                Hok Hsafe)) Hall)).
Defined.

(** [saveCopier] keeps the last [MAX_EVENTS] events. *)
Lemma saveCopier_drop (c : Copier) :
  events (saveCopier c)
  = drop (Z.to_nat (Z.of_nat (length (events c)) - MAX_EVENTS)) (events c).
Proof.
  unfold saveCopier, js_slice, MAX_EVENTS.
  destruct (Z.ltb_spec 50000 (Z.of_nat (length (events c)))); simpl.
  - f_equal. lia.
  - replace (Z.to_nat (Z.of_nat (length (events c)) - 50000)) with 0%nat by lia.
    done.
Qed.

Lemma full_log_length : Z.of_nat (length full_log) = 50000.
Proof. vm_compute. reflexivity. Qed.

(** C7. A push that passes the checks is answered its id and leaves as
    log the last 50,000 events of the old log with the new event
    appended: the log holds at most 50,000 events, the new event is its
    last, and what is gone is a prefix of the old log, the oldest
    events, which on an ordered log have smaller ids than every event
    kept.  Exactly the pushes that pass the checks are answered an id,
    and any other request leaves the list of events as it was: no event
    is removed other than by that trimming, and none is changed. *)
Theorem log_retention (cfg : Config) (t : Clock) (r : request) (st : State) :
  (is_Some (pushed_id (handle cfg t r st).1) <-> valid_push cfg r = true) /\
  (forall req b,
     r = Push req b -> valid_push cfg r = true ->
     (handle cfg t r st).1 = ok (OkId (nextId (copier st))) /\
     events (copier (handle cfg t r st).2)
     = drop (Z.to_nat (Z.of_nat (length (events (copier st))) + 1 - 50000))
         (events (copier st) ++ [event_of (now0 t) (nextId (copier st)) b])%list /\
     last (events (copier (handle cfg t r st).2))
     = Some (event_of (now0 t) (nextId (copier st)) b)) /\
  (forall i, pushed_id (handle cfg t r st).1 = Some i ->
     Z.of_nat (length (events (copier (handle cfg t r st).2))) <= 50000 /\
     exists ev dropped,
       ev_id ev = i /\
       (events (copier st) ++ [ev])%list
       = (dropped ++ events (copier (handle cfg t r st).2))%list /\
       Z.of_nat (length (events (copier (handle cfg t r st).2)))
       = Z.min (Z.of_nat (length (events (copier st))) + 1) 50000 /\
       (log_ok (copier st) ->
        forall d k, d ∈ dropped -> k ∈ events (copier (handle cfg t r st).2) ->
                    ev_id d < ev_id k)) /\
  (pushed_id (handle cfg t r st).1 = None ->
     events (copier (handle cfg t r st).2) = events (copier st)).
Proof.
  split; [apply pushed_id_valid|]. split.
  { intros req b -> Hv. cbn [handle].
    rewrite (valid_push_accepted _ _ _ _ _ Hv). cbn [fst snd copier with_copier].
    split; [done|]. split; [|by eapply saveCopier_last].
    rewrite saveCopier_drop. cbn [events]. rewrite length_app. cbn [length].
    unfold MAX_EVENTS. f_equal. lia. }
  destruct (is_push r) eqn:Hp.
  2:{ destruct (handle_not_push cfg t r st Hp) as [Hc Hn]. split.
      - intros i Hi. congruence.
      - intros _. by rewrite Hc. }
  destruct r; try done. simpl.
  destruct (copier_push_cases cfg (now0 t) req b st) as [[Hst Hn]|[Hm|Ha]].
  - split; [intros i Hi; congruence | intros _; by rewrite Hst].
  - rewrite Hm. simpl. split; [intros i [=] | done].
  - rewrite Ha. simpl. split; [|intros [=]].
    intros i [= <-].
    set (ev := event_of (now0 t) (nextId (copier st)) b).
    set (c1 := mkCopier (nextId (copier st) + 1) (events (copier st) ++ [ev])%list).
    destruct (saveCopier_events c1) as (dropped & Hd & Hlen).
    simpl in Hd. rewrite Hlen. simpl. rewrite length_app. simpl.
    unfold MAX_EVENTS. split; [lia|].
    exists ev, dropped. split; [done|]. split; [done|]. split; [lia|].
    intros Hok d k Hin_d Hin_k.
    assert (Hok1 : log_ok c1) by by apply log_ok_append.
    destruct Hok1 as [Hs _]. simpl in Hs. rewrite Hd, fmap_app in Hs.
    eapply StronglySorted_app_1_elem_of; [exact Hs | |]; by apply list_elem_of_fmap_2.
Qed.

Lemma log_retention_witness :
  events
    (copier
       (handle (mkConfig "" "" "m") (mkClock 7 7 7)
          (Push (mkHeaders None None (Some "m"))
             (mkPushBody "G2" "CLOSE" (Int 102) (Int 0) "XAUUSD" (Int 0)
                (Int 0) (Int 0) (Int 0) (Int 0) (Int 0)))
          (mkState [] (mkCopier 50001 full_log) ∅)).2)
  = drop 1
      (full_log
       ++ [event_of 7 50001
             (mkPushBody "G2" "CLOSE" (Int 102) (Int 0) "XAUUSD" (Int 0)
                (Int 0) (Int 0) (Int 0) (Int 0) (Int 0))])%list.
Proof.
  pose proof (proj1 (proj2 (proj1 (proj2
                 (log_retention (mkConfig "" "" "m") (mkClock 7 7 7)
                    (Push (mkHeaders None None (Some "m"))
                       (mkPushBody "G2" "CLOSE" (Int 102) (Int 0) "XAUUSD" (Int 0)
                          (Int 0) (Int 0) (Int 0) (Int 0) (Int 0)))
                    (mkState [] (mkCopier 50001 full_log) ∅)))
                 _ _ eq_refl eq_refl))) as H.
  cbn [copier events nextId now0] in H. rewrite full_log_length in H. exact H.
Defined.

(** One more push on the full log: the event with id 1 goes, the ids 2
    to 50,001 stay. *)
Example push_on_full_log :
  let st1 := (copier_push (mkConfig "" "" "m") 7 (mkHeaders None None (Some "m"))
                (mkPushBody "G2" "CLOSE" (Int 102) (Int 0) "XAUUSD" (Int 0)
                   (Int 0) (Int 0) (Int 0) (Int 0) (Int 0))
                (mkState [] (mkCopier 50001 full_log) ∅)).2 in
  Z.of_nat (length (events (copier st1))) = 50000 /\
  head (ev_id <$> events (copier st1)) = Some 2 /\
  last (ev_id <$> events (copier st1)) = Some 50001.
Proof. vm_compute. repeat split. Qed.

(** ** Binding of a client to one slave identity *)

Lemma bound_frame_same (now : Z) (r : request) (resp : response) (cs : list Client) :
  bound_frame now r resp cs cs.
Proof. split; [done|]. intros i c c' H1 H2. left. congruence. Qed.

Lemma bound_frame_keep (now : Z) (r : request) (resp : response) (cs : list Client)
    (p : Client -> bool) (f : Client -> Client) :
  (forall c, boundSlaveId (f c) = boundSlaveId c) ->
  bound_frame now r resp cs (update_first p f cs).
Proof.
  intros Hf. split; [apply update_first_length|].
  intros i c c' H1 H2. left.
  destruct (update_first_lookup p f cs i c c' H1 H2) as [->|[_ ->]]; auto.
Qed.

Lemma requireClient_apiKey (now : Z) (cs : list Client) (req : headers)
    (g : string) (c : Client) :
  requireClient now cs req g = inr c ->
  findClientByApiKey cs (apiKey c) = Some c.
Proof.
  intros (_ & Hf & _)%requireClient_inr.
  pose proof Hf as [_ Hp]%js_find_Some.
  apply bool_decide_eq_true in Hp. by rewrite Hp.
Qed.

Lemma requireClient_key (now : Z) (cs : list Client) (req : headers)
    (g : string) (c : Client) :
  requireClient now cs req g = inr c ->
  apiKey c = trim (header_or_empty (x_api_key req)).
Proof.
  intros (_ & Hf & _)%requireClient_inr.
  apply js_find_Some in Hf as [_ Hp]. by apply bool_decide_eq_true in Hp.
Qed.

Lemma bound_frame_bind (r : request) (resp : response) (now : Z)
    (cs : list Client) (req : headers) (g s : string) (c : Client) :
  requireClient now cs req g = inr c -> boundSlaveId c = "" ->
  status resp = 200 -> bind_request r = Some (req, g, s) ->
  bound_frame now r resp cs
    (update_first (has_apiKey (apiKey c)) (set_boundSlaveId s) cs).
Proof.
  intros Hreq Hb H200 Hr.
  pose proof (requireClient_apiKey _ _ _ _ _ Hreq) as Hfind.
  pose proof (requireClient_key _ _ _ _ _ Hreq) as Hkey.
  split; [apply update_first_length|].
  intros i c0 c' H1 H2.
  destruct (update_first_lookup _ _ cs i c0 c' H1 H2) as [->|[Hf ->]]; [by left|].
  destruct (update_first_lookup_first _ _ cs i c0 _ H1 H2) as [Heq|[Hfirst _]].
  { left. by rewrite Heq. }
  right. left. unfold findClientByApiKey in Hfind.
  rewrite Hfind in Hf. injection Hf as <-.
  exists req, g, s. rewrite <- Hkey.
  split; [done|]. split; [done|]. split; [done|]. split; [exact Hfirst|]. by split.
Qed.

Lemma copier_registerSlave_bind (now seen : Z) (req : headers) (g s : string)
    (st : State) (c : Client) :
  g <> "" -> s <> "" -> requireClient now (clients st) req g = inr c ->
  copier_registerSlave now seen req g s st
  = if str_empty (boundSlaveId c)
    then (ok (OkBound s),
          mkState (update_first (has_apiKey (apiKey c)) (set_boundSlaveId s)
                     (clients st))
                  (copier st) (touch_slave seen (slaveKey g s) (slaves st)))
    else if bool_decide (boundSlaveId c = s)
    then (ok (OkBound (boundSlaveId c)),
          with_slaves (touch_slave seen (slaveKey g s) (slaves st)) st)
    else (fail 403 "this api key is already bound to another slaveId", st).
Proof.
  intros Hg Hs Hreq. apply str_empty_false in Hg, Hs.
  unfold copier_registerSlave. rewrite Hg, Hs, Hreq. simpl.
  destruct (str_empty (boundSlaveId c)); [done|].
  by destruct (bool_decide (boundSlaveId c = s)).
Qed.

Lemma copier_events_bind (now seen sent : Z) (req : headers) (g s : string)
    (since limit_raw : number) (st : State) (c : Client) :
  g <> "" -> s <> "" -> requireClient now (clients st) req g = inr c ->
  copier_events now seen sent req g s since limit_raw st
  = if str_empty (boundSlaveId c)
    then (ok (OkEvents sent
                (scan_events g since (clamp_limit limit_raw) (events (copier st)) [])),
          mkState (update_first (has_apiKey (apiKey c)) (set_boundSlaveId s)
                     (clients st))
                  (copier st) (touch_slave seen (slaveKey g s) (slaves st)))
    else if bool_decide (boundSlaveId c = s)
    then (ok (OkEvents sent
                (scan_events g since (clamp_limit limit_raw) (events (copier st)) [])),
          with_slaves (touch_slave seen (slaveKey g s) (slaves st)) st)
    else (fail 403 "boundSlaveId mismatch (1 account per client)", st).
Proof.
  intros Hg Hs Hreq. apply str_empty_false in Hg, Hs.
  unfold copier_events. rewrite Hg, Hs, Hreq. simpl.
  destruct (str_empty (boundSlaveId c)); [done|].
  by destruct (bool_decide (boundSlaveId c = s)).
Qed.

Lemma handle_bound_frame (cfg : Config) (t : Clock) (r : request) (st : State) :
  match r with
  | AdminDelete _ _ =>
    forall c', c' ∈ clients (handle cfg t r st).2 -> c' ∈ clients st
  | AdminAdd _ _ _ _ _ _ =>
    clients (handle cfg t r st).2 = clients st \/
    exists c, clients (handle cfg t r st).2 = (clients st ++ [c])%list /\
              boundSlaveId c = ""
  | _ =>
    bound_frame (now0 t) r (handle cfg t r st).1 (clients st)
      (clients (handle cfg t r st).2)
  end.
Proof.
  destruct r as [req b|req g s|req g s since lim|req g s e a|req
                |req f g d i k|req i en|req i d|req i|req i]; simpl.
  - destruct (copier_push_cases cfg (now0 t) req b st) as [[-> _]|[->| ->]];
      apply bound_frame_same.
  - destruct (decide (g = "")) as [->|Hg]; [apply bound_frame_same|].
    destruct (decide (s = "")) as [->|Hs].
    { unfold copier_registerSlave. rewrite orb_true_r. apply bound_frame_same. }
    destruct (requireClient (now0 t) (clients st) req g) as [r|c] eqn:Hreq.
    { unfold copier_registerSlave. apply str_empty_false in Hg, Hs.
      rewrite Hg, Hs, Hreq. apply bound_frame_same. }
    rewrite (copier_registerSlave_bind _ _ _ _ _ _ c) by done.
    destruct (str_empty (boundSlaveId c)) eqn:Hb.
    + apply str_empty_true in Hb. simpl. by eapply bound_frame_bind.
    + destruct (bool_decide (boundSlaveId c = s)); apply bound_frame_same.
  - destruct (decide (g = "")) as [->|Hg]; [apply bound_frame_same|].
    destruct (decide (s = "")) as [->|Hs].
    { unfold copier_events. rewrite orb_true_r. apply bound_frame_same. }
    destruct (requireClient (now0 t) (clients st) req g) as [r|c] eqn:Hreq.
    { unfold copier_events. apply str_empty_false in Hg, Hs.
      rewrite Hg, Hs, Hreq. apply bound_frame_same. }
    rewrite (copier_events_bind _ _ _ _ _ _ _ _ _ c) by done.
    destruct (str_empty (boundSlaveId c)) eqn:Hb.
    + apply str_empty_true in Hb. simpl. by eapply bound_frame_bind.
    + destruct (bool_decide (boundSlaveId c = s)); apply bound_frame_same.
  - destruct (copier_ack_frame (now0 t) (now1 t) req g s e a st) as [-> _].
    apply bound_frame_same.
  - unfold admin_clients. destruct (negb _); apply bound_frame_same.
  - unfold admin_add. destruct (negb _); [by left|].
    destruct (_ || _); [by left|]. right. simpl. eauto.
  - unfold admin_disable. destruct (negb _); [apply bound_frame_same|].
    destruct (findClientById _ _); [|apply bound_frame_same].
    simpl. by apply bound_frame_keep.
  - unfold admin_extend. destruct (negb _); [apply bound_frame_same|].
    destruct (findClientById _ _); [|apply bound_frame_same].
    simpl. by apply bound_frame_keep.
  - unfold admin_resetBind. destruct (negb _); [apply bound_frame_same|].
    destruct (findClientById _ _) as [c|] eqn:Hf; [|apply bound_frame_same].
    simpl. split; [apply update_first_length|].
    intros j c0 c' H1 H2.
    destruct (update_first_lookup_first _ _ _ j c0 c' H1 H2) as [->|[Hfirst ->]];
      [by left|].
    right. right. by exists req, i.
  - unfold admin_delete. destruct (negb _); simpl; [done|].
    intros c' Hc'. by apply list_elem_of_filter in Hc' as [_ ?].
Qed.

(** C1. A client carries one [boundSlaveId].  On registerSlave and on
    events, for the client [requireClient] returns for the key of the
    request: an empty [boundSlaveId] is set to the supplied slaveId and
    the call succeeds; a non-empty one that differs makes the call
    Forbidden and leaves the state as it was; an equal one is kept.  No
    request changes the [boundSlaveId] of a client otherwise, save
    resetBind, which clears it: under every request each place of the
    clients array keeps its [boundSlaveId], unless the request is a
    successful registerSlave or events and the place holds the unbound
    client of the request's own key, which ends bound to the request's
    slaveId, or the request is a successful resetBind and the place
    holds the first client with its clientId; add only appends an
    unbound client, and delete only removes clients. *)
Theorem single_binding (cfg : Config) (st : State) :
  (forall now seen sent req g s since lim c,
     g <> "" -> s <> "" -> requireClient now (clients st) req g = inr c ->
     let bound := mkClient (clientId c) (fullName c) (groupId c) (apiKey c)
                    (enabled c) (createdAt c) (expiresAt c) s in
     (boundSlaveId c = "" ->
        status (copier_registerSlave now seen req g s st).1 = 200 /\
        findClientByApiKey (clients (copier_registerSlave now seen req g s st).2) (apiKey c)
        = Some bound /\
        status (copier_events now seen sent req g s since lim st).1 = 200 /\
        findClientByApiKey (clients (copier_events now seen sent req g s since lim st).2)
          (apiKey c)
        = Some bound) /\
     (boundSlaveId c <> "" -> boundSlaveId c <> s ->
        category_of (copier_registerSlave now seen req g s st).1 = Some Forbidden /\
        (copier_registerSlave now seen req g s st).2 = st /\
        category_of (copier_events now seen sent req g s since lim st).1 = Some Forbidden /\
        (copier_events now seen sent req g s since lim st).2 = st) /\
     (boundSlaveId c = s ->
        status (copier_registerSlave now seen req g s st).1 = 200 /\
        clients (copier_registerSlave now seen req g s st).2 = clients st /\
        status (copier_events now seen sent req g s since lim st).1 = 200 /\
        clients (copier_events now seen sent req g s since lim st).2 = clients st)) /\
  (forall t r,
     match r with
     | AdminDelete _ _ =>
       forall c', c' ∈ clients (handle cfg t r st).2 -> c' ∈ clients st
     | AdminAdd _ _ _ _ _ _ =>
       clients (handle cfg t r st).2 = clients st \/
       exists c, clients (handle cfg t r st).2 = (clients st ++ [c])%list /\
                 boundSlaveId c = ""
     | _ =>
       bound_frame (now0 t) r (handle cfg t r st).1 (clients st)
         (clients (handle cfg t r st).2)
     end).
Proof.
  split; [|intros t r; apply handle_bound_frame].
  intros now seen sent req g s since lim c Hg Hs Hreq.
  rewrite (copier_registerSlave_bind _ _ _ _ _ _ c) by done.
  rewrite (copier_events_bind _ _ _ _ _ _ _ _ _ c) by done.
  pose proof (requireClient_apiKey _ _ _ _ _ Hreq) as Hf.
  split; [|split].
  - intros Hb. rewrite Hb. simpl. unfold findClientByApiKey in *.
    rewrite js_find_update_first by done. by rewrite Hf.
  - intros Hb Hne. apply str_empty_false in Hb. rewrite Hb.
    by rewrite bool_decide_eq_false_2.
  - intros Hb. apply str_empty_false in Hs.
    rewrite Hb, Hs. by rewrite bool_decide_eq_true_2.
Qed.

Lemma single_binding_witness :
  findClientByApiKey
    (clients
       (copier_registerSlave 10 10 (mkHeaders (Some "K1") None None) "G1" "S1"
          (mkState [mkClient "c1" "Bob" "G1" "K1" true 0 1000 ""]
             (mkCopier 1 []) ∅)).2) "K1"
  = Some (mkClient "c1" "Bob" "G1" "K1" true 0 1000 "S1") /\
  category_of
    (copier_registerSlave 10 10 (mkHeaders (Some "K1") None None) "G1" "S2"
       (mkState [mkClient "c1" "Bob" "G1" "K1" true 0 1000 "S1"]
          (mkCopier 1 []) ∅)).1
  = Some Forbidden /\
  bound_frame 10
    (RegisterSlave (mkHeaders (Some "K1") None None) "G1" "S1")
    (handle (mkConfig "" "" "") (mkClock 10 10 10)
       (RegisterSlave (mkHeaders (Some "K1") None None) "G1" "S1")
       (mkState [mkClient "c2" "Ann" "G2" "K2" true 0 1000 "";
                 mkClient "c1" "Bob" "G1" "K1" true 0 1000 ""]
          (mkCopier 1 []) ∅)).1
    [mkClient "c2" "Ann" "G2" "K2" true 0 1000 "";
     mkClient "c1" "Bob" "G1" "K1" true 0 1000 ""]
    (clients
       (handle (mkConfig "" "" "") (mkClock 10 10 10)
          (RegisterSlave (mkHeaders (Some "K1") None None) "G1" "S1")
          (mkState [mkClient "c2" "Ann" "G2" "K2" true 0 1000 "";
                    mkClient "c1" "Bob" "G1" "K1" true 0 1000 ""]
             (mkCopier 1 []) ∅)).2).
Proof.
  assert (Hg : "G1" <> "") by discriminate.
  assert (Hs1 : "S1" <> "") by discriminate.
  assert (Hs2 : "S2" <> "") by discriminate.
  assert (Hne : "S1" <> "S2") by discriminate.
  split; [|split].
  - destruct (single_binding (mkConfig "" "" "")
                (mkState [mkClient "c1" "Bob" "G1" "K1" true 0 1000 ""]
                   (mkCopier 1 []) ∅)) as [H _].
    destruct (H 10 10 10 (mkHeaders (Some "K1") None None) "G1" "S1" NaN NaN
                (mkClient "c1" "Bob" "G1" "K1" true 0 1000 "") Hg Hs1 eq_refl)
      as (Hbind & _ & _).
    exact (proj1 (proj2 (Hbind eq_refl))).
  - destruct (single_binding (mkConfig "" "" "")
                (mkState [mkClient "c1" "Bob" "G1" "K1" true 0 1000 "S1"]
                   (mkCopier 1 []) ∅)) as [H _].
    destruct (H 10 10 10 (mkHeaders (Some "K1") None None) "G1" "S2" NaN NaN
                (mkClient "c1" "Bob" "G1" "K1" true 0 1000 "S1") Hg Hs2 eq_refl)
      as (_ & Hforb & _).
    exact (proj1 (Hforb Hs1 Hne)).
  - exact (proj2 (single_binding (mkConfig "" "" "")
                    (mkState [mkClient "c2" "Ann" "G2" "K2" true 0 1000 "";
                              mkClient "c1" "Bob" "G1" "K1" true 0 1000 ""]
                       (mkCopier 1 []) ∅))
             (mkClock 10 10 10)
             (RegisterSlave (mkHeaders (Some "K1") None None) "G1" "S1")).
Defined.

(** The frame tells the clients apart: a registerSlave with the key of
    one client does not account for the binding of another. *)
Example bound_frame_other_client :
  ~ bound_frame 10
      (RegisterSlave (mkHeaders (Some "K1") None None) "G1" "S1")
      (ok (OkBound "S1"))
      [mkClient "c2" "Ann" "G2" "K2" true 0 1000 "";
       mkClient "c1" "Bob" "G1" "K1" true 0 1000 ""]
      [mkClient "c2" "Ann" "G2" "K2" true 0 1000 "S1";
       mkClient "c1" "Bob" "G1" "K1" true 0 1000 ""].
Proof.
  intros [_ H].
  destruct (H 0%nat _ _ eq_refl eq_refl)
    as [Hb|[(req & g & s & Hr & _ & Hreq & _)|(req & id & Hr & _)]].
  - discriminate.
  - injection Hr as <- <- <-. vm_compute in Hreq. discriminate.
  - discriminate.
Qed.

(** ** Event log: polling *)

(** The events handed out are events of the log, in the order of the
    log, all of the requested group and none with [id <= since]. *)
Lemma scan_events_picks (group : string) (since limit : number)
    (evs out : list Event) :
  exists picked,
    scan_events group since limit evs out = (out ++ picked)%list /\
    picked `sublist_of` evs /\
    Forall (fun ev => wanted group since ev = true) picked.
Proof.
  revert out. induction evs as [|ev evs IH]; intros out; cbn [scan_events].
  - exists []. by rewrite app_nil_r.
  - case_bool_decide as Hg; cbn [negb].
    2:{ destruct (IH out) as (p & -> & Hsub & Hall).
        exists p. split; [done|]. split; [by apply sublist_cons | done]. }
    destruct (num_leb (Int (ev_id ev)) since) eqn:Hs.
    { destruct (IH out) as (p & -> & Hsub & Hall).
      exists p. split; [done|]. split; [by apply sublist_cons | done]. }
    assert (Hw : wanted group since ev = true).
    { unfold wanted. rewrite Hs. by rewrite bool_decide_eq_true_2. }
    destruct (num_geb _ limit).
    + exists [ev]. split; [done|]. split.
      * apply sublist_skip, sublist_nil_l.
      * by constructor.
    + destruct (IH (out ++ [ev])%list) as (p & -> & Hsub & Hall).
      exists (ev :: p). split; [by rewrite <- app_assoc|].
      split; [by apply sublist_skip | by constructor].
Qed.

(** The loop stops at the first length that reaches the limit: under a
    limit that is at most the integer [L], it hands out at most [L]
    events. *)
Lemma scan_events_length (group : string) (since limit : number) (L : Z)
    (evs out : list Event) :
  num_leb limit (Int L) = true -> Z.of_nat (length out) < L ->
  Z.of_nat (length (scan_events group since limit evs out)) <= L.
Proof.
  intros HL. revert out.
  induction evs as [|ev evs IH]; intros out Hout; cbn [scan_events].
  - lia.
  - destruct (negb _); [by apply IH|].
    destruct (num_leb (Int (ev_id ev)) since); [by apply IH|].
    destruct (num_geb _ limit) eqn:Hge.
    + rewrite length_app. simpl. lia.
    + destruct (decide (Z.of_nat (length (out ++ [ev])%list) = L)) as [E|E].
      * exfalso. unfold num_geb in Hge. rewrite E in Hge. congruence.
      * apply IH. rewrite length_app in *. simpl in *. lia.
Qed.

(** Without a limit that compares, the loop never stops early: with
    [NaN] for the limit every wanted event of the log is handed out. *)
Lemma scan_events_NaN (group : string) (since : number) (evs out : list Event) :
  scan_events group since NaN evs out
  = (out ++ filter (fun ev => wanted group since ev = true) evs)%list.
Proof.
  revert out. induction evs as [|ev evs IH]; intros out; cbn [scan_events].
  - by rewrite app_nil_r.
  - rewrite filter_cons.
    case_bool_decide as Hg; cbn [negb].
    + destruct (num_leb (Int (ev_id ev)) since) eqn:Hs.
      * rewrite decide_False; [apply IH|].
        unfold wanted. rewrite Hs. by rewrite andb_false_r.
      * rewrite decide_True.
        2:{ unfold wanted. rewrite Hs. by rewrite bool_decide_eq_true_2. }
        unfold num_geb. simpl. rewrite IH. by rewrite <- app_assoc.
    + rewrite decide_False; [apply IH|].
      unfold wanted. by rewrite bool_decide_eq_false_2.
Qed.

Lemma Math_max_if (a b : number) :
  a <> NaN -> b <> NaN -> Math_max a b = if num_leb a b then b else a.
Proof. by destruct a, b. Qed.

Lemma Math_min_if (a b : number) :
  a <> NaN -> b <> NaN -> Math_min a b = if num_leb a b then a else b.
Proof. by destruct a, b. Qed.

Lemma num_leb_total (a b : number) :
  a <> NaN -> b <> NaN -> num_leb a b = false -> num_leb b a = true.
Proof.
  destruct a, b; simpl; try done. intros _ _. apply Qc_leb_total.
Qed.

Lemma clamp_limit_range (n : number) :
  n <> NaN ->
  num_leb (Int 1) (clamp_limit n) = true /\ num_leb (clamp_limit n) (Int 500) = true.
Proof.
  intros Hn. unfold clamp_limit.
  assert (H15 : num_leb (Int 1) (Int 500) = true) by (by rewrite num_leb_Int).
  assert (H1 : Int 1 <> NaN) by done.
  assert (H5 : Int 500 <> NaN) by done.
  assert (Hm : Math_max (Int 1) n <> NaN) by by apply Math_max_not_NaN.
  assert (Hlo : num_leb (Int 1) (Math_max (Int 1) n) = true)
    by by apply Math_max_ub_l.
  rewrite Math_min_if by done.
  destruct (num_leb (Int 500) (Math_max (Int 1) n)) eqn:E.
  - split; [done | by apply num_leb_refl].
  - split; [done | by apply num_leb_total].
Qed.

Lemma clamp_limit_Int (n : Z) : clamp_limit (Int n) = Int (Z.max 1 (Z.min 500 n)).
Proof.
  unfold clamp_limit.
  assert (Hmax : Math_max (Int 1) (Int n) = Int (Z.max 1 n)).
  { rewrite Math_max_if by done. rewrite num_leb_Int.
    destruct (Z.leb_spec 1 n); f_equal; lia. }
  rewrite Hmax, Math_min_if by done. rewrite num_leb_Int.
  destruct (Z.leb_spec 500 (Z.max 1 n)); f_equal; lia.
Qed.

Lemma StronglySorted_sublist {A : Type} (R : relation A) (l1 l2 : list A) :
  l1 `sublist_of` l2 -> StronglySorted R l2 -> StronglySorted R l1.
Proof.
  induction 1 as [|x l1 l2 Hsub IH|x l1 l2 Hsub IH]; intros Hs.
  - constructor.
  - apply StronglySorted_cons in Hs as [Hx Hs].
    apply StronglySorted_cons. split; [|by apply IH].
    rewrite Forall_forall in *. intros y Hy. apply Hx.
    by eapply elem_of_sublist.
  - apply StronglySorted_cons in Hs as [_ Hs]. by apply IH.
Qed.

Lemma copier_events_200 (now seen sent : Z) (req : headers) (g s : string)
    (since limit_raw : number) (st : State) :
  status (copier_events now seen sent req g s since limit_raw st).1 = 200 ->
  (copier_events now seen sent req g s since limit_raw st).1
  = ok (OkEvents sent
          (scan_events g since (clamp_limit limit_raw) (events (copier st)) [])).
Proof.
  unfold copier_events.
  destruct (_ || _); [done|].
  destruct (requireClient _ _ _ _) as [r|c] eqn:Hreq.
  { intros H200. exfalso.
    destruct (requireClient_inl_status _ _ _ _ _ Hreq) as [Hc|Hc];
      by apply category_not_200 in Hc. }
  destruct (str_empty _); [done|]. by destruct (negb _).
Qed.

(** With numbers for [since] and [limit] (no [NaN]), a successful events
    hands out events of the log in the order of the log, all of the
    requested group and with [id > since], at most 500 of them, and for
    an integer limit at most the limit clamped to [1, 500]; on an
    ordered log their ids are ascending. *)
Lemma copier_events_numeric (now seen sent : Z) (req : headers) (g s : string)
    (since limit_raw : number) (st : State) :
  since <> NaN -> limit_raw <> NaN ->
  status (copier_events now seen sent req g s since limit_raw st).1 = 200 ->
  let out := polled (copier_events now seen sent req g s since limit_raw st).1 in
  Forall (fun ev => ev_group ev = g /\ num_gtb (Int (ev_id ev)) since = true) out /\
  out `sublist_of` events (copier st) /\
  (log_ok (copier st) -> StronglySorted Z.lt (ev_id <$> out)) /\
  Z.of_nat (length out) <= 500 /\
  (forall n, limit_raw = Int n ->
             Z.of_nat (length out) <= Z.max 1 (Z.min 500 n)).
Proof.
  intros Hsince Hlim H200. rewrite (copier_events_200 _ _ _ _ _ _ _ _ _ H200).
  unfold polled. simpl.
  destruct (scan_events_picks g since (clamp_limit limit_raw)
              (events (copier st)) []) as (p & Hp & Hsub & Hall).
  simpl in Hp. split; [|split; [|split; [|split]]].
  - rewrite Hp. eapply Forall_impl; [exact Hall|]. simpl.
    intros ev Hw. unfold wanted in Hw. apply andb_true_iff in Hw as [Hg Hs].
    apply bool_decide_eq_true in Hg. split; [done|].
    unfold num_gtb, num_ltb. by destruct since.
  - by rewrite Hp.
  - intros [Hs _]. rewrite Hp.
    eapply StronglySorted_sublist; [|exact Hs]. by apply fmap_sublist.
  - apply scan_events_length; [|simpl; lia].
    by apply clamp_limit_range.
  - intros n ->. rewrite clamp_limit_Int.
    apply scan_events_length; [|simpl; lia].
    by apply num_leb_refl.
Qed.

(** C2, on [limit=abc] and on [since=abc].  A client of group G1 is
    added, the master pushes 501 events to G1 and the client's slave
    polls.  With [NaN] for the limit, which [Math.min(500, Math.max(1,
    NaN))] leaves as it is, the response carries all 501 events: more
    than 500.  With [NaN] for [since] and the limit 10, it carries the
    events with the ids 1 to 10, none of which compares greater than
    [since]. *)
Theorem events_not_a_number :
  let cfg := mkConfig "" "a" "m" in
  let body := mkPushBody "G1" "OPEN" (Int 101) (Int 0) "EURUSD" (Int 0)
                (Int 0) (Int 0) (Int 0) (Int 0) (Int 0) in
  let st := (run cfg
               ((mkClock 0 0 0, AdminAdd (mkHeaders None (Some "a") None)
                      "Bob" "G1" "M1" "c1" "K1")
                :: replicate 501 (mkClock 1 1 1, Push (mkHeaders None None (Some "m")) body))
               init_state).2 in
  let r1 := (copier_events 2 2 2 (mkHeaders (Some "K1") None None) "G1" "S1"
               (Int 0) NaN st).1 in
  let r2 := (copier_events 2 2 2 (mkHeaders (Some "K1") None None) "G1" "S1"
               NaN (Int 10) st).1 in
  clamp_limit NaN = NaN /\
  status r1 = 200 /\ Z.of_nat (length (polled r1)) = 501 /\
  status r2 = 200 /\ ev_id <$> polled r2 = [1; 2; 3; 4; 5; 6; 7; 8; 9; 10] /\
  Forall (fun ev => num_gtb (Int (ev_id ev)) NaN = false) (polled r2).
Proof.
  vm_compute. repeat split. repeat constructor.
Qed.

(** ** Reachable states *)

Lemma handle_cursors_ok (cfg : Config) (t : Clock) (r : request) (st : State) :
  cursors_ok (slaves st) -> cursors_ok (slaves (handle cfg t r st).2).
Proof.
  intros Hok.
  destruct r as [req b|req g s|req g s since lim|req g s e a|req
                |req f g d i k|req i en|req i d|req i|req i]; simpl.
  - by destruct (copier_push_cases cfg (now0 t) req b st) as [[-> _]|[->| ->]].
  - unfold copier_registerSlave. handler_cases; try done; by apply touch_slave_ok.
  - unfold copier_events. handler_cases; try done; by apply touch_slave_ok.
  - destruct (status (copier_ack (now0 t) (now1 t) req g s e a st).1 =? 200) eqn:E.
    + apply Z.eqb_eq in E.
      destruct (copier_ack_200 _ _ _ _ _ _ _ _ E) as (_ & _ & He & _ & _ & ->).
      simpl. apply ack_slave_ok; [by apply num_truthy_not_NaN | done].
    + apply Z.eqb_neq in E. revert E. unfold copier_ack.
      handler_cases; done.
  - unfold admin_clients. handler_cases; done.
  - unfold admin_add. handler_cases; done.
  - unfold admin_disable. handler_cases; done.
  - unfold admin_extend. handler_cases; done.
  - unfold admin_resetBind. handler_cases; done.
  - unfold admin_delete. handler_cases; done.
Qed.

Lemma reachable_cursors_ok (cfg : Config) (st : State) :
  reachable cfg st -> cursors_ok (slaves st).
Proof.
  induction 1 as [|t r st _ IH].
  - intros k r Hk. simpl in Hk. by rewrite lookup_empty in Hk.
  - by apply handle_cursors_ok.
Qed.

Lemma run_reachable (cfg : Config) (rs : list (Clock * request)) (st : State) :
  reachable cfg st -> reachable cfg (run cfg rs st).2.
Proof.
  revert st. induction rs as [|[t r] rs IH]; intros st Hst; [done|].
  rewrite run_cons. simpl. apply IH. by constructor.
Qed.

(** * Further properties of the code *)

(** ** The shared-secret predicates *)

(** X1. [masterOk] is the same predicate in both variants of the
    server: it accepts a request exactly when [MASTER_KEY] is not empty
    and the x-master-key header is [MASTER_KEY]; an absent header, which
    the variant reads as the empty string, is never accepted. *)
Theorem masterOk_variants (cfg : Config) (req : headers) :
  Variant.masterOk cfg req = masterOk cfg req /\
  (masterOk cfg req = true <->
   MASTER_KEY cfg <> "" /\ x_master_key req = Some (MASTER_KEY cfg)).
Proof.
  unfold masterOk, Variant.masterOk.
  destruct (str_empty (MASTER_KEY cfg)) eqn:Hk.
  - apply str_empty_true in Hk. split; [done|]. split; [done|]. by intros [? _].
  - apply str_empty_false in Hk. split.
    + apply eq_true_iff_eq. rewrite !bool_decide_eq_true.
      by apply header_or_empty_Some.
    + rewrite bool_decide_eq_true. split; [done|]. by intros [_ ?].
Qed.

(** X2. [authOk] is the same predicate in both variants too: with an
    empty [API_KEY] it admits every request, with or without a header,
    and otherwise exactly the requests whose x-api-key is [API_KEY]. *)
Theorem authOk_variants (cfg : Config) (req : headers) :
  Variant.authOk cfg req = authOk cfg req /\
  (authOk cfg req = true <->
   API_KEY cfg = "" \/ x_api_key req = Some (API_KEY cfg)).
Proof.
  unfold authOk, Variant.authOk.
  destruct (str_empty (API_KEY cfg)) eqn:Hk.
  - apply str_empty_true in Hk. split; [done|]. split; [by left | done].
  - apply str_empty_false in Hk. split.
    + apply eq_true_iff_eq. rewrite !bool_decide_eq_true.
      by apply header_or_empty_Some.
    + rewrite bool_decide_eq_true. split; [by right|]. by intros [?|?].
Qed.

(** ** Requests that are turned down *)

(** X3. A push without the master key and an admin request without the
    admin key are answered 401 and change nothing, whatever else the
    request holds. *)
Theorem privileged_request_refused (cfg : Config) (t : Clock) (r : request)
    (st : State) :
  privileged_ok cfg r = false ->
  category_of (handle cfg t r st).1 = Some Unauthorized /\
  (handle cfg t r st).2 = st.
Proof.
  destruct r; simpl; intros H; try done.
  - by rewrite copier_push_unauthorized.
  - unfold admin_clients. by rewrite H.
  - unfold admin_add. by rewrite H.
  - unfold admin_disable. by rewrite H.
  - unfold admin_extend. by rewrite H.
  - unfold admin_resetBind. by rewrite H.
  - unfold admin_delete. by rewrite H.
Qed.

Lemma privileged_request_refused_witness :
  (handle (mkConfig "" "adm" "") (mkClock 1 1 1)
     (AdminDelete (mkHeaders None (Some "guess") None) "c1")
     (mkState [mkClient "c1" "Bob" "G1" "K1" true 0 1000 ""] (mkCopier 1 []) ∅)).2
  = mkState [mkClient "c1" "Bob" "G1" "K1" true 0 1000 ""] (mkCopier 1 []) ∅.
Proof.
  exact (proj2 (privileged_request_refused (mkConfig "" "adm" "") (mkClock 1 1 1)
                  (AdminDelete (mkHeaders None (Some "guess") None) "c1")
                  (mkState [mkClient "c1" "Bob" "G1" "K1" true 0 1000 ""]
                     (mkCopier 1 []) ∅) eq_refl)).
Defined.

(** The response of every handler is a success with status 200 or an
    error object under one of the four error statuses. *)
Lemma handle_response (cfg : Config) (t : Clock) (r : request) (st : State) :
  (status (handle cfg t r st).1 = 200 /\
   forall msg, json (handle cfg t r st).1 <> Err msg) \/
  (exists cat msg, category_of (handle cfg t r st).1 = Some cat /\
                   json (handle cfg t r st).1 = Err msg).
Proof.
  destruct r as [req b|req g s|req g s since lim|req g s e a|req
                |req f g d i k|req i en|req i d|req i|req i]; simpl.
  - destruct (masterOk cfg req) eqn:Hm.
    2:{ rewrite copier_push_unauthorized by done. right. by eexists _, _. }
    destruct (group_type_ok b) eqn:Hg.
    2:{ rewrite copier_push_bad_group_type by done. right. by eexists _, _. }
    destruct (ticket_symbol_ok b) eqn:Ht.
    + rewrite copier_push_accepted by done. by left.
    + rewrite copier_push_missing by done. right. by eexists _, _.
  - unfold copier_registerSlave.
    destruct (_ || _); [right; by eexists _, _|].
    destruct (requireClient _ _ _ _) as [r|c] eqn:Hreq.
    { right. destruct (requireClient_inl_fail _ _ _ _ _ Hreq) as (n & msg & ->).
      destruct (requireClient_inl_status _ _ _ _ _ Hreq) as [Hc|Hc];
        by eexists _, _. }
    destruct (str_empty _); [by left|].
    destruct (negb _); [right; by eexists _, _ | by left].
  - unfold copier_events.
    destruct (_ || _); [right; by eexists _, _|].
    destruct (requireClient _ _ _ _) as [r|c] eqn:Hreq.
    { right. destruct (requireClient_inl_fail _ _ _ _ _ Hreq) as (n & msg & ->).
      destruct (requireClient_inl_status _ _ _ _ _ Hreq) as [Hc|Hc];
        by eexists _, _. }
    destruct (str_empty _); [by left|].
    destruct (negb _); [right; by eexists _, _ | by left].
  - unfold copier_ack.
    destruct (_ || _ || _ || _); [right; by eexists _, _|].
    destruct (requireClient _ _ _ _) as [r|c] eqn:Hreq.
    { right. destruct (requireClient_inl_fail _ _ _ _ _ Hreq) as (n & msg & ->).
      destruct (requireClient_inl_status _ _ _ _ _ Hreq) as [Hc|Hc];
        by eexists _, _. }
    destruct (_ && _); [right; by eexists _, _ | by left].
  - unfold admin_clients. destruct (negb _); [right; by eexists _, _ | by left].
  - unfold admin_add. destruct (negb _); [right; by eexists _, _|].
    destruct (_ || _); [right; by eexists _, _ | by left].
  - unfold admin_disable. destruct (negb _); [right; by eexists _, _|].
    destruct (findClientById _ _); [by left | right; by eexists _, _].
  - unfold admin_extend. destruct (negb _); [right; by eexists _, _|].
    destruct (findClientById _ _); [by left | right; by eexists _, _].
  - unfold admin_resetBind. destruct (negb _); [right; by eexists _, _|].
    destruct (findClientById _ _); [by left | right; by eexists _, _].
  - unfold admin_delete. destruct (negb _); [right; by eexists _, _ | by left].
Qed.

(** A request other than a push that is not answered 200 leaves the
    whole state as it was. *)
Lemma handle_failed_same (cfg : Config) (t : Clock) (r : request) (st : State) :
  is_push r = false -> status (handle cfg t r st).1 <> 200 ->
  (handle cfg t r st).2 = st.
Proof.
  destruct r; simpl; [done|..]; intros _.
  - unfold copier_registerSlave. handler_cases; intros H; done.
  - unfold copier_events. handler_cases; intros H; done.
  - unfold copier_ack. handler_cases; intros H; done.
  - unfold admin_clients. handler_cases; intros H; done.
  - unfold admin_add. handler_cases; intros H; done.
  - unfold admin_disable. handler_cases; intros H; done.
  - unfold admin_extend. handler_cases; intros H; done.
  - unfold admin_resetBind. handler_cases; intros H; done.
  - unfold admin_delete. handler_cases; intros H; done.
Qed.

(** A handler that does not answer 200 answers an error object under
    one of the four error statuses and has left the clients, the cursors
    and the events alone; only a push refused for its master_ticket or
    symbol has moved the counter. *)
Lemma handle_failed_frame (cfg : Config) (t : Clock) (r : request) (st : State) :
  status (handle cfg t r st).1 <> 200 ->
  (exists cat msg, category_of (handle cfg t r st).1 = Some cat /\
                   json (handle cfg t r st).1 = Err msg) /\
  clients (handle cfg t r st).2 = clients st /\
  slaves (handle cfg t r st).2 = slaves st /\
  events (copier (handle cfg t r st).2) = events (copier st) /\
  (nextId (copier (handle cfg t r st).2) = nextId (copier st) \/
   exists req b, r = Push req b /\ masterOk cfg req = true /\
                 group_type_ok b = true /\ ticket_symbol_ok b = false /\
                 nextId (copier (handle cfg t r st).2) = nextId (copier st) + 1).
Proof.
  intros Hst. split.
  { destruct (handle_response cfg t r st) as [[H200 _]|H]; done. }
  destruct (is_push r) eqn:Hp.
  2:{ rewrite (handle_failed_same cfg t r st Hp Hst). auto. }
  destruct r as [req b| | | | | | | | |]; try done. simpl in *.
  destruct (masterOk cfg req) eqn:Hm.
  2:{ rewrite copier_push_unauthorized by done. auto. }
  destruct (group_type_ok b) eqn:Hg.
  2:{ rewrite copier_push_bad_group_type by done. auto. }
  destruct (ticket_symbol_ok b) eqn:Ht.
  - rewrite copier_push_accepted in Hst by done. done.
  - rewrite copier_push_missing by done. simpl.
    repeat split; try done. right. by exists req, b.
Qed.

(** ** Requests as they arrive *)

(** When every field coerces, the request is served by its handler. *)
Lemma serve_coerced (cfg : Config) (t : Clock) (r : raw_request) (r' : request)
    (st : State) :
  coerce_request r = Val r' -> serve cfg t r st = answered (handle cfg t r' st).
Proof.
  destruct r as [req g ty mt ot sym cmd lots price sl tp magic|req g s|req g s n l
                |req g s e a|req|req f g d i k|req i en|req i d|req i|req i];
    cbn [coerce_request serve].
  - destruct g as [g|], ty as [ty|]; try discriminate. cbn.
    destruct (coerce_push g ty mt ot sym cmd lots price sl tp magic) as [b|] eqn:Hb;
      [|discriminate].
    cbn. intros [= <-]. cbn [handle].
    assert (Hgt : b_group b = g /\ b_type b = ty).
    { unfold coerce_push in Hb.
      destruct mt, ot, sym, cmd, lots, price, sl, tp, magic; try discriminate.
      cbn in Hb. by injection Hb as <-. }
    destruct Hgt as [Hg Hty].
    destruct (masterOk cfg req) eqn:Hm; cbn.
    2:{ by rewrite copier_push_unauthorized. }
    destruct (str_empty g || _) eqn:Hbad; [|done].
    rewrite copier_push_bad_group_type; [done | done |].
    unfold group_type_ok. rewrite Hg, Hty.
    destruct (str_empty g), (bool_decide (ty = "OPEN")), (bool_decide (ty = "CLOSE"));
      done.
  - destruct g, s; try discriminate. cbn. by intros [= <-].
  - destruct g, s, n, l; try discriminate. cbn. by intros [= <-].
  - destruct g, s, e, a; try discriminate. cbn. by intros [= <-].
  - cbn. by intros [= <-].
  - destruct f, g, d; try discriminate. cbn. intros [= <-]. cbn [handle].
    unfold admin_add. by destruct (negb _).
  - destruct i; try discriminate. cbn. intros [= <-]. cbn [handle].
    unfold admin_disable. by destruct (negb _).
  - destruct i, d; try discriminate. cbn. intros [= <-]. cbn [handle].
    unfold admin_extend. by destruct (negb _).
  - destruct i; try discriminate. cbn. intros [= <-]. cbn [handle].
    unfold admin_resetBind. by destruct (negb _).
  - destruct i; try discriminate. cbn. intros [= <-]. cbn [handle].
    unfold admin_delete. by destruct (negb _).
Qed.

(** The three ways a request is served: by a handler on coerced fields;
    with a throw before any write; or, in push, with a throw in the
    event literal, which leaves the state of a push refused for its
    master_ticket. *)
Lemma serve_cases (cfg : Config) (t : Clock) (r : raw_request) (st : State) :
  (exists r', serve cfg t r st = answered (handle cfg t r' st) /\
              (reaches_increment cfg r = false -> is_push r' = true ->
               (handle cfg t r' st).2 = st /\ status (handle cfg t r' st).1 <> 200)) \/
  (coerce_request r = Throws /\ serve cfg t r st = (Crashed, st)) \/
  (coerce_request r = Throws /\ reaches_increment cfg r = true /\
   exists req b, masterOk cfg req = true /\ group_type_ok b = true /\
                 ticket_symbol_ok b = false /\
                 serve cfg t r st = (Crashed, (handle cfg t (Push req b) st).2)).
Proof.
  destruct (coerce_request r) as [r'|] eqn:Hc.
  { left. exists r'. split; [by apply serve_coerced|].
    destruct r as [req g ty mt ot sym cmd lots price sl tp magic|req g s|req g s n l
                  |req g s e a|req|req f g d i k|req i en|req i d|req i|req i];
      cbn [coerce_request] in Hc.
    - destruct g as [g|], ty as [ty|]; try discriminate. cbn in Hc.
      destruct (coerce_push g ty mt ot sym cmd lots price sl tp magic) as [b|] eqn:Hb;
        [|discriminate].
      cbn in Hc. injection Hc as <-. cbn [reaches_increment handle].
      assert (Hgt : b_group b = g /\ b_type b = ty).
      { unfold coerce_push in Hb.
        destruct mt, ot, sym, cmd, lots, price, sl, tp, magic; try discriminate.
        cbn in Hb. by injection Hb as <-. }
      destruct Hgt as [Hg Hty]. intros Hri _.
      destruct (masterOk cfg req) eqn:Hm.
      2:{ by rewrite copier_push_unauthorized. }
      rewrite copier_push_bad_group_type; [done | done |].
      unfold group_type_ok. rewrite Hg, Hty. cbn in Hri.
      by destruct (str_empty g), (bool_decide (ty = "OPEN")),
                  (bool_decide (ty = "CLOSE")).
    - destruct g, s; try discriminate. cbn in Hc. by injection Hc as <-.
    - destruct g, s, n, l; try discriminate. cbn in Hc. by injection Hc as <-.
    - destruct g, s, e, a; try discriminate. cbn in Hc. by injection Hc as <-.
    - cbn in Hc. by injection Hc as <-.
    - destruct f, g, d; try discriminate. cbn in Hc. by injection Hc as <-.
    - destruct i; try discriminate. cbn in Hc. by injection Hc as <-.
    - destruct i, d; try discriminate. cbn in Hc. by injection Hc as <-.
    - destruct i; try discriminate. cbn in Hc. by injection Hc as <-.
    - destruct i; try discriminate. cbn in Hc. by injection Hc as <-. }
  destruct r as [req g ty mt ot sym cmd lots price sl tp magic|req g s|req g s n l
                |req g s e a|req|req f g d i k|req i en|req i d|req i|req i];
    cbn [coerce_request serve reaches_increment] in *.
  - destruct (masterOk cfg req) eqn:Hm; cbn.
    2:{ left. exists (Push req (mkPushBody "" "" NaN NaN "" NaN NaN NaN NaN NaN NaN)).
        cbn [handle]. rewrite copier_push_unauthorized by done. by split. }
    destruct g as [g|]; [|right; left; by split].
    destruct ty as [ty|]; [|right; left; by split]. cbn in *.
    destruct (str_empty g || _) eqn:Hbad.
    { left. exists (Push req (mkPushBody g ty NaN NaN "" NaN NaN NaN NaN NaN NaN)).
      cbn [handle]. rewrite copier_push_bad_group_type; [by split | done |].
      unfold group_type_ok. cbn.
      by destruct (str_empty g), (bool_decide (ty = "OPEN")),
                  (bool_decide (ty = "CLOSE")). }
    destruct (coerce_push g ty mt ot sym cmd lots price sl tp magic) as [b|] eqn:Hb;
      [discriminate|].
    right. right. split; [done|]. split.
    { by destruct (str_empty g), (bool_decide (ty = "OPEN")),
                  (bool_decide (ty = "CLOSE")). }
    exists req, (mkPushBody g ty NaN NaN "" NaN NaN NaN NaN NaN NaN).
    assert (Hg : group_type_ok (mkPushBody g ty NaN NaN "" NaN NaN NaN NaN NaN NaN)
                 = true).
    { unfold group_type_ok. cbn.
      by destruct (str_empty g), (bool_decide (ty = "OPEN")),
                  (bool_decide (ty = "CLOSE")). }
    split; [done|]. split; [done|]. split; [done|].
    cbn [handle]. by rewrite copier_push_missing.
  - right. left. split; [done|]. by destruct g, s.
  - right. left. split; [done|]. by destruct g, s, n, l.
  - right. left. split; [done|]. by destruct g, s, e, a.
  - discriminate.
  - destruct (adminOk cfg req) eqn:Ha; cbn.
    + right. left. split; [done|]. by destruct f, g, d.
    + left. exists (AdminAdd req "" "" "" i k). cbn [handle]. unfold admin_add.
      rewrite Ha. by split.
  - destruct (adminOk cfg req) eqn:Ha; cbn.
    + right. left. split; [done|]. by destruct i.
    + left. exists (AdminDisable req "" en). cbn [handle]. unfold admin_disable.
      rewrite Ha. by split.
  - destruct (adminOk cfg req) eqn:Ha; cbn.
    + right. left. split; [done|]. by destruct i, d.
    + left. exists (AdminExtend req "" ""). cbn [handle]. unfold admin_extend.
      rewrite Ha. by split.
  - destruct (adminOk cfg req) eqn:Ha; cbn.
    + right. left. split; [done|]. by destruct i.
    + left. exists (AdminResetBind req ""). cbn [handle]. unfold admin_resetBind.
      rewrite Ha. by split.
  - destruct (adminOk cfg req) eqn:Ha; cbn.
    + right. left. split; [done|]. by destruct i.
    + left. exists (AdminDelete req ""). cbn [handle]. unfold admin_delete.
      rewrite Ha. by split.
Qed.

(** The states reached by serving requests as they arrive are states
    the handlers reach: what is proved of [reachable] states holds with
    throwing requests among the requests. *)
Lemma serve_reachable (cfg : Config) (t : Clock) (r : raw_request) (st : State) :
  reachable cfg st -> reachable cfg (serve cfg t r st).2.
Proof.
  intros Hr.
  destruct (serve_cases cfg t r st)
    as [(r' & -> & _)|[[_ ->]|(_ & _ & req & b & _ & _ & _ & ->)]];
    cbn [answered fst snd].
  - exact (reach_step cfg t r' st Hr).
  - done.
  - exact (reach_step cfg t (Push req b) st Hr).
Qed.

(** X4. Whatever fields a request arrives with, what is not answered
    200 is either an error object sent by the handler under one of the
    statuses 400, 401, 403 and 404, or the 500 of a handler that threw,
    which happens only when a field does not coerce.  In both cases the
    request has changed neither the clients, nor the cursors, nor the
    events of the log; the one thing it can have changed is the counter
    [nextId], incremented by a push that carried the master key and
    passed the check of group and type. *)
Theorem failed_request_frame (cfg : Config) (t : Clock) (r : raw_request)
    (st : State) :
  outcome_status (serve cfg t r st).1 <> 200 ->
  ((serve cfg t r st).1 = Crashed /\ coerce_request r = Throws \/
   exists resp cat msg,
     (serve cfg t r st).1 = Sent resp /\ category_of resp = Some cat /\
     json resp = Err msg) /\
  clients (serve cfg t r st).2 = clients st /\
  slaves (serve cfg t r st).2 = slaves st /\
  events (copier (serve cfg t r st).2) = events (copier st) /\
  (nextId (copier (serve cfg t r st).2) = nextId (copier st) \/
   reaches_increment cfg r = true /\
   nextId (copier (serve cfg t r st).2) = nextId (copier st) + 1).
Proof.
  intros Hst.
  destruct (serve_cases cfg t r st)
    as [(r' & Hs & Hpre)|[[Hc Hs]|(Hc & Hri & req & b & Hm & Hg & Ht & Hs)]];
    rewrite Hs in *; cbn [answered fst snd outcome_status] in *.
  - destruct (handle_failed_frame cfg t r' st Hst)
      as ((cat & msg & Hcat & Hmsg) & Hcl & Hsl & Hev & Hn).
    split; [right; by eexists _, _, _|]. split; [done|]. split; [done|].
    split; [done|].
    destruct Hn as [Hn|(req & b & -> & Hm & Hg & Ht & Hn)]; [by left|].
    destruct (reaches_increment cfg r) eqn:Hri; [by right|].
    left. by destruct (Hpre eq_refl eq_refl) as [-> _].
  - split; [by left|]. auto.
  - split; [by left|]. cbn [handle].
    rewrite copier_push_missing by done. cbn.
    split; [done|]. split; [done|]. split; [done|]. by right.
Qed.

Lemma failed_request_frame_witness :
  nextId
    (copier
       (serve (mkConfig "" "" "m") (mkClock 1 1 1)
          (RawPush (mkHeaders None None (Some "m")) (Val "G1") (Val "OPEN")
             Throws (Val (Int 0)) (Val "EURUSD") (Val (Int 0)) (Val (Int 0))
             (Val (Int 0)) (Val (Int 0)) (Val (Int 0)) (Val (Int 0)))
          init_state).2)
  = 1 + 1 /\
  events
    (copier
       (serve (mkConfig "" "" "m") (mkClock 1 1 1)
          (RawPush (mkHeaders None None (Some "m")) (Val "G1") (Val "OPEN")
             Throws (Val (Int 0)) (Val "EURUSD") (Val (Int 0)) (Val (Int 0))
             (Val (Int 0)) (Val (Int 0)) (Val (Int 0)) (Val (Int 0)))
          init_state).2)
  = [].
Proof.
  assert (H500 : (500 : Z) <> 200) by discriminate.
  destruct (failed_request_frame (mkConfig "" "" "m") (mkClock 1 1 1)
              (RawPush (mkHeaders None None (Some "m")) (Val "G1") (Val "OPEN")
                 Throws (Val (Int 0)) (Val "EURUSD") (Val (Int 0)) (Val (Int 0))
                 (Val (Int 0)) (Val (Int 0)) (Val (Int 0)) (Val (Int 0)))
              init_state H500) as (_ & _ & _ & Hev & Hn).
  split; [|exact Hev].
  destruct Hn as [Hn|[_ Hn]]; [discriminate Hn | exact Hn].
Defined.

(** ** Client registry: add, disable, extend, resetBind, delete *)

Lemma js_find_app {A : Type} (p : A -> bool) (l : list A) (x : A) :
  js_find p (l ++ [x])%list
  = match js_find p l with
    | Some y => Some y
    | None => if p x then Some x else None
    end.
Proof.
  induction l as [|y l IH]; simpl; [done|]. by destruct (p y).
Qed.

(** A write through [find] by one key, seen by [find] by another key
    that finds the same object. *)
Lemma js_find_update_first_same {A : Type} (p q : A -> bool) (f : A -> A)
    (l : list A) (x : A) :
  js_find p l = Some x -> js_find q l = Some x -> (forall y, q (f y) = q y) ->
  js_find q (update_first p f l) = Some (f x).
Proof.
  intros Hp Hq Hf. induction l as [|y l IH]; simpl in *; [done|].
  destruct (p y) eqn:Ep; simpl.
  - injection Hp as ->. rewrite Hf.
    destruct (q x) eqn:Eq; [done|].
    apply js_find_Some in Hq as [_ Hq]. congruence.
  - destruct (q y) eqn:Eq.
    + injection Hq as ->. apply js_find_Some in Hp as [_ Hp]. congruence.
    + by apply IH.
Qed.

Lemma js_find_filter {A : Type} (p : A -> bool) (Q : A -> Prop)
    `{!forall x, Decision (Q x)} (l : list A) :
  (forall x, p x = true -> Q x) -> js_find p (filter Q l) = js_find p l.
Proof.
  intros HpQ. induction l as [|y l IH]; [done|].
  rewrite filter_cons. simpl. destruct (p y) eqn:Ep.
  - rewrite decide_True by auto. simpl. by rewrite Ep.
  - destruct (decide (Q y)); simpl; [by rewrite Ep, IH | done].
Qed.

Lemma js_find_filter_out {A : Type} (p : A -> bool) (Q : A -> Prop)
    `{!forall x, Decision (Q x)} (l : list A) :
  (forall x, p x = true -> ~ Q x) -> js_find p (filter Q l) = None.
Proof.
  intros HpQ. apply js_find_None. intros x [HQ _]%list_elem_of_filter.
  destruct (p x) eqn:Ep; [|done]. by destruct (HpQ x Ep).
Qed.

(** In a registry whose clientIds and apiKeys are pairwise distinct,
    every client is the one its id and its key find. *)
Lemma js_find_unique {A : Type} (key : A -> string) (l : list A) (x : A) :
  NoDup (key <$> l) -> x ∈ l ->
  js_find (fun y => bool_decide (key y = key x)) l = Some x.
Proof.
  induction l as [|y l IH]; simpl; intros Hnd Hx.
  - by apply elem_of_nil in Hx.
  - apply NoDup_cons in Hnd as [Hy Hnd].
    case_bool_decide as Hk.
    + apply elem_of_cons in Hx as [->|Hx]; [done|].
      exfalso. apply Hy. rewrite Hk. by apply list_elem_of_fmap_2.
    + apply elem_of_cons in Hx as [->|Hx]; [done|]. by apply IH.
Qed.

Lemma resolves_unique (cs : list Client) (c : Client) :
  NoDup (clientId <$> cs) -> NoDup (apiKey <$> cs) -> c ∈ cs -> resolves cs c.
Proof.
  intros Hid Hkey Hc. split.
  - by apply (js_find_unique clientId).
  - by apply (js_find_unique apiKey).
Qed.

Lemma resolves_update_by_id (cs : list Client) (c : Client) (f : Client -> Client) :
  (forall x, clientId (f x) = clientId x) -> (forall x, apiKey (f x) = apiKey x) ->
  resolves cs c ->
  resolves (update_first (has_clientId (clientId c)) f cs) (f c).
Proof.
  intros Hid Hkey [H1 H2]. unfold resolves, findClientById, findClientByApiKey in *.
  rewrite Hid, Hkey. split.
  - rewrite js_find_update_first; [by rewrite H1|].
    intros x. unfold has_clientId. by rewrite Hid.
  - apply js_find_update_first_same; [done | done |].
    intros x. unfold has_apiKey. by rewrite Hkey.
Qed.

(** The gate on a client that its key finds. *)
Lemma requireClient_found (now : Z) (cs : list Client) (h : headers) (g : string)
    (c : Client) :
  trim (header_or_empty (x_api_key h)) = apiKey c -> apiKey c <> "" ->
  findClientByApiKey cs (apiKey c) = Some c ->
  requireClient now cs h g
  = if negb (clientActive now c) then inl (fail 403 "expired/disabled")
    else if negb (str_empty g) && negb (bool_decide (groupId c = g))
    then inl (fail 403 "group mismatch")
    else inr c.
Proof.
  intros Hk Hne Hf. unfold requireClient. rewrite Hk.
  apply str_empty_false in Hne. by rewrite Hne, Hf.
Qed.

(** X5. An admitted add whose fullName and groupId are not blank
    answers the new client: enabled, unbound, created at [now] and valid
    for the duration.  Afterwards every apiKey and clientId that found a
    client finds the same one, and the new key and id find the new
    client when they found none before; with a fresh key, the new client
    passes [requireClient] for its group until it expires.  A blank
    fullName or groupId (empty once trimmed) is InvalidInput and changes
    nothing. *)
Theorem add_then_lookup (cfg : Config) (now : Z) (req : headers)
    (f g d rid rkey : string) (st : State) :
  adminOk cfg req = true ->
  (trim f <> "" -> trim g <> "" ->
   let c := mkClient rid (trim f) (trim g) rkey true now
              (now + addDurationMs (trim d)) "" in
   (admin_add cfg now req f g d rid rkey st).1 = ok (OkClient c) /\
   (forall k, findClientByApiKey (clients (admin_add cfg now req f g d rid rkey st).2) k
              = match findClientByApiKey (clients st) k with
                | Some c0 => Some c0
                | None => if decide (k = rkey) then Some c else None
                end) /\
   (forall i, findClientById (clients (admin_add cfg now req f g d rid rkey st).2) i
              = match findClientById (clients st) i with
                | Some c0 => Some c0
                | None => if decide (i = rid) then Some c else None
                end) /\
   (findClientByApiKey (clients st) rkey = None -> rkey <> "" ->
    forall t h, trim (header_or_empty (x_api_key h)) = rkey ->
                t < now + addDurationMs (trim d) ->
                requireClient t (clients (admin_add cfg now req f g d rid rkey st).2)
                  h (trim g) = inr c)) /\
  (trim f = "" \/ trim g = "" ->
   category_of (admin_add cfg now req f g d rid rkey st).1 = Some InvalidInput /\
   (admin_add cfg now req f g d rid rkey st).2 = st).
Proof.
  intros Hadm. unfold admin_add. rewrite Hadm. simpl. split.
  - intros Hf Hg. apply str_empty_false in Hf as Hf', Hg as Hg'.
    rewrite Hf', Hg'. simpl.
    set (c := mkClient rid (trim f) (trim g) rkey true now
                (now + addDurationMs (trim d)) "").
    assert (Hkey : forall k, findClientByApiKey (clients st ++ [c]) k
              = match findClientByApiKey (clients st) k with
                | Some c0 => Some c0
                | None => if decide (k = rkey) then Some c else None
                end).
    { intros k. unfold findClientByApiKey. rewrite js_find_app.
      destruct (js_find _ _); [done|]. unfold has_apiKey. simpl.
      destruct (decide (k = rkey)) as [->|Hne].
      - by rewrite bool_decide_eq_true_2.
      - by rewrite bool_decide_eq_false_2. }
    split; [done|]. split; [done|]. split.
    + intros i. unfold findClientById. rewrite js_find_app.
      destruct (js_find _ _); [done|]. unfold has_clientId. simpl.
      destruct (decide (i = rid)) as [->|Hne].
      * by rewrite bool_decide_eq_true_2.
      * by rewrite bool_decide_eq_false_2.
    + intros Hfresh Hne t h Hh Ht.
      rewrite (requireClient_found t _ h (trim g) c); simpl; try done.
      * unfold clientActive. simpl.
        destruct (Z.leb_spec (now + addDurationMs (trim d)) t); [lia|]. simpl.
        rewrite Hg'. simpl. by rewrite bool_decide_eq_true_2.
      * rewrite Hkey, Hfresh. by rewrite decide_True.
  - intros [Hf|Hg].
    + apply str_empty_true in Hf. by rewrite Hf.
    + apply str_empty_true in Hg. rewrite Hg. by rewrite orb_true_r.
Qed.

Lemma add_then_lookup_witness :
  requireClient 20
    (clients (admin_add (mkConfig "" "adm" "") 10 (mkHeaders None (Some "adm") None)
                " Bob " "G1" "M3" "c1" "K1" init_state).2)
    (mkHeaders (Some "K1") None None) "G1"
  = inr (mkClient "c1" "Bob" "G1" "K1" true 10 (10 + 93 * 86400000) "").
Proof.
  destruct (add_then_lookup (mkConfig "" "adm" "") 10
              (mkHeaders None (Some "adm") None) " Bob " "G1" "M3" "c1" "K1"
              init_state eq_refl) as [H _].
  assert (Hf : trim " Bob " <> "") by (vm_compute; discriminate).
  assert (Hg : trim "G1" <> "") by (vm_compute; discriminate).
  assert (Hk : "K1" <> "") by discriminate.
  destruct (H Hf Hg) as (_ & _ & _ & Hreq).
  refine (Hreq eq_refl Hk 20 (mkHeaders (Some "K1") None None) eq_refl _).
  vm_compute. reflexivity.
Defined.



(** X7. After an admitted extend of an enabled client, lapsed or not,
    the client passes [requireClient] with its key and group at the time
    of the extension and at every time before the new expiry. *)
Theorem extend_reactivates (cfg : Config) (now : Z) (req : headers) (d : string)
    (st : State) (c : Client) :
  adminOk cfg req = true -> resolves (clients st) c -> enabled c = true ->
  let e := Z.max now (expiresAt c) + addDurationMs d in
  now < e /\
  forall t h g,
    trim (header_or_empty (x_api_key h)) = apiKey c -> apiKey c <> "" ->
    t < e -> g = "" \/ groupId c = g ->
    requireClient t (clients (admin_extend cfg now req (clientId c) d st).2) h g
    = inr (set_expiresAt e c).
Proof.
  intros Hadm Hres Hen e. pose proof Hres as [Hid _].
  pose proof (addDurationMs_lower d) as Hd. pose proof day_ms as Hday.
  split; [subst e; lia|].
  intros t h g Hh Hne Ht Hg.
  unfold admin_extend. rewrite Hadm, Hid. simpl. fold e.
  assert (Hres1 : resolves (update_first (has_clientId (clientId c))
                              (set_expiresAt e) (clients st)) (set_expiresAt e c))
    by by apply resolves_update_by_id.
  destruct Hres1 as [_ Hkey].
  rewrite (requireClient_found t _ h g (set_expiresAt e c)) by done.
  unfold clientActive. simpl. rewrite Hen. simpl.
  destruct (Z.leb_spec e t); [lia|]. simpl.
  destruct Hg as [->|Hg]; [done|].
  rewrite bool_decide_eq_true_2 by done. by rewrite andb_false_r.
Qed.

Lemma extend_reactivates_witness :
  requireClient 5000
    (clients (admin_extend (mkConfig "" "" "") 5000 (mkHeaders None None None)
                "c1" "M1"
                (mkState [mkClient "c1" "Bob" "G1" "K1" true 0 1000 "S1"]
                   (mkCopier 1 []) ∅)).2)
    (mkHeaders (Some "K1") None None) "G1"
  = inr (mkClient "c1" "Bob" "G1" "K1" true 0 (5000 + 31 * 86400000) "S1").
Proof.
  assert (Hk : "K1" <> "") by discriminate.
  assert (Ht : 5000 < Z.max 5000 1000 + addDurationMs "M1") by (vm_compute; reflexivity).
  exact (proj2 (extend_reactivates (mkConfig "" "" "") 5000
                  (mkHeaders None None None) "M1"
                  (mkState [mkClient "c1" "Bob" "G1" "K1" true 0 1000 "S1"]
                     (mkCopier 1 []) ∅)
                  (mkClient "c1" "Bob" "G1" "K1" true 0 1000 "S1")
                  eq_refl (conj eq_refl eq_refl) eq_refl)
               5000 (mkHeaders (Some "K1") None None) "G1" eq_refl Hk Ht
               (or_intror eq_refl)).
Defined.

(** X8. After an admitted resetBind of an active client, whatever
    slaveId it was bound to, a registerSlave with the client's key and
    group and any slaveId succeeds and binds the client to that slaveId. *)
Theorem resetBind_then_register (cfg : Config) (req : headers) (st : State)
    (c : Client) (now seen : Z) (h : headers) (s : string) :
  adminOk cfg req = true -> resolves (clients st) c ->
  enabled c = true -> now < expiresAt c -> groupId c <> "" -> s <> "" ->
  trim (header_or_empty (x_api_key h)) = apiKey c -> apiKey c <> "" ->
  let st1 := (admin_resetBind cfg req (clientId c) st).2 in
  findClientByApiKey (clients st1) (apiKey c) = Some (set_boundSlaveId "" c) /\
  (copier_registerSlave now seen h (groupId c) s st1).1 = ok (OkBound s) /\
  findClientByApiKey
    (clients (copier_registerSlave now seen h (groupId c) s st1).2) (apiKey c)
  = Some (set_boundSlaveId s c).
Proof.
  intros Hadm Hres Hen Hexp Hg Hs Hh Hne st1. pose proof Hres as [Hid _].
  assert (Hst1 : clients st1 = update_first (has_clientId (clientId c))
                                 (set_boundSlaveId "") (clients st)).
  { subst st1. unfold admin_resetBind. by rewrite Hadm, Hid. }
  assert (Hres1 : resolves (clients st1) (set_boundSlaveId "" c)).
  { rewrite Hst1. by apply resolves_update_by_id. }
  destruct Hres1 as [_ Hkey]. simpl in Hkey. split; [done|].
  assert (Hreq : requireClient now (clients st1) h (groupId c)
                 = inr (set_boundSlaveId "" c)).
  { rewrite (requireClient_found now _ h (groupId c) (set_boundSlaveId "" c)) by done.
    unfold clientActive. simpl. rewrite Hen. simpl.
    destruct (Z.leb_spec (expiresAt c) now); [lia|]. simpl.
    rewrite bool_decide_eq_true_2 by done. by rewrite andb_false_r. }
  rewrite (copier_registerSlave_bind _ _ _ _ _ _ _ Hg Hs Hreq). simpl.
  split; [done|]. unfold findClientByApiKey in *.
  rewrite js_find_update_first by done. rewrite Hkey. by destruct c.
Qed.

Lemma resetBind_then_register_witness :
  (copier_registerSlave 5 6 (mkHeaders (Some "K1") None None) "G1" "S2"
     (admin_resetBind (mkConfig "" "" "") (mkHeaders None None None) "c1"
        (mkState [mkClient "c1" "Bob" "G1" "K1" true 0 1000 "S1"]
           (mkCopier 1 []) ∅)).2).1
  = ok (OkBound "S2").
Proof.
  assert (Hk : "K1" <> "") by discriminate.
  assert (Hg : "G1" <> "") by discriminate.
  assert (Hs : "S2" <> "") by discriminate.
  assert (Ht : 5 < 1000) by lia.
  exact (proj1 (proj2 (resetBind_then_register (mkConfig "" "" "")
                         (mkHeaders None None None)
                         (mkState [mkClient "c1" "Bob" "G1" "K1" true 0 1000 "S1"]
                            (mkCopier 1 []) ∅)
                         (mkClient "c1" "Bob" "G1" "K1" true 0 1000 "S1")
                         5 6 (mkHeaders (Some "K1") None None) "S2"
                         eq_refl (conj eq_refl eq_refl) eq_refl Ht Hg Hs eq_refl Hk))).
Defined.

(** X9. An admitted delete always answers ok, also when no client has
    the clientId (then nothing changes).  It removes every client with
    that clientId and no other: afterwards the id finds no client, the
    other ids find what they found, and an apiKey that found a client
    with another id still finds it. *)
Theorem delete_removes (cfg : Config) (req : headers) (id : string) (st : State) :
  adminOk cfg req = true ->
  (admin_delete cfg req id st).1 = ok Ok /\
  (forall c, c ∈ clients (admin_delete cfg req id st).2
             <-> c ∈ clients st /\ clientId c <> id) /\
  findClientById (clients (admin_delete cfg req id st).2) id = None /\
  (forall i, i <> id ->
             findClientById (clients (admin_delete cfg req id st).2) i
             = findClientById (clients st) i) /\
  (forall k c, findClientByApiKey (clients st) k = Some c -> clientId c <> id ->
               findClientByApiKey (clients (admin_delete cfg req id st).2) k = Some c) /\
  (findClientById (clients st) id = None -> (admin_delete cfg req id st).2 = st).
Proof.
  intros Hadm. unfold admin_delete. rewrite Hadm. simpl.
  split; [done|]. split; [|split; [|split; [|split]]].
  - intros c. rewrite list_elem_of_filter. tauto.
  - apply js_find_filter_out. intros x Hx. unfold has_clientId in Hx.
    apply bool_decide_eq_true in Hx. tauto.
  - intros i Hi. apply js_find_filter. intros x Hx. unfold has_clientId in Hx.
    apply bool_decide_eq_true in Hx. congruence.
  - intros k c Hf Hc. unfold findClientByApiKey in *.
    induction (clients st) as [|y l IH]; [done|].
    rewrite filter_cons. simpl in Hf. destruct (has_apiKey k y) eqn:Ek.
    + injection Hf as ->. rewrite decide_True by done. simpl. by rewrite Ek.
    + destruct (decide (clientId y <> id)); simpl; [rewrite Ek|]; by apply IH.
  - intros Hnone. destruct st as [cs co sl]. unfold with_clients. simpl in *.
    f_equal. unfold findClientById in Hnone.
    induction cs as [|y l IH]; [done|].
    simpl in Hnone. destruct (has_clientId id y) eqn:Ey; [done|].
    unfold has_clientId in Ey. apply bool_decide_eq_false in Ey.
    rewrite filter_cons, decide_True by done. f_equal. by apply IH.
Qed.

Lemma delete_removes_witness :
  findClientById
    (clients (admin_delete (mkConfig "" "" "") (mkHeaders None None None) "c1"
                (mkState [mkClient "c1" "Bob" "G1" "K1" true 0 1000 "S1";
                          mkClient "c2" "Eve" "G1" "K2" true 0 1000 ""]
                   (mkCopier 1 []) ∅)).2) "c2"
  = Some (mkClient "c2" "Eve" "G1" "K2" true 0 1000 "").
Proof.
  assert (Hne : "c2" <> "c1") by discriminate.
  destruct (delete_removes (mkConfig "" "" "") (mkHeaders None None None) "c1"
              (mkState [mkClient "c1" "Bob" "G1" "K1" true 0 1000 "S1";
                        mkClient "c2" "Eve" "G1" "K2" true 0 1000 ""]
                 (mkCopier 1 []) ∅) eq_refl) as (_ & _ & _ & H & _).
  rewrite (H "c2" Hne). reflexivity.
Defined.

(** ** Client registry: what every stored client satisfies *)

Lemma Forall_update_first {A : Type} (P : A -> Prop) (p : A -> bool) (f : A -> A)
    (l : list A) :
  Forall P l -> (forall x, js_find p l = Some x -> P x -> P (f x)) ->
  Forall P (update_first p f l).
Proof.
  induction 1 as [|y l Hy Hl IH]; simpl; intros Hf; [constructor|].
  destruct (p y) eqn:Ep.
  - constructor; [|done]. by apply Hf.
  - constructor; [done|]. apply IH. intros x Hx. by apply Hf.
Qed.

Lemma handle_clients_ok (cfg : Config) (t : Clock) (r : request) (st : State) :
  Forall client_ok (clients st) -> Forall client_ok (clients (handle cfg t r st).2).
Proof.
  intros Hok.
  assert (Hbind : forall k s, Forall client_ok
            (update_first (has_apiKey k) (set_boundSlaveId s) (clients st))).
  { intros k s. by apply Forall_update_first. }
  destruct r as [req b|req g s|req g s since lim|req g s e a|req
                |req f g d i k|req i en|req i d|req i|req i]; simpl.
  - by destruct (copier_push_cases cfg (now0 t) req b st) as [[-> _]|[->| ->]].
  - unfold copier_registerSlave. handler_cases; done.
  - unfold copier_events. handler_cases; done.
  - by destruct (copier_ack_frame (now0 t) (now1 t) req g s e a st) as [-> _].
  - unfold admin_clients. handler_cases; done.
  - unfold admin_add. destruct (negb _); [done|].
    destruct (str_empty (trim f)) eqn:Hf; [done|].
    destruct (str_empty (trim g)) eqn:Hg; [done|]. simpl.
    apply Forall_app. split; [done|]. constructor; [|constructor].
    apply str_empty_false in Hf, Hg. repeat split; simpl; try done.
    pose proof (addDurationMs_lower (trim d)). lia.
  - unfold admin_disable. handler_cases; try done. by apply Forall_update_first.
  - unfold admin_extend. destruct (negb _); [done|].
    destruct (findClientById (clients st) i) as [c|] eqn:Hf; [|done]. simpl.
    apply Forall_update_first; [done|].
    intros x Hx (Hn & Hg & Hc). unfold findClientById in Hf.
    rewrite Hf in Hx. injection Hx as <-. repeat split; simpl; try done.
    pose proof (addDurationMs_lower d). pose proof day_ms. lia.
  - unfold admin_resetBind. handler_cases; try done. by apply Forall_update_first.
  - unfold admin_delete. handler_cases; try done.
    rewrite Forall_forall in *. intros x [_ Hx]%list_elem_of_filter. by apply Hok.
Qed.

(** X10. In every state the server reaches from its empty registry,
    each client has a fullName and a groupId that are not empty and an
    expiry at least 31 days after its creation: add establishes it and
    no handler breaks it. *)
Theorem reachable_clients_ok (cfg : Config) (st : State) :
  reachable cfg st -> Forall client_ok (clients st).
Proof.
  induction 1 as [|t r st _ IH]; [constructor | by apply handle_clients_ok].
Qed.

Lemma reachable_clients_ok_witness :
  Forall client_ok
    (clients (handle (mkConfig "" "" "") (mkClock 10 10 10)
                (AdminAdd (mkHeaders None None None) "Bob" "G1" "Y1" "c1" "K1")
                init_state).2).
Proof.
  apply (reachable_clients_ok (mkConfig "" "" "")).
  apply reach_step. apply reach_init.
Defined.

(** ** Slave directory: who writes what *)

Lemma cursor_of_touch (seen : Z) (m : gmap string SlaveRec) (k0 k : string) :
  cursor_of (touch_slave seen k0 m) k = cursor_of m k.
Proof.
  unfold cursor_of at 1. destruct (decide (k0 = k)) as [->|Hne].
  - by rewrite touch_slave_lookup.
  - rewrite touch_slave_lookup_ne by done. done.
Qed.

Lemma cursor_of_ack_ne (seen : Z) (m : gmap string SlaveRec) (k0 k : string)
    (e : number) :
  k0 <> k -> cursor_of (ack_slave seen k0 e m) k = cursor_of m k.
Proof.
  intros Hne. unfold cursor_of. by rewrite ack_slave_lookup_ne.
Qed.

Lemma failed_push_slaves (cfg : Config) (t : Clock) (r : request) (st : State) :
  is_push r = true ->
  slaves (handle cfg t r st).2 = slaves st /\
  clients (handle cfg t r st).2 = clients st.
Proof.
  destruct r as [req b| | | | | | | | |]; try done. intros _. simpl.
  by destruct (copier_push_cases cfg (now0 t) req b st) as [[-> _]|[->| ->]].
Qed.

(** What a successful registerSlave and a successful events went
    through. *)
Lemma copier_registerSlave_200 (now seen : Z) (req : headers) (g s : string)
    (st : State) :
  status (copier_registerSlave now seen req g s st).1 = 200 ->
  g <> "" /\ s <> "" /\
  exists c, requireClient now (clients st) req g = inr c /\
            (boundSlaveId c = "" \/ boundSlaveId c = s) /\
            slaves (copier_registerSlave now seen req g s st).2
            = touch_slave seen (slaveKey g s) (slaves st).
Proof.
  unfold copier_registerSlave.
  destruct (str_empty g) eqn:Hg; [done|].
  destruct (str_empty s) eqn:Hs; [done|]. simpl.
  apply str_empty_false in Hg, Hs.
  destruct (requireClient now (clients st) req g) as [r|c] eqn:Hreq.
  { intros H200. exfalso.
    destruct (requireClient_inl_status _ _ _ _ _ Hreq) as [Hc|Hc];
      by apply category_not_200 in Hc. }
  destruct (str_empty (boundSlaveId c)) eqn:Hb; simpl.
  - intros _. apply str_empty_true in Hb. split; [done|]. split; [done|].
    exists c. auto.
  - case_bool_decide as Hbs; simpl; [|done].
    intros _. split; [done|]. split; [done|]. exists c. auto.
Qed.

Lemma copier_events_200_client (now seen sent : Z) (req : headers) (g s : string)
    (since limit_raw : number) (st : State) :
  status (copier_events now seen sent req g s since limit_raw st).1 = 200 ->
  g <> "" /\ s <> "" /\
  exists c, requireClient now (clients st) req g = inr c /\
            (boundSlaveId c = "" \/ boundSlaveId c = s) /\
            slaves (copier_events now seen sent req g s since limit_raw st).2
            = touch_slave seen (slaveKey g s) (slaves st).
Proof.
  unfold copier_events.
  destruct (str_empty g) eqn:Hg; [done|].
  destruct (str_empty s) eqn:Hs; [done|]. simpl.
  apply str_empty_false in Hg, Hs.
  destruct (requireClient now (clients st) req g) as [r|c] eqn:Hreq.
  { intros H200. exfalso.
    destruct (requireClient_inl_status _ _ _ _ _ Hreq) as [Hc|Hc];
      by apply category_not_200 in Hc. }
  destruct (str_empty (boundSlaveId c)) eqn:Hb; simpl.
  - intros _. apply str_empty_true in Hb. split; [done|]. split; [done|].
    exists c. auto.
  - case_bool_decide as Hbs; simpl; [|done].
    intros _. split; [done|]. split; [done|]. exists c. auto.
Qed.

(** What one request does to the directory: nothing, the touch of one
    record by a successful registerSlave or events, or the ack of one
    record by a successful ack. *)
Lemma handle_slaves_cases (cfg : Config) (t : Clock) (r : request) (st : State) :
  slaves (handle cfg t r st).2 = slaves st \/
  (exists g s, touch_target r = Some (g, s) /\
               status (handle cfg t r st).1 = 200 /\
               slaves (handle cfg t r st).2
               = touch_slave (now1 t) (slaveKey g s) (slaves st)) \/
  (exists k e, ack_target r = Some (k, e) /\ e <> NaN /\
               status (handle cfg t r st).1 = 200 /\
               slaves (handle cfg t r st).2 = ack_slave (now1 t) k e (slaves st)).
Proof.
  destruct (decide (status (handle cfg t r st).1 = 200)) as [H200|Hfail].
  2:{ left. destruct (is_push r) eqn:Hp.
      - by destruct (failed_push_slaves cfg t r st Hp).
      - by rewrite handle_failed_same. }
  revert H200.
  destruct r as [req b|req g s|req g s since lim|req g s e a|req
                |req f g d i k|req i en|req i d|req i|req i]; simpl.
  - intros _. left.
    by destruct (copier_push_cases cfg (now0 t) req b st) as [[-> _]|[->| ->]].
  - intros H200. right. left. exists g, s. split; [done|]. split; [done|].
    by destruct (copier_registerSlave_200 _ _ _ _ _ _ H200) as (_ & _ & c & _ & _ & ?).
  - intros H200. right. left. exists g, s. split; [done|]. split; [done|].
    by destruct (copier_events_200_client _ _ _ _ _ _ _ _ _ H200)
      as (_ & _ & c & _ & _ & ?).
  - intros H200. right. right.
    destruct (copier_ack_200 _ _ _ _ _ _ _ _ H200) as (_ & _ & He & _ & _ & Heq).
    exists (slaveKey g s), e. split; [done|].
    split; [by apply num_truthy_not_NaN|]. split; [done|]. by rewrite Heq.
  - intros _. left. unfold admin_clients. handler_cases; done.
  - intros _. left. unfold admin_add. handler_cases; done.
  - intros _. left. unfold admin_disable. handler_cases; done.
  - intros _. left. unfold admin_extend. handler_cases; done.
  - intros _. left. unfold admin_resetBind. handler_cases; done.
  - intros _. left. unfold admin_delete. handler_cases; done.
Qed.

(** X11. A successful registerSlave or events for (group, slaveId)
    writes one cursor record, the one under [slaveKey group slaveId]:
    its [lastSeenAt] becomes the time of the write and its [lastAckId]
    stays (0 for a record it creates); no other record changes.  The
    request carries the key of a client that [requireClient] admits for
    that group: the group is the group of that client, and the slaveId
    is the one that client, found by the key of the request, is bound to
    afterwards. *)
Theorem touch_one_record (cfg : Config) (t : Clock) (r : request) (st : State)
    (req : headers) (g s : string) :
  bind_request r = Some (req, g, s) -> status (handle cfg t r st).1 = 200 ->
  slaves (handle cfg t r st).2 !! slaveKey g s
  = Some (mkSlaveRec (cursor_of (slaves st) (slaveKey g s)) (now1 t)) /\
  (forall k, k <> slaveKey g s ->
             slaves (handle cfg t r st).2 !! k = slaves st !! k) /\
  exists c,
    requireClient (now0 t) (clients st) req g = inr c /\
    apiKey c = trim (header_or_empty (x_api_key req)) /\
    groupId c = g /\
    (boundSlaveId c = "" \/ boundSlaveId c = s) /\
    findClientByApiKey (clients (handle cfg t r st).2)
      (trim (header_or_empty (x_api_key req)))
    = Some (mkClient (clientId c) (fullName c) (groupId c) (apiKey c) (enabled c)
              (createdAt c) (expiresAt c) s).
Proof.
  intros Ht H200.
  assert (Hcore : slaves (handle cfg t r st).2
                  = touch_slave (now1 t) (slaveKey g s) (slaves st) /\
                  g <> "" /\
                  exists c, requireClient (now0 t) (clients st) req g = inr c /\
                            (boundSlaveId c = "" \/ boundSlaveId c = s) /\
                            findClientByApiKey (clients (handle cfg t r st).2) (apiKey c)
                            = Some (set_boundSlaveId s c)).
  { destruct r as [|req0 g0 s0|req0 g0 s0 since lim| | | | | | |]; try done;
      simpl in Ht; injection Ht as -> -> ->; simpl in *.
    - destruct (copier_registerSlave_200 _ _ _ _ _ _ H200)
        as (Hg & Hs & c & Hreq & Hb & Hsl).
      split; [done|]. split; [done|]. exists c. split; [done|]. split; [done|].
      pose proof (requireClient_apiKey _ _ _ _ _ Hreq) as Hf.
      rewrite (copier_registerSlave_bind _ _ _ _ _ _ c) by done.
      unfold findClientByApiKey in *. destruct Hb as [Hb|Hb].
      + rewrite Hb. simpl. rewrite js_find_update_first by done. by rewrite Hf.
      + apply str_empty_false in Hs. rewrite Hb, Hs.
        rewrite bool_decide_eq_true_2 by done. simpl. rewrite Hf.
        f_equal. destruct c. simpl in *. by subst.
    - destruct (copier_events_200_client _ _ _ _ _ _ _ _ _ H200)
        as (Hg & Hs & c & Hreq & Hb & Hsl).
      split; [done|]. split; [done|]. exists c. split; [done|]. split; [done|].
      pose proof (requireClient_apiKey _ _ _ _ _ Hreq) as Hf.
      rewrite (copier_events_bind _ _ _ _ _ _ _ _ _ c) by done.
      unfold findClientByApiKey in *. destruct Hb as [Hb|Hb].
      + rewrite Hb. simpl. rewrite js_find_update_first by done. by rewrite Hf.
      + apply str_empty_false in Hs. rewrite Hb, Hs.
        rewrite bool_decide_eq_true_2 by done. simpl. rewrite Hf.
        f_equal. destruct c. simpl in *. by subst. }
  destruct Hcore as (Hsl & Hg & c & Hreq & Hb & Hf).
  rewrite Hsl. split; [apply touch_slave_lookup|]. split.
  - intros k Hk. by apply touch_slave_lookup_ne.
  - exists c. pose proof Hreq as (_ & _ & _ & _ & Hgrp)%requireClient_inr.
    pose proof (requireClient_key _ _ _ _ _ Hreq) as Hkey.
    split; [done|]. split; [done|]. split; [by destruct Hgrp|]. split; [done|].
    by rewrite <- Hkey.
Qed.

Lemma touch_one_record_witness :
  slaves
    (handle (mkConfig "" "" "") (mkClock 5 6 7)
       (RegisterSlave (mkHeaders (Some "K1") None None) "G1" "S1")
       (mkState [mkClient "c1" "Bob" "G1" "K1" true 0 1000 ""] (mkCopier 1 []) ∅)).2
    !! slaveKey "G1" "S1"
  = Some (mkSlaveRec (Int 0) 6) /\
  findClientByApiKey
    (clients
       (handle (mkConfig "" "" "") (mkClock 5 6 7)
          (RegisterSlave (mkHeaders (Some "K1") None None) "G1" "S1")
          (mkState [mkClient "c1" "Bob" "G1" "K1" true 0 1000 ""] (mkCopier 1 []) ∅)).2)
    "K1"
  = Some (mkClient "c1" "Bob" "G1" "K1" true 0 1000 "S1").
Proof.
  destruct (touch_one_record (mkConfig "" "" "") (mkClock 5 6 7)
              (RegisterSlave (mkHeaders (Some "K1") None None) "G1" "S1")
              (mkState [mkClient "c1" "Bob" "G1" "K1" true 0 1000 ""]
                 (mkCopier 1 []) ∅)
              (mkHeaders (Some "K1") None None) "G1" "S1" eq_refl eq_refl)
    as (Hrec & _ & c & Hreq & _ & _ & _ & Hf).
  split; [exact Hrec|].
  vm_compute in Hreq. injection Hreq as <-. exact Hf.
Defined.

(** One request: records stay and, with no [NaN] stored, no
    [lastAckId] goes down. *)
Lemma lastAckId_step (cfg : Config) (t : Clock) (r : request) (st : State)
    (k : string) :
  (is_Some (slaves st !! k) -> is_Some (slaves (handle cfg t r st).2 !! k)) /\
  (cursors_ok (slaves st) ->
   num_leb (cursor_of (slaves st) k) (cursor_of (slaves (handle cfg t r st).2) k)
   = true).
Proof.
  destruct (handle_slaves_cases cfg t r st)
    as [->|[(g & s & _ & _ & ->)|(k0 & e & Ha & He & H200 & ->)]].
  - split; [done|]. intros Hok. by apply num_leb_refl, cursor_of_ok.
  - split.
    + intros Hk. destruct (decide (slaveKey g s = k)) as [<-|Hne].
      * by rewrite touch_slave_lookup.
      * by rewrite touch_slave_lookup_ne.
    + intros Hok. rewrite cursor_of_touch. by apply num_leb_refl, cursor_of_ok.
  - split.
    + intros Hk. destruct (decide (k0 = k)) as [<-|Hne].
      * by rewrite ack_slave_lookup.
      * by rewrite ack_slave_lookup_ne.
    + intros Hok. destruct (decide (k0 = k)) as [<-|Hne].
      * rewrite cursor_of_ack by done.
        apply Math_max_ub_l; [by apply cursor_of_ok | done].
      * rewrite cursor_of_ack_ne by done. by apply num_leb_refl, cursor_of_ok.
Qed.

(** X12. No request removes a cursor record, and the only request that
    changes the [lastAckId] read for a key is a successful ack for that
    key; registerSlave and events, which create and touch records, leave
    every [lastAckId] as it is.  With no [NaN] stored, the [lastAckId]
    of a key after a request is at least what it was before. *)
Theorem lastAckId_only_by_ack (cfg : Config) (t : Clock) (r : request) (st : State)
    (k : string) :
  (is_Some (slaves st !! k) -> is_Some (slaves (handle cfg t r st).2 !! k)) /\
  (cursor_of (slaves (handle cfg t r st).2) k <> cursor_of (slaves st) k ->
   exists e, ack_target r = Some (k, e) /\ status (handle cfg t r st).1 = 200) /\
  (cursors_ok (slaves st) ->
   num_leb (cursor_of (slaves st) k) (cursor_of (slaves (handle cfg t r st).2) k)
   = true).
Proof.
  destruct (lastAckId_step cfg t r st k) as [Hsome Hle].
  split; [done|]. split; [|done].
  destruct (handle_slaves_cases cfg t r st)
    as [->|[(g & s & _ & _ & ->)|(k0 & e & Ha & He & H200 & ->)]].
  - done.
  - by rewrite cursor_of_touch.
  - intros Hch. destruct (decide (k0 = k)) as [<-|Hne]; [by exists e|].
    by rewrite cursor_of_ack_ne in Hch.
Qed.

Lemma lastAckId_only_by_ack_witness :
  num_leb
    (cursor_of (∅ : gmap string SlaveRec) "G1|S1")
    (cursor_of
       (slaves
          (handle (mkConfig "" "" "") (mkClock 5 6 7)
             (Ack (mkHeaders (Some "K1") None None) "G1" "S1" (Int 3) "DONE")
             (mkState [mkClient "c1" "Bob" "G1" "K1" true 0 1000 ""] (mkCopier 1 [])
                ∅)).2) "G1|S1")
  = true.
Proof.
  assert (Hok : cursors_ok (∅ : gmap string SlaveRec)).
  { intros k r Hk. by rewrite lookup_empty in Hk. }
  exact (proj2 (proj2 (lastAckId_only_by_ack (mkConfig "" "" "") (mkClock 5 6 7)
                  (Ack (mkHeaders (Some "K1") None None) "G1" "S1" (Int 3) "DONE")
                  (mkState [mkClient "c1" "Bob" "G1" "K1" true 0 1000 ""]
                     (mkCopier 1 []) ∅)
                  "G1|S1")) Hok).
Defined.

(** X13. Along any sequence of requests served from a state with no
    [NaN] stored, the [lastAckId] read for any key never decreases, and
    a record that exists keeps existing. *)
Theorem cursor_never_decreases (cfg : Config) (rs : list (Clock * request))
    (st : State) (k : string) :
  cursors_ok (slaves st) ->
  num_leb (cursor_of (slaves st) k) (cursor_of (slaves (run cfg rs st).2) k) = true /\
  (is_Some (slaves st !! k) -> is_Some (slaves (run cfg rs st).2 !! k)) /\
  cursors_ok (slaves (run cfg rs st).2).
Proof.
  revert st. induction rs as [|[t r] rs IH]; intros st Hok.
  - simpl. split; [by apply num_leb_refl, cursor_of_ok | done].
  - rewrite run_cons. simpl.
    pose proof (handle_cursors_ok cfg t r st Hok) as Hok1.
    destruct (IH _ Hok1) as (Hle & Hsome & Hok2).
    destruct (lastAckId_step cfg t r st k) as (Hs1 & Hle1).
    split; [|split; [|done]].
    + eapply num_leb_trans; [by apply Hle1 | done].
    + intros Hk. by apply Hsome, Hs1.
Qed.

Lemma cursor_never_decreases_witness :
  num_leb (Int 0)
    (cursor_of
       (slaves
          (run (mkConfig "" "" "")
             [(mkClock 5 6 7,
               Ack (mkHeaders (Some "K1") None None) "G1" "S1" (Int 3) "DONE")]
             (mkState [mkClient "c1" "Bob" "G1" "K1" true 0 1000 ""]
                (mkCopier 1 []) ∅)).2) "G1|S1")
  = true.
Proof.
  assert (Hok : cursors_ok (∅ : gmap string SlaveRec)).
  { intros k r Hk. by rewrite lookup_empty in Hk. }
  exact (proj1 (cursor_never_decreases (mkConfig "" "" "")
                   [(mkClock 5 6 7,
                     Ack (mkHeaders (Some "K1") None None) "G1" "S1" (Int 3) "DONE")]
                   (mkState [mkClient "c1" "Bob" "G1" "K1" true 0 1000 ""]
                      (mkCopier 1 []) ∅) "G1|S1" Hok)).
Defined.

(** ** Slave directory: keys *)

Lemma slaveKey_nil (s : string) : slaveKey "" s = String "|"%char s.
Proof. reflexivity. Qed.

Lemma slaveKey_cons (a : ascii) (g s : string) :
  slaveKey (String a g) s = String a (slaveKey g s).
Proof. reflexivity. Qed.

Lemma slaveKey_inj (g s g' s' : string) :
  no_bar g = true -> no_bar g' = true ->
  slaveKey g s = slaveKey g' s' -> g = g' /\ s = s'.
Proof.
  revert g'.
  induction g as [|a g IH]; intros [|a' g']; simpl; intros Hg Hg';
    rewrite ?slaveKey_nil, ?slaveKey_cons; intros Heq.
  - by injection Heq as ->.
  - injection Heq as <- _. done.
  - injection Heq as -> _. done.
  - injection Heq as -> Heq.
    apply andb_true_iff in Hg as [_ Hg]. apply andb_true_iff in Hg' as [_ Hg'].
    destruct (IH g' Hg Hg' Heq) as [-> ->]. done.
Qed.

(** X14. [slaveKey] tells two (group, slaveId) pairs apart when the
    groups hold no bar: then a successful ack for one pair leaves the
    cursor record of every other pair as it is.  Groups with a bar can
    collide: ("a|b", "c") and ("a", "b|c") share one key, hence one
    record. *)
Theorem ack_other_pair (now seen : Z) (req : headers) (g s g' s' : string)
    (e : number) (a : string) (st : State) :
  (no_bar g = true -> no_bar g' = true -> (g, s) <> (g', s') ->
   status (copier_ack now seen req g s e a st).1 = 200 ->
   slaves (copier_ack now seen req g s e a st).2 !! slaveKey g' s'
   = slaves st !! slaveKey g' s') /\
  slaveKey "a|b" "c" = slaveKey "a" "b|c".
Proof.
  split; [|done]. intros Hg Hg' Hne H200.
  destruct (copier_ack_200 _ _ _ _ _ _ _ _ H200) as (_ & _ & _ & _ & _ & ->).
  simpl. apply ack_slave_lookup_ne. intros Hk.
  apply slaveKey_inj in Hk as [-> ->]; done.
Qed.

Lemma ack_other_pair_witness :
  slaves
    (copier_ack 5 6 (mkHeaders (Some "K1") None None) "G1" "S1" (Int 3) "DONE"
       (mkState [mkClient "c1" "Bob" "G1" "K1" true 0 1000 ""] (mkCopier 1 []) ∅)).2
    !! slaveKey "G1" "S2"
  = (∅ : gmap string SlaveRec) !! slaveKey "G1" "S2".
Proof.
  assert (Hne : ("G1", "S1") <> ("G1", "S2")) by discriminate.
  exact (proj1 (ack_other_pair 5 6 (mkHeaders (Some "K1") None None)
                  "G1" "S1" "G1" "S2" (Int 3) "DONE"
                  (mkState [mkClient "c1" "Bob" "G1" "K1" true 0 1000 ""]
                     (mkCopier 1 []) ∅))
               eq_refl eq_refl Hne eq_refl).
Defined.

(** ** Event log: what a poll returns *)

Lemma scan_events_take (group : string) (since : number) (L : Z)
    (evs out : list Event) :
  Z.of_nat (length out) < L ->
  scan_events group since (Int L) evs out
  = (out ++ take (Z.to_nat (L - Z.of_nat (length out)))
              (filter (fun ev => wanted group since ev = true) evs))%list.
Proof.
  revert out. induction evs as [|ev evs IH]; intros out Hout; cbn [scan_events].
  - by rewrite filter_nil, take_nil, app_nil_r.
  - rewrite filter_cons.
    destruct (wanted group since ev) eqn:Hw; unfold wanted in Hw.
    + apply andb_true_iff in Hw as [Hg Hs]. apply negb_true_iff in Hs.
      rewrite Hg, Hs. cbn [negb]. rewrite decide_True by done.
      unfold num_geb. rewrite num_leb_Int, length_app. simpl.
      destruct (Z.leb_spec L (Z.of_nat (length out + 1))) as [Hge|Hlt].
      * replace (Z.to_nat (L - Z.of_nat (length out))) with 1%nat by lia.
        simpl. by rewrite take_0.
      * rewrite IH by (rewrite length_app; simpl; lia).
        rewrite length_app. simpl. rewrite <- app_assoc. simpl.
        replace (Z.to_nat (L - Z.of_nat (length out)))
          with (S (Z.to_nat (L - Z.of_nat (length out + 1)))) by lia.
        done.
    + rewrite decide_False by done.
      destruct (bool_decide (ev_group ev = group)); cbn [negb]; [|by apply IH].
      cbn [andb] in Hw. apply negb_false_iff in Hw. rewrite Hw. by apply IH.
Qed.

(** X15. With an integer for the limit, whatever [since] is, a
    successful events returns the first [n'] events of the log that are
    of the requested group and not at or below [since], in the order of
    the log, where [n'] is the limit clamped to [1, 500]; the log and
    every [lastAckId] are as before. *)
Theorem events_first_page (now seen sent : Z) (req : headers) (g s : string)
    (since : number) (n : Z) (st : State) :
  status (copier_events now seen sent req g s since (Int n) st).1 = 200 ->
  polled (copier_events now seen sent req g s since (Int n) st).1
  = take (Z.to_nat (Z.max 1 (Z.min 500 n)))
         (filter (fun ev => wanted g since ev = true) (events (copier st))) /\
  copier (copier_events now seen sent req g s since (Int n) st).2 = copier st /\
  forall k, cursor_of (slaves (copier_events now seen sent req g s since (Int n) st).2) k
            = cursor_of (slaves st) k.
Proof.
  intros H200. split; [|split].
  - rewrite (copier_events_200 _ _ _ _ _ _ _ _ _ H200). unfold polled. simpl.
    rewrite clamp_limit_Int, scan_events_take by (simpl; lia).
    simpl. by rewrite Z.sub_0_r.
  - by destruct (handle_not_push (mkConfig "" "" "") (mkClock now seen sent)
                   (PollEvents req g s since (Int n)) st eq_refl).
  - intros k.
    destruct (copier_events_200_client _ _ _ _ _ _ _ _ _ H200)
      as (_ & _ & c & _ & _ & ->).
    apply cursor_of_touch.
Qed.

Lemma events_first_page_witness :
  polled
    (copier_events 5 6 7 (mkHeaders (Some "K1") None None) "G1" "S1" (Int 1) (Int 2)
       (mkState [mkClient "c1" "Bob" "G1" "K1" true 0 1000 ""]
          (mkCopier 5 (events_from "G1" 4 1)) ∅)).1
  = take 2 (events_from "G1" 3 2).
Proof.
  exact (proj1 (events_first_page 5 6 7 (mkHeaders (Some "K1") None None)
                  "G1" "S1" (Int 1) 2
                  (mkState [mkClient "c1" "Bob" "G1" "K1" true 0 1000 ""]
                     (mkCopier 5 (events_from "G1" 4 1)) ∅) eq_refl)).
Defined.

Lemma filter_none {A : Type} (P : A -> Prop) `{!forall x, Decision (P x)}
    (l : list A) :
  Forall (fun x => ~ P x) l -> filter P l = [].
Proof.
  induction 1 as [|x l Hx _ IH]; [done|]. by rewrite filter_cons_False.
Qed.

Lemma filter_all {A : Type} (P : A -> Prop) `{!forall x, Decision (P x)}
    (l : list A) :
  Forall P l -> filter P l = l.
Proof.
  induction 1 as [|x l Hx _ IH]; [done|]. rewrite filter_cons_True by done.
  by rewrite IH.
Qed.

(** Polling from the id of an event that was wanted: what is wanted
    then is what was wanted before and has a greater id. *)
Lemma wanted_after (g : string) (since : number) (m : Z) (ev : Event) :
  num_leb (Int m) since = false ->
  wanted g (Int m) ev = true <-> m < ev_id ev /\ wanted g since ev = true.
Proof.
  intros Hm. unfold wanted. rewrite !andb_true_iff, !negb_true_iff, num_leb_Int.
  rewrite Z.leb_gt. split.
  - intros [Hg Hlt]. split; [done|]. split; [done|].
    destruct (num_leb (Int (ev_id ev)) since) eqn:E; [|done].
    assert (Hle : num_leb (Int m) (Int (ev_id ev)) = true).
    { rewrite num_leb_Int. apply Z.leb_le. lia. }
    pose proof (num_leb_trans _ _ _ Hle E). congruence.
  - intros [Hlt [Hg _]]. done.
Qed.

(** In a log ordered by id, the events wanted after the last event of a
    page are the wanted events that follow the page. *)
Lemma wanted_after_page (g : string) (since : number) (evs : list Event)
    (n : nat) (e : Event) :
  StronglySorted Z.lt (ev_id <$> evs) ->
  last (take n (filter (fun ev => wanted g since ev = true) evs)) = Some e ->
  filter (fun ev => wanted g (Int (ev_id e)) ev = true) evs
  = drop n (filter (fun ev => wanted g since ev = true) evs).
Proof.
  intros Hsorted Hlast.
  set (W := filter (fun ev => wanted g since ev = true) evs) in *.
  assert (HW : StronglySorted Z.lt (ev_id <$> W)).
  { eapply StronglySorted_sublist; [|exact Hsorted].
    apply fmap_sublist, sublist_filter. }
  apply last_Some in Hlast as [l' Hl'].
  assert (He : wanted g since e = true).
  { assert (Hin : e ∈ W).
    { eapply elem_of_sublist; [|apply (sublist_take W n)].
      rewrite Hl'. apply elem_of_app. right. by left. }
    by apply list_elem_of_filter in Hin as [? _]. }
  assert (Hm : num_leb (Int (ev_id e)) since = false).
  { unfold wanted in He. apply andb_true_iff in He as [_ He].
    by apply negb_true_iff in He. }
  rewrite (list_filter_iff _ (fun ev => ev_id e < ev_id ev /\ wanted g since ev = true))
    by (intros ev; by apply wanted_after).
  rewrite <- (list_filter_filter (fun ev => ev_id e < ev_id ev)
                (fun ev => wanted g since ev = true)).
  fold W. rewrite <- (take_drop n W) at 1.
  rewrite <- (take_drop n W), fmap_app in HW.
  rewrite filter_app, filter_none, filter_all; [done| |].
  - apply Forall_forall. intros x Hx.
    apply (StronglySorted_app_1_elem_of _ _ _ (ev_id e) (ev_id x) HW).
    + apply list_elem_of_fmap_2. rewrite Hl'. apply elem_of_app. right. by left.
    + by apply list_elem_of_fmap_2.
  - apply Forall_forall. intros x Hx.
    apply StronglySorted_app_1_l in HW. rewrite Hl', fmap_app in HW.
    rewrite Hl' in Hx.
    apply elem_of_app in Hx as [Hx|Hx%list_elem_of_singleton].
    + assert (ev_id x < ev_id e); [|lia].
      apply (StronglySorted_app_1_elem_of _ _ _ _ _ HW).
      * by apply list_elem_of_fmap_2.
      * left.
    + subst. lia.
Qed.

(** X16. On a log ordered by id, polling page by page loses and repeats
    nothing: a page of at most [L1] events after [since], followed by a
    page of at most [L2] events after the id of the last event of the
    first, is the page of at most [L1 + L2] events after [since].  An
    empty page means that no event of the group is left after [since]. *)
Theorem poll_pages (g : string) (since : number) (L1 L2 : Z) (evs : list Event) :
  StronglySorted Z.lt (ev_id <$> evs) -> 1 <= L1 -> 1 <= L2 ->
  (forall e, last (scan_events g since (Int L1) evs []) = Some e ->
     (scan_events g since (Int L1) evs []
      ++ scan_events g (Int (ev_id e)) (Int L2) evs [])%list
     = scan_events g since (Int (L1 + L2)) evs []) /\
  (scan_events g since (Int L1) evs [] = [] ->
   forall ev, ev ∈ evs -> wanted g since ev = false).
Proof.
  intros Hsorted H1 H2.
  rewrite !scan_events_take by (simpl; lia). simpl. rewrite !Z.sub_0_r. split.
  - intros e He. rewrite scan_events_take by (simpl; lia). simpl.
    rewrite Z.sub_0_r.
    rewrite (wanted_after_page g since evs (Z.to_nat L1) e) by done.
    rewrite take_take_drop. f_equal. lia.
  - intros Hnil ev Hev. destruct (wanted g since ev) eqn:Hw; [|done]. exfalso.
    assert (Hin : ev ∈ filter (fun ev => wanted g since ev = true) evs)
      by by apply list_elem_of_filter.
    destruct (filter _ evs) as [|x l]; [by apply elem_of_nil in Hin|].
    replace (Z.to_nat L1) with (S (Z.to_nat (L1 - 1))) in Hnil by lia.
    done.
Qed.

Lemma poll_pages_witness :
  (scan_events "G1" (Int 0) (Int 2) (events_from "G1" 5 1) []
   ++ scan_events "G1" (Int 2) (Int 2) (events_from "G1" 5 1) [])%list
  = scan_events "G1" (Int 0) (Int (2 + 2)) (events_from "G1" 5 1) [].
Proof.
  assert (Hs : StronglySorted Z.lt (ev_id <$> events_from "G1" 5 1)).
  { vm_compute. repeat constructor. }
  assert (H1 : 1 <= 2) by lia.
  exact (proj1 (poll_pages "G1" (Int 0) 2 2 (events_from "G1" 5 1) Hs H1 H1)
               (mkEvent 2 "G1" "OPEN" 0 (Int 101) (Int 0) "EURUSD" (Int 0)
                  (Int 0) (Int 0) (Int 0) (Int 0) (Int 0)) eq_refl).
Defined.

(** X17. Whatever [since] and the limit are, numbers or not, the events
    of a successful events response are events of the log, in the order
    of the log, and all of the group of the client whose key the request
    carries: a client is never handed an event of another group. *)
Theorem events_own_group (now seen sent : Z) (req : headers) (g s : string)
    (since limit_raw : number) (st : State) :
  status (copier_events now seen sent req g s since limit_raw st).1 = 200 ->
  exists c,
    findClientByApiKey (clients st) (trim (header_or_empty (x_api_key req))) = Some c /\
    groupId c = g /\
    Forall (fun ev => ev_group ev = groupId c)
           (polled (copier_events now seen sent req g s since limit_raw st).1) /\
    polled (copier_events now seen sent req g s since limit_raw st).1
      `sublist_of` events (copier st).
Proof.
  intros H200.
  destruct (copier_events_200_client _ _ _ _ _ _ _ _ _ H200)
    as (Hg & _ & c & Hreq & _ & _).
  apply requireClient_inr in Hreq as (_ & Hf & _ & _ & Hgrp).
  exists c. split; [done|].
  assert (Hgc : groupId c = g) by by destruct Hgrp.
  split; [done|].
  rewrite (copier_events_200 _ _ _ _ _ _ _ _ _ H200). unfold polled. simpl.
  destruct (scan_events_picks g since (clamp_limit limit_raw)
              (events (copier st)) []) as (p & -> & Hsub & Hall).
  simpl. split; [|done].
  eapply Forall_impl; [exact Hall|]. simpl. intros ev Hw.
  unfold wanted in Hw. apply andb_true_iff in Hw as [Hw _].
  apply bool_decide_eq_true in Hw. congruence.
Qed.

Lemma events_own_group_witness :
  exists c,
    findClientByApiKey [mkClient "c1" "Bob" "G1" "K1" true 0 1000 ""] "K1" = Some c /\
    groupId c = "G1" /\
    Forall (fun ev => ev_group ev = groupId c)
      (polled
         (copier_events 5 6 7 (mkHeaders (Some "K1") None None) "G1" "S1" NaN NaN
            (mkState [mkClient "c1" "Bob" "G1" "K1" true 0 1000 ""]
               (mkCopier 4 (events_from "G2" 1 1 ++ events_from "G1" 2 2)%list) ∅)).1) /\
    polled
      (copier_events 5 6 7 (mkHeaders (Some "K1") None None) "G1" "S1" NaN NaN
         (mkState [mkClient "c1" "Bob" "G1" "K1" true 0 1000 ""]
            (mkCopier 4 (events_from "G2" 1 1 ++ events_from "G1" 2 2)%list) ∅)).1
    `sublist_of` (events_from "G2" 1 1 ++ events_from "G1" 2 2)%list.
Proof.
  exact (events_own_group 5 6 7 (mkHeaders (Some "K1") None None) "G1" "S1" NaN NaN
           (mkState [mkClient "c1" "Bob" "G1" "K1" true 0 1000 ""]
              (mkCopier 4 (events_from "G2" 1 1 ++ events_from "G1" 2 2)%list) ∅)
           eq_refl).
Defined.

Lemma scan_events_skip (g : string) (since limit : number) (l rest out : list Event) :
  Forall (fun ev => wanted g since ev = false) l ->
  scan_events g since limit (l ++ rest) out = scan_events g since limit rest out.
Proof.
  induction 1 as [|ev l Hev _ IH]; [done|]. simpl. unfold wanted in Hev.
  destruct (bool_decide (ev_group ev = g)); simpl in *; [|done].
  apply negb_false_iff in Hev. by rewrite Hev.
Qed.

Lemma scan_events_single (g : string) (since limit : number) (ev : Event) :
  wanted g since ev = true -> scan_events g since limit [ev] [] = [ev].
Proof.
  unfold wanted. intros [Hg Hs]%andb_true_iff. apply negb_true_iff in Hs.
  cbn [scan_events]. rewrite Hg, Hs. cbn [negb]. by destruct (num_geb _ _).
Qed.

(** X18. After a successful push with id [i] on an ordered log, a
    successful events for the group of the push with [since = i - 1]
    returns exactly the pushed event, whatever the limit, and with
    [since = i] it returns nothing. *)
Theorem push_then_poll (cfg : Config) (now : Z) (reqm : headers) (b : PushBody)
    (st : State) (i : Z) (now' seen sent : Z) (req : headers) (s : string)
    (limit_raw : number) :
  log_ok (copier st) ->
  pushed_id (copier_push cfg now reqm b st).1 = Some i ->
  let st1 := (copier_push cfg now reqm b st).2 in
  (status (copier_events now' seen sent req (b_group b) s (Int (i - 1)) limit_raw st1).1
   = 200 ->
   polled (copier_events now' seen sent req (b_group b) s (Int (i - 1)) limit_raw st1).1
   = [event_of now i b]) /\
  (status (copier_events now' seen sent req (b_group b) s (Int i) limit_raw st1).1
   = 200 ->
   polled (copier_events now' seen sent req (b_group b) s (Int i) limit_raw st1).1
   = []).
Proof.
  intros Hok Hp st1.
  assert (Hlog : exists kept, events (copier st1) = (kept ++ [event_of now i b])%list /\
                              Forall (fun ev => ev_id ev < i) kept).
  { subst st1.
    destruct (copier_push_cases cfg now reqm b st) as [[_ Hn]|[Hm|Ha]].
    - congruence.
    - rewrite Hm in Hp. discriminate.
    - rewrite Ha in *. unfold pushed_id in Hp. simpl in Hp. injection Hp as <-.
      simpl.
      set (c1 := mkCopier (nextId (copier st) + 1)
                   (events (copier st) ++ [event_of now (nextId (copier st)) b])%list).
      pose proof (saveCopier_last c1 (events (copier st)) _ eq_refl) as Hlast.
      apply last_Some in Hlast as [kept Hkept]. exists kept. split; [done|].
      destruct (saveCopier_events c1) as (dropped & Hd & _).
      rewrite Hkept in Hd. simpl in Hd. rewrite app_assoc in Hd.
      apply app_inj_tail in Hd as [Hold _].
      destruct Hok as [_ Hb]. rewrite Hold in Hb.
      by apply Forall_app in Hb as [_ ?]. }
  destruct Hlog as (kept & Hev & Hkept).
  split; intros H200; rewrite (copier_events_200 _ _ _ _ _ _ _ _ _ H200);
    unfold polled; simpl; rewrite Hev.
  - rewrite scan_events_skip.
    + apply scan_events_single. unfold wanted, event_of. cbn [ev_group ev_id].
      rewrite bool_decide_eq_true_2 by done. rewrite num_leb_Int. cbn [andb].
      apply negb_true_iff, Z.leb_gt. lia.
    + eapply Forall_impl; [exact Hkept|]. simpl. intros ev Hlt.
      unfold wanted. rewrite num_leb_Int.
      replace (ev_id ev <=? i - 1) with true by (symmetry; apply Z.leb_le; lia).
      by rewrite andb_false_r.
  - rewrite scan_events_skip.
    + cbn [scan_events]. destruct (negb _); [done|].
      unfold event_of. cbn [ev_id]. rewrite num_leb_Int. by rewrite Z.leb_refl.
    + eapply Forall_impl; [exact Hkept|]. simpl. intros ev Hlt.
      unfold wanted. rewrite num_leb_Int.
      replace (ev_id ev <=? i) with true by (symmetry; apply Z.leb_le; lia).
      by rewrite andb_false_r.
Qed.

Lemma push_then_poll_witness :
  polled
    (copier_events 5 6 7 (mkHeaders (Some "K1") None None) "G1" "S1" (Int (1 - 1)) NaN
       (copier_push (mkConfig "" "" "m") 3 (mkHeaders None None (Some "m"))
          (mkPushBody "G1" "OPEN" (Int 101) (Int 0) "EURUSD" (Int 0)
             (Int 0) (Int 0) (Int 0) (Int 0) (Int 0))
          (mkState [mkClient "c1" "Bob" "G1" "K1" true 0 1000 ""]
             (mkCopier 1 []) ∅)).2).1
  = [event_of 3 1 (mkPushBody "G1" "OPEN" (Int 101) (Int 0) "EURUSD" (Int 0)
                     (Int 0) (Int 0) (Int 0) (Int 0) (Int 0))].
Proof.
  assert (Hok : log_ok (mkCopier 1 [])) by (split; constructor).
  exact (proj1 (push_then_poll (mkConfig "" "" "m") 3 (mkHeaders None None (Some "m"))
                  (mkPushBody "G1" "OPEN" (Int 101) (Int 0) "EURUSD" (Int 0)
                     (Int 0) (Int 0) (Int 0) (Int 0) (Int 0))
                  (mkState [mkClient "c1" "Bob" "G1" "K1" true 0 1000 ""]
                     (mkCopier 1 []) ∅)
                  1 5 6 7 (mkHeaders (Some "K1") None None) "S1" NaN Hok eq_refl)
               eq_refl).
Defined.

(** ** Event log: what health reports *)

Lemma sorted_range_length (l : list Z) (a b : Z) :
  StronglySorted Z.lt l -> Forall (fun x => a <= x < b) l -> a <= b ->
  Z.of_nat (length l) <= b - a.
Proof.
  intros Hs. revert a. induction Hs as [|x l Hs IH Hx]; intros a Hr Hab.
  - simpl. lia.
  - apply Forall_cons in Hr as [Hxr Hr].
    assert (Hlen : Z.of_nat (length l) <= b - (x + 1)).
    { apply IH; [|lia]. rewrite Forall_forall in *. intros y Hy.
      specialize (Hx y Hy). specialize (Hr y Hy). lia. }
    simpl length. lia.
Qed.

Lemma handle_log_wf (cfg : Config) (t : Clock) (r : request) (st : State) :
  log_wf (copier st) -> log_wf (copier (handle cfg t r st).2).
Proof.
  intros (Hok & Hn & Hpos & Hlen).
  split; [by apply handle_log_ok|].
  destruct (is_push r) eqn:Hp.
  2:{ by destruct (handle_not_push cfg t r st Hp) as [-> _]. }
  destruct r as [req b| | | | | | | | |]; try done. simpl.
  destruct (copier_push_cases cfg (now0 t) req b st) as [[-> _]|[->| ->]]; simpl.
  - done.
  - split; [lia | done].
  - set (c1 := mkCopier (nextId (copier st) + 1)
                 (events (copier st) ++ [event_of (now0 t) (nextId (copier st)) b])%list).
    rewrite saveCopier_nextId. simpl.
    destruct (saveCopier_events c1) as (dropped & Hd & Hl).
    split; [lia|]. split; [|lia].
    assert (Hall : Forall (fun ev => 1 <= ev_id ev) (events c1)).
    { simpl. apply Forall_app. split; [done|]. by repeat constructor. }
    rewrite Hd in Hall. by apply Forall_app in Hall as [_ ?].
Qed.

Lemma reachable_log_wf (cfg : Config) (st : State) :
  reachable cfg st -> log_wf (copier st).
Proof.
  induction 1 as [|t r st _ IH]; [|by apply handle_log_wf].
  split; [apply log_ok_init|]. simpl. split; [lia|].
  split; [constructor|]. unfold MAX_EVENTS. lia.
Qed.

(** X19. In every state the server reaches from an empty log, health
    reports [maxEventId = nextId - 1], which is at least the id of every
    stored event, all ids being at least 1 and pairwise distinct; and
    [eventsStored] is at most 50,000 and at most [maxEventId]. *)
Theorem reachable_health (cfg : Config) (now : Z) (st : State) :
  reachable cfg st ->
  maxEventId (copier_health now st) = nextId (copier st) - 1 /\
  Forall (fun ev => 1 <= ev_id ev <= maxEventId (copier_health now st))
         (events (copier st)) /\
  NoDup (ev_id <$> events (copier st)) /\
  0 <= eventsStored (copier_health now st) <= 50000 /\
  eventsStored (copier_health now st) <= maxEventId (copier_health now st).
Proof.
  intros Hreach. destruct (reachable_log_wf cfg st Hreach) as (Hok & Hn & Hpos & Hlen).
  destruct Hok as [Hs Hb].
  assert (Hmax : maxEventId (copier_health now st) = nextId (copier st) - 1).
  { simpl. destruct (Z.eqb_spec (nextId (copier st)) 0); lia. }
  rewrite Hmax. unfold MAX_EVENTS in Hlen. simpl.
  split; [done|]. split; [|split; [|split]].
  - rewrite Forall_forall in *. intros ev Hev.
    specialize (Hb ev Hev). specialize (Hpos ev Hev). lia.
  - by apply StronglySorted_lt_NoDup.
  - lia.
  - rewrite <- (length_fmap ev_id).
    apply (sorted_range_length _ 1 (nextId (copier st))); [done| |lia].
    apply Forall_fmap. rewrite Forall_forall in *. intros ev Hev. simpl.
    specialize (Hb ev Hev). specialize (Hpos ev Hev). lia.
Qed.

Lemma reachable_health_witness :
  eventsStored
    (copier_health 9
       (handle (mkConfig "" "" "m") (mkClock 1 1 1)
          (Push (mkHeaders None None (Some "m"))
             (mkPushBody "G1" "OPEN" (Int 101) (Int 0) "EURUSD" (Int 0)
                (Int 0) (Int 0) (Int 0) (Int 0) (Int 0)))
          init_state).2)
  <= maxEventId
       (copier_health 9
          (handle (mkConfig "" "" "m") (mkClock 1 1 1)
             (Push (mkHeaders None None (Some "m"))
                (mkPushBody "G1" "OPEN" (Int 101) (Int 0) "EURUSD" (Int 0)
                   (Int 0) (Int 0) (Int 0) (Int 0) (Int 0)))
             init_state).2).
Proof.
  refine (proj2 (proj2 (proj2 (proj2
            (reachable_health (mkConfig "" "" "m") 9 _
               (reach_step _ (mkClock 1 1 1)
                  (Push (mkHeaders None None (Some "m"))
                     (mkPushBody "G1" "OPEN" (Int 101) (Int 0) "EURUSD" (Int 0)
                        (Int 0) (Int 0) (Int 0) (Int 0) (Int 0)))
                  init_state (reach_init _))))))).
Defined.

(** * Dashboard and agent endpoints *)

Import Dashboard.

(** ** The maps *)

Lemma map_get_set {A : Type} (k : string) (v : A) (m : list (string * A)) :
  map_get k (map_set k v m) = Some v.
Proof.
  induction m as [|[k' v'] m IH]; simpl.
  - by rewrite decide_True.
  - destruct (decide (k' = k)) as [->|Hne]; simpl.
    + by rewrite decide_True.
    + by rewrite decide_False.
Qed.

Lemma map_get_set_ne {A : Type} (k k0 : string) (v : A) (m : list (string * A)) :
  k <> k0 -> map_get k0 (map_set k v m) = map_get k0 m.
Proof.
  intros Hne. induction m as [|[k' v'] m IH]; simpl.
  - by rewrite decide_False.
  - destruct (decide (k' = k)) as [->|Hk]; simpl.
    + by rewrite !decide_False.
    + by rewrite IH.
Qed.

Lemma map_get_None {A : Type} (k : string) (m : list (string * A)) :
  map_get k m = None <-> k ∉ m.*1.
Proof.
  induction m as [|[k' v'] m IH]; csimpl.
  - split; [|done]. intros _ H. by apply elem_of_nil in H.
  - destruct (decide (k' = k)) as [->|Hne].
    + split; [done|]. intros H. destruct H. left.
    + rewrite IH, not_elem_of_cons. split; [by intros ?; split | by intros [_ ?]].
Qed.

Lemma map_set_keys {A : Type} (k : string) (v : A) (m : list (string * A)) :
  (map_set k v m).*1
  = if map_get k m is Some _ then m.*1 else (m.*1 ++ [k])%list.
Proof.
  induction m as [|[k' v'] m IH]; csimpl; [done|].
  destruct (decide (k' = k)) as [->|Hne]; csimpl; [done|].
  rewrite IH. by destruct (map_get k m).
Qed.

Lemma map_set_NoDup {A : Type} (k : string) (v : A) (m : list (string * A)) :
  NoDup m.*1 -> NoDup (map_set k v m).*1.
Proof.
  intros Hnd. rewrite map_set_keys.
  destruct (map_get k m) eqn:E; [done|].
  apply map_get_None in E. apply NoDup_app. split; [done|]. split.
  - intros x Hx Hk. apply list_elem_of_singleton in Hk. by subst.
  - apply NoDup_singleton.
Qed.

(** ** Guard *)

(** X20. The dashboard and agent endpoints are guarded by [authOk]: a
    request it refuses is answered 401 and changes nothing, be it a
    report, a command poll, an ack, the list of accounts or a panic; and
    with an empty [API_KEY] none of these five is answered 401, whatever
    the request holds. *)
Theorem dashboard_guard (cfg : Config) (clock : nat -> Z) (st : DState) :
  (forall req,
     authOk cfg req = false ->
     (forall b, report cfg (clock 0%nat) req b st = (dfail 401 "unauthorized", st)) /\
     (forall a, command cfg req a st = dfail 401 "unauthorized") /\
     (forall a id s e,
        command_ack cfg (clock 0%nat) req a id s e st = (dfail 401 "unauthorized", st)) /\
     api_accounts cfg (clock 0%nat) req st = dfail 401 "unauthorized" /\
     (forall a tg, api_panic cfg clock req a tg st = (dfail 401 "unauthorized", st))) /\
  (API_KEY cfg = "" ->
   forall req,
     (forall b, dstatus (report cfg (clock 0%nat) req b st).1 <> 401) /\
     (forall a, dstatus (command cfg req a st) <> 401) /\
     (forall a id s e, dstatus (command_ack cfg (clock 0%nat) req a id s e st).1 <> 401) /\
     dstatus (api_accounts cfg (clock 0%nat) req st) <> 401 /\
     (forall a tg, dstatus (api_panic cfg clock req a tg st).1 <> 401)) /\
  (API_KEY cfg = "" ->
   forall r, dstatus (dhandle cfg clock r st).1 <> 401).
Proof.
  split; [|split].
  - intros req Hauth.
    unfold report, command, command_ack, api_accounts, api_panic.
    by rewrite Hauth.
  - intros Hkey req.
    assert (Hauth : authOk cfg req = true).
    { unfold authOk. by rewrite Hkey. }
    split; [|split; [|split; [|split]]].
    + intros b. unfold report. rewrite Hauth. simpl. by destruct (str_empty _).
    + intros a. unfold command. rewrite Hauth. simpl.
      destruct (str_empty a); [done|].
      destruct (commands st !! a); [|done]. by destruct (negb _).
    + intros a id s e. unfold command_ack. rewrite Hauth. simpl.
      destruct (_ || _ || _); [done|].
      destruct (commands st !! a); [|done]. by destruct (bool_decide _).
    + unfold api_accounts. by rewrite Hauth.
    + intros a tg. unfold api_panic. rewrite Hauth. simpl.
      destruct (bool_decide (a = "ALL")).
      * by destruct (panic_all _ _ _ _ _ _).
      * by destruct (str_empty a).
  - intros Hkey r.
    assert (Hauth : forall req, authOk cfg req = true).
    { intros req. unfold authOk. by rewrite Hkey. }
    destruct r as [req b|req a id s e|req a tg]; simpl.
    + unfold report. rewrite Hauth. simpl. by destruct (str_empty _).
    + unfold command_ack. rewrite Hauth. simpl.
      destruct (_ || _ || _); [done|].
      destruct (commands st !! a); [|done]. by destruct (bool_decide _).
    + unfold api_panic. rewrite Hauth. simpl.
      destruct (bool_decide (a = "ALL")).
      * by destruct (panic_all _ _ _ _ _ _).
      * by destruct (str_empty a).
Qed.

Lemma dashboard_guard_witness :
  api_panic (mkConfig "k" "" "") (fun _ => 5) (mkHeaders None None None) "ALL" "ALL"
    init_dstate
  = (dfail 401 "unauthorized", init_dstate) /\
  dstatus (command (mkConfig "" "" "") (mkHeaders None None None) "A7" init_dstate)
  <> 401.
Proof.
  split.
  - exact (proj2 (proj2 (proj2 (proj2
             (proj1 (dashboard_guard (mkConfig "k" "" "") (fun _ => 5) init_dstate)
                (mkHeaders None None None) eq_refl)))) "ALL" "ALL").
  - exact (proj1 (proj2 (proj1 (proj2 (dashboard_guard (mkConfig "" "" "") (fun _ => 5)
                                         init_dstate))
                           eq_refl (mkHeaders None None None))) "A7").
Defined.

(** ** Reports *)

(** X21. An admitted report with an accountId stores the payload, with
    the time of the report, under that accountId: it replaces the
    earlier payload of the account in its place, or comes last for a new
    account; the payloads of the other accounts, their order, the
    commands and the counter are as before, and the accountIds stay
    pairwise distinct.  A report without accountId is InvalidInput and
    changes nothing. *)
Theorem report_then_lookup (cfg : Config) (now : Z) (req : headers) (b : ReportBody)
    (st : DState) :
  authOk cfg req = true ->
  (b_accountId b <> "" ->
   (report cfg now req b st).1 = dok DOk /\
   map_get (b_accountId b) (accounts (report cfg now req b st).2)
   = Some (payload_of now b) /\
   (forall a, a <> b_accountId b ->
              map_get a (accounts (report cfg now req b st).2) = map_get a (accounts st)) /\
   (accounts (report cfg now req b st).2).*1
   = (if map_get (b_accountId b) (accounts st) is Some _ then (accounts st).*1
      else ((accounts st).*1 ++ [b_accountId b])%list) /\
   (NoDup (accounts st).*1 -> NoDup (accounts (report cfg now req b st).2).*1) /\
   commands (report cfg now req b st).2 = commands st /\
   nextCmdId (report cfg now req b st).2 = nextCmdId st) /\
  (b_accountId b = "" ->
   report cfg now req b st = (dfail 400 "missing accountId", st)).
Proof.
  intros Hauth. unfold report. rewrite Hauth. simpl. split.
  - intros Ha. apply str_empty_false in Ha as Ha'. rewrite Ha'. simpl.
    split; [done|]. split; [apply map_get_set|]. split.
    { intros a Hne. by apply map_get_set_ne. }
    split; [apply map_set_keys|]. split; [apply map_set_NoDup | done].
  - intros ->. done.
Qed.

Lemma report_then_lookup_witness :
  map_get "A1"
    (accounts
       (report (mkConfig "" "" "") 7 (mkHeaders None None None)
          (mkReportBody "A1" "n" (Int 1) "s" "USD" (Int 100) (Int 0) (Int 0)
             (Int 0) (Int 0) [] (JObj []))
          init_dstate).2)
  = Some (mkAccount "A1" "n" (Int 1) "s" "USD" (Int 100) 7 (Int 0) (Int 0)
            (Int 0) (Int 0) [] (JObj [])).
Proof.
  assert (Ha : "A1" <> "") by discriminate.
  exact (proj1 (proj2 (proj1 (report_then_lookup (mkConfig "" "" "") 7
                                (mkHeaders None None None)
                                (mkReportBody "A1" "n" (Int 1) "s" "USD" (Int 100)
                                   (Int 0) (Int 0) (Int 0) (Int 0) [] (JObj []))
                                init_dstate eq_refl) Ha))).
Defined.

(** ** Commands *)

Lemma panic_all_spec (target : string) (clock : nat -> Z) (keys : list string) :
  forall (k : nat) (cmds : gmap string Command) (next : Z),
  NoDup keys ->
  (panic_all target clock k keys cmds next).2 = next + Z.of_nat (length keys) /\
  (forall i a, keys !! i = Some a ->
     (panic_all target clock k keys cmds next).1 !! a
     = Some (panic_command (next + Z.of_nat i) target (clock (k + i)%nat))) /\
  (forall a, a ∉ keys ->
     (panic_all target clock k keys cmds next).1 !! a = cmds !! a).
Proof.
  induction keys as [|a keys IH]; intros k cmds next Hnd; simpl.
  - split; [lia|]. split; [|done]. intros i a Hi. by rewrite lookup_nil in Hi.
  - apply NoDup_cons in Hnd as [Ha Hnd].
    destruct (IH (S k) (<[a:=panic_command next target (clock k)]> cmds) (next + 1) Hnd)
      as (Hn & Hin & Hout).
    split; [lia|]. split.
    + intros [|i] a' Hi; simpl in Hi.
      * injection Hi as <-. rewrite (Hout a Ha), lookup_insert_eq.
        by rewrite Z.add_0_r, Nat.add_0_r.
      * rewrite (Hin i a' Hi). do 2 f_equal; [lia|]. f_equal. lia.
    + intros a' Ha'. apply not_elem_of_cons in Ha' as [Hne Ha'].
      rewrite (Hout a' Ha'). by apply lookup_insert_ne.
Qed.

(** X22. An admitted panic for "ALL" gives every reported account a
    fresh NEW command, replacing the one it had: the account reported
    [i]-th gets the id [nextCmdId + i], and the counter advances by the
    number of accounts; commands kept for other ids stay.  A panic for
    any other non-empty accountId, reported or not, stores one NEW
    command with the id [nextCmdId] for it; an empty accountId is
    InvalidInput.  Accounts are never changed by a panic. *)
Theorem panic_issues (cfg : Config) (clock : nat -> Z) (req : headers)
    (tg : string) (st : DState) :
  authOk cfg req = true ->
  (NoDup (accounts st).*1 ->
   (api_panic cfg clock req "ALL" tg st).1 = dok (DIssued "ALL") /\
   accounts (api_panic cfg clock req "ALL" tg st).2 = accounts st /\
   nextCmdId (api_panic cfg clock req "ALL" tg st).2
   = nextCmdId st + Z.of_nat (length (accounts st)) /\
   (forall i a, (accounts st).*1 !! i = Some a ->
      commands (api_panic cfg clock req "ALL" tg st).2 !! a
      = Some (panic_command (nextCmdId st + Z.of_nat i) tg (clock i))) /\
   (forall a, a ∉ (accounts st).*1 ->
      commands (api_panic cfg clock req "ALL" tg st).2 !! a = commands st !! a)) /\
  (forall a, a <> "ALL" -> a <> "" ->
     (api_panic cfg clock req a tg st).1 = dok (DIssued a) /\
     accounts (api_panic cfg clock req a tg st).2 = accounts st /\
     nextCmdId (api_panic cfg clock req a tg st).2 = nextCmdId st + 1 /\
     commands (api_panic cfg clock req a tg st).2 !! a
     = Some (panic_command (nextCmdId st) tg (clock 0%nat)) /\
     (forall a', a' <> a ->
        commands (api_panic cfg clock req a tg st).2 !! a' = commands st !! a')) /\
  api_panic cfg clock req "" tg st = (dfail 400 "missing accountId", st).
Proof.
  intros Hauth. unfold api_panic. rewrite Hauth. simpl. split; [|split].
  - intros Hnd.
    destruct (panic_all_spec tg clock (accounts st).*1 0 (commands st) (nextCmdId st) Hnd)
      as (Hn & Hin & Hout).
    destruct (panic_all tg clock 0 (accounts st).*1 (commands st) (nextCmdId st))
      as [cmds next]. simpl in *.
    split; [done|]. split; [done|]. split; [by rewrite Hn, length_fmap|].
    split; [exact Hin | exact Hout].
  - intros a Hall Hne. rewrite bool_decide_eq_false_2 by done.
    apply str_empty_false in Hne. rewrite Hne. simpl.
    split; [done|]. split; [done|]. split; [done|].
    split; [apply lookup_insert_eq|]. intros a' Ha'. by apply lookup_insert_ne.
  - done.
Qed.

Lemma panic_issues_witness :
  commands
    (api_panic (mkConfig "" "" "") (fun _ => 5) (mkHeaders None None None) "A7" "ALL"
       init_dstate).2 !! "A7"
  = Some (panic_command 1 "ALL" 5).
Proof.
  assert (H1 : "A7" <> "ALL") by discriminate.
  assert (H2 : "A7" <> "") by discriminate.
  destruct (panic_issues (mkConfig "" "" "") (fun _ => 5) (mkHeaders None None None)
              "ALL" init_dstate eq_refl) as (_ & H & _).
  exact (proj1 (proj2 (proj2 (proj2 (H "A7" H1 H2))))).
Defined.

Lemma commands_ok_insert (acc : list (string * Account))
    (cmds : gmap string Command) (next : Z) (a tg : string) (now : Z) :
  commands_ok (mkDState acc cmds next) ->
  commands_ok (mkDState acc (<[a := panic_command next tg now]> cmds) (next + 1)).
Proof.
  intros (Hn & Hb & Hu). simpl in *. split; [simpl; lia|]. split; simpl.
  - intros a0 c [[<- <-]|[_ Hc]]%lookup_insert_Some; [simpl; lia|].
    specialize (Hb a0 c Hc). lia.
  - intros a1 a2 c1 c2 [[<- <-]|[Hne1 H1]]%lookup_insert_Some
                       [[<- <-]|[Hne2 H2]]%lookup_insert_Some; simpl; intros Heq.
    + done.
    + specialize (Hb a2 c2 H2). lia.
    + specialize (Hb a1 c1 H1). lia.
    + by eapply Hu.
Qed.

Lemma panic_all_ok (acc : list (string * Account)) (tg : string) (clock : nat -> Z)
    (keys : list string) :
  forall (k : nat) (cmds : gmap string Command) (next : Z),
  commands_ok (mkDState acc cmds next) ->
  commands_ok (mkDState acc (panic_all tg clock k keys cmds next).1
                 (panic_all tg clock k keys cmds next).2).
Proof.
  induction keys as [|a keys IH]; intros k cmds next Hok; simpl; [done|].
  by apply IH, commands_ok_insert.
Qed.

Lemma dhandle_ok (cfg : Config) (clock : nat -> Z) (r : drequest) (st : DState) :
  commands_ok st /\ NoDup (accounts st).*1 ->
  commands_ok (dhandle cfg clock r st).2 /\ NoDup (accounts (dhandle cfg clock r st).2).*1.
Proof.
  intros [Hok Hnd]. destruct r as [req b|req a id s e|req a tg]; simpl.
  - unfold report. destruct (negb _); [done|].
    destruct (str_empty _); [done|]. simpl. split; [done|]. by apply map_set_NoDup.
  - unfold command_ack. destruct (negb _); [done|].
    destruct (_ || _ || _); [done|].
    destruct (commands st !! a) as [c|] eqn:Hc; [|done].
    destruct (bool_decide _); [|done]. simpl. split; [|done].
    destruct Hok as (Hn & Hb & Hu). split; [done|]. split; simpl.
    + intros a0 c0 [[<- <-]|[_ Hc0]]%lookup_insert_Some; simpl.
      * exact (Hb _ _ Hc).
      * exact (Hb _ _ Hc0).
    + intros a1 a2 c1 c2 [[<- <-]|[Hne1 H1]]%lookup_insert_Some
                         [[<- <-]|[Hne2 H2]]%lookup_insert_Some; simpl; intros Heq.
      * done.
      * exact (Hu _ _ _ _ Hc H2 Heq).
      * exact (Hu _ _ _ _ H1 Hc Heq).
      * exact (Hu _ _ _ _ H1 H2 Heq).
  - unfold api_panic. destruct (negb _); [done|].
    destruct (bool_decide (a = "ALL")).
    + pose proof (panic_all_ok (accounts st) tg clock (accounts st).*1 0
                    (commands st) (nextCmdId st)) as Hall.
      destruct (panic_all _ _ _ _ _ _) as [cmds next]. simpl in *.
      split; [|done]. apply Hall. by destruct st.
    + destruct (str_empty a); [done|]. simpl. split; [|done].
      apply commands_ok_insert. by destruct st.
Qed.

Lemma dreachable_invariant (cfg : Config) (st : DState) :
  dreachable cfg st -> commands_ok st /\ NoDup (accounts st).*1.
Proof.
  intros Hr. induction Hr as [|clock r st _ IH]; [|by apply dhandle_ok].
  split; [|constructor]. split; [simpl; lia|]. split; simpl.
  - intros a c Hc. by rewrite lookup_empty in Hc.
  - intros a a' c c' Hc. by rewrite lookup_empty in Hc.
Qed.

(** X23. In every state the dashboard reaches, the accountIds of the
    reports are pairwise distinct, every stored command has an id from 1
    up to the counter, and no two accounts hold commands with the same
    id: an id names one command of one account. *)
Theorem dreachable_ok (cfg : Config) (st : DState) :
  dreachable cfg st ->
  NoDup (accounts st).*1 /\ 1 <= nextCmdId st /\
  (forall a c, commands st !! a = Some c -> 1 <= cmd_id c < nextCmdId st) /\
  (forall a a' c c', commands st !! a = Some c -> commands st !! a' = Some c' ->
                     cmd_id c = cmd_id c' -> a = a').
Proof.
  intros Hr. by destruct (dreachable_invariant cfg st Hr) as [(Hn & Hb & Hu) Hnd].
Qed.

Lemma dreachable_ok_witness :
  1 <= nextCmdId
         (dhandle (mkConfig "" "" "") (fun _ => 5)
            (Panic (mkHeaders None None None) "A7" "ALL") init_dstate).2.
Proof.
  exact (proj1 (proj2 (dreachable_ok (mkConfig "" "" "") _
                         (dreach_step _ (fun _ => 5)
                            (Panic (mkHeaders None None None) "A7" "ALL")
                            init_dstate (dreach_init _))))).
Defined.

Lemma num_truthy_Int (z : Z) : z <> 0 -> num_truthy (Int z) = true.
Proof.
  intros Hz. simpl. destruct (Qc_eqb _ _) eqn:E; [|done].
  by apply Qc_eqb_eq, Z2Qc_inj in E.
Qed.

(** X24. The command mailbox of an account.  GET /command hands out the
    stored command exactly while its status is "NEW", and nothing for an
    account without a command.  An admitted acknowledgement with all
    fields always answers ok, whether or not the account has a command;
    it never touches the accounts, the counter or the command of another
    account.  It changes nothing when the account has no command or when
    its id is not the id of the stored command, and otherwise rewrites
    status, errMsg and ackTs of that one command, after which the
    command is handed out again only if the agent acknowledged with the
    status "NEW" itself.  An acknowledgement without an id or a status
    is InvalidInput and changes nothing.  In a reachable state the id of
    a stored command is never 0, so acknowledging it with a non-empty
    status is never refused as "missing fields". *)
Theorem command_mailbox (cfg : Config) (now : Z) (req : headers) (a : string)
    (st : DState) :
  authOk cfg req = true -> a <> "" ->
  (forall id s e, num_truthy id = true -> s <> "" ->
     (command_ack cfg now req a id s e st).1 = dok DOk /\
     accounts (command_ack cfg now req a id s e st).2 = accounts st /\
     nextCmdId (command_ack cfg now req a id s e st).2 = nextCmdId st /\
     (forall a', a' <> a ->
        commands (command_ack cfg now req a id s e st).2 !! a' = commands st !! a')) /\
  (forall id s e, num_truthy id = false \/ s = "" ->
     command_ack cfg now req a id s e st = (dfail 400 "missing fields", st)) /\
  (commands st !! a = None ->
     command cfg req a st = dok (DHas None) /\
     forall id s e, num_truthy id = true -> s <> "" ->
       (command_ack cfg now req a id s e st).2 = st) /\
  (forall c, commands st !! a = Some c ->
     command cfg req a st
     = dok (DHas (if bool_decide (cmd_status c = "NEW") then Some c else None)) /\
     (forall id s e, num_truthy id = true -> s <> "" ->
        (id <> Int (cmd_id c) -> (command_ack cfg now req a id s e st).2 = st) /\
        (id = Int (cmd_id c) ->
           let acked := mkCommand (cmd_id c) (cmd_type c) (cmd_target c) (cmd_ts c)
                          s e (Some now) in
           commands (command_ack cfg now req a id s e st).2 !! a = Some acked /\
           command cfg req a (command_ack cfg now req a id s e st).2
           = dok (DHas (if bool_decide (s = "NEW") then Some acked else None)))) /\
     (dreachable cfg st -> forall s e, s <> "" ->
        commands (command_ack cfg now req a (Int (cmd_id c)) s e st).2 !! a
        = Some (mkCommand (cmd_id c) (cmd_type c) (cmd_target c) (cmd_ts c)
                  s e (Some now)))).
Proof.
  intros Hauth Ha. apply str_empty_false in Ha.
  assert (Hack : forall id s e, num_truthy id = true -> s <> "" ->
            command_ack cfg now req a id s e st
            = match commands st !! a with
              | Some c =>
                if bool_decide (Int (cmd_id c) = id)
                then (dok DOk,
                      mkDState (accounts st)
                        (<[a := mkCommand (cmd_id c) (cmd_type c) (cmd_target c)
                                  (cmd_ts c) s e (Some now)]> (commands st))
                        (nextCmdId st))
                else (dok DOk, st)
              | None => (dok DOk, st)
              end).
  { intros id s e Hid Hs. apply str_empty_false in Hs.
    unfold command_ack. by rewrite Hauth, Ha, Hid, Hs. }
  split; [|split; [|split]].
  - intros id s e Hid Hs. rewrite (Hack id s e Hid Hs).
    destruct (commands st !! a) as [c|]; [|done].
    case_bool_decide; [|done]. simpl.
    split; [done|]. split; [done|]. split; [done|].
    intros a' Ha'. by apply lookup_insert_ne.
  - intros id s e Hmiss. unfold command_ack. rewrite Hauth, Ha. simpl.
    destruct Hmiss as [-> | ->]; simpl; [done|]. by rewrite orb_true_r.
  - intros Hc. split.
    + unfold command. by rewrite Hauth, Ha, Hc.
    + intros id s e Hid Hs. by rewrite (Hack id s e Hid Hs), Hc.
  - intros c Hc. split; [|split].
    + unfold command. rewrite Hauth, Ha, Hc. simpl. by destruct (bool_decide _).
    + intros id s e Hid Hs. rewrite (Hack id s e Hid Hs), Hc.
      case_bool_decide as Heq; simpl.
      * split; [by intros []|]. intros _. split; [apply lookup_insert_eq|].
        unfold command. rewrite Hauth, Ha. simpl. rewrite lookup_insert_eq. simpl.
        by destruct (bool_decide _).
      * split; [done|]. by intros ->.
    + intros Hreach s e Hs.
      destruct (dreachable_invariant cfg st Hreach) as [(_ & Hb & _) _].
      specialize (Hb a c Hc).
      rewrite (Hack (Int (cmd_id c)) s e) by (try apply num_truthy_Int; done || lia).
      rewrite Hc, bool_decide_eq_true_2 by done. simpl. apply lookup_insert_eq.
Qed.

Lemma command_mailbox_witness :
  command (mkConfig "" "" "") (mkHeaders None None None) "A7"
    (mkDState [] {["A7" := panic_command 1 "ALL" 5]} 2)
  = dok (DHas (Some (panic_command 1 "ALL" 5))) /\
  (command_ack (mkConfig "" "" "") 9 (mkHeaders None None None) "A8" (Int 1) "DONE" ""
     (mkDState [] {["A7" := panic_command 1 "ALL" 5]} 2)).1
  = dok DOk.
Proof.
  assert (Ha : "A7" <> "") by discriminate.
  assert (Ha8 : "A8" <> "") by discriminate.
  assert (Hd : "DONE" <> "") by discriminate.
  assert (Hc : commands (mkDState [] {["A7" := panic_command 1 "ALL" 5]} 2) !! "A7"
               = Some (panic_command 1 "ALL" 5)) by apply lookup_singleton_eq.
  split.
  - exact (proj1 (proj2 (proj2 (proj2
             (command_mailbox (mkConfig "" "" "") 9 (mkHeaders None None None) "A7"
                (mkDState [] {["A7" := panic_command 1 "ALL" 5]} 2) eq_refl Ha)))
             (panic_command 1 "ALL" 5) Hc)).
  - exact (proj1 (proj1
             (command_mailbox (mkConfig "" "" "") 9 (mkHeaders None None None) "A8"
                (mkDState [] {["A7" := panic_command 1 "ALL" 5]} 2) eq_refl Ha8)
             (Int 1) "DONE" "" eq_refl Hd)).
Defined.

(** ** The account list *)

Lemma insert_by_ts_perm (a : Account) (l : list Account) :
  Permutation (insert_by_ts a l) (a :: l).
Proof.
  induction l as [|b l IH]; simpl; [done|].
  destruct (ts a <? ts b); [|done].
  rewrite IH. apply Permutation_swap.
Qed.

Lemma insert_by_ts_sorted (a : Account) (l : list Account) :
  StronglySorted (fun x y => ts y <= ts x) l ->
  StronglySorted (fun x y => ts y <= ts x) (insert_by_ts a l).
Proof.
  induction l as [|b l IH]; intros Hs; simpl.
  - by repeat constructor.
  - apply StronglySorted_inv in Hs as [Hs Hb].
    destruct (ts a <? ts b) eqn:Hab.
    + apply Z.ltb_lt in Hab. constructor; [by apply IH|].
      rewrite (insert_by_ts_perm a l). constructor; [lia|done].
    + apply Z.ltb_ge in Hab. constructor; [by constructor|].
      constructor; [done|]. eapply Forall_impl; [exact Hb|]. simpl. intros; lia.
Qed.

Lemma insert_by_ts_filter (t : Z) (a : Account) (l : list Account) :
  filter (fun x => ts x = t) (insert_by_ts a l) = filter (fun x => ts x = t) (a :: l).
Proof.
  induction l as [|b l IH]; simpl; [done|].
  destruct (ts a <? ts b) eqn:Hab; [|done].
  apply Z.ltb_lt in Hab.
  rewrite (filter_cons _ b), IH, !(filter_cons _ a), (filter_cons _ b).
  repeat case_decide; try done; lia.
Qed.

(** A list is determined by being ordered by [ts], latest first, and by
    the order it gives to the elements of each [ts]: two stable sorts of
    one list agree. *)
Lemma sorted_stable_unique (l1 l2 : list Account) :
  StronglySorted (fun x y => ts y <= ts x) l1 ->
  StronglySorted (fun x y => ts y <= ts x) l2 ->
  (forall t, filter (fun x => ts x = t) l1 = filter (fun x => ts x = t) l2) ->
  l1 = l2.
Proof.
  revert l2. induction l1 as [|x l1 IH]; intros l2 Hs1 Hs2 Hf.
  - destruct l2 as [|y l2]; [done|]. specialize (Hf (ts y)).
    rewrite filter_nil, filter_cons_True in Hf by done. done.
  - destruct l2 as [|y l2].
    { specialize (Hf (ts x)).
      rewrite filter_nil, filter_cons_True in Hf by done. done. }
    apply StronglySorted_inv in Hs1 as [Hs1 Hx].
    apply StronglySorted_inv in Hs2 as [Hs2 Hy].
    rewrite Forall_forall in Hx, Hy.
    assert (Hxy : ts x <= ts y).
    { assert (Hin : x ∈ filter (fun z => ts z = ts x) (y :: l2)).
      { rewrite <- Hf. rewrite filter_cons_True by done. left. }
      apply list_elem_of_filter in Hin as [_ Hin].
      apply elem_of_cons in Hin as [->|Hin]; [lia|]. by apply Hy. }
    assert (Hyx : ts y <= ts x).
    { assert (Hin : y ∈ filter (fun z => ts z = ts y) (x :: l1)).
      { rewrite Hf. rewrite filter_cons_True by done. left. }
      apply list_elem_of_filter in Hin as [_ Hin].
      apply elem_of_cons in Hin as [->|Hin]; [lia|]. by apply Hx. }
    assert (Heq : x = y).
    { specialize (Hf (ts x)). rewrite !filter_cons_True in Hf by lia.
      by injection Hf. }
    subst y. f_equal. apply IH; [done | done |].
    intros t. specialize (Hf t). rewrite !(filter_cons _ x) in Hf.
    destruct (decide (ts x = t)); [by injection Hf | done].
Qed.

(** X25. An admitted GET /api/accounts returns the stored reports, each
    once, with the latest report first; reports with the same timestamp
    keep the order in which their accounts first reported.  The list
    returned is the only one with these properties, which are what a
    stable [sort] with the comparator [b.ts - a.ts] promises: the
    answer does not depend on how the engine sorts. *)
Theorem api_accounts_sorted (cfg : Config) (now : Z) (req : headers) (st : DState) :
  authOk cfg req = true ->
  api_accounts cfg now req st = dok (DAccounts now (sort_by_ts (accounts st).*2)) /\
  Permutation (sort_by_ts (accounts st).*2) (accounts st).*2 /\
  StronglySorted (fun x y => ts y <= ts x) (sort_by_ts (accounts st).*2) /\
  (forall t, filter (fun x => ts x = t) (sort_by_ts (accounts st).*2)
             = filter (fun x => ts x = t) (accounts st).*2) /\
  (forall out,
     StronglySorted (fun x y => ts y <= ts x) out ->
     (forall t, filter (fun x => ts x = t) out
                = filter (fun x => ts x = t) (accounts st).*2) ->
     api_accounts cfg now req st = dok (DAccounts now out)).
Proof.
  intros Hauth. unfold api_accounts. rewrite Hauth. simpl. split; [done|].
  generalize (accounts st).*2. intros l.
  assert (Hsorted : StronglySorted (fun x y => ts y <= ts x) (sort_by_ts l)).
  { induction l as [|a l IH]; simpl; [constructor|]. by apply insert_by_ts_sorted. }
  assert (Hstable : forall t, filter (fun x => ts x = t) (sort_by_ts l)
                              = filter (fun x => ts x = t) l).
  { clear. intros t. induction l as [|a l IH]; simpl; [done|].
    by rewrite insert_by_ts_filter, !(filter_cons _ a), IH. }
  split; [|split; [done|split; [done|]]].
  - clear. induction l as [|a l IH]; simpl; [done|]. by rewrite insert_by_ts_perm, IH.
  - intros out Hs Hf. do 2 f_equal. symmetry.
    apply sorted_stable_unique; [done | done |].
    intros t. by rewrite Hf, Hstable.
Qed.

Lemma api_accounts_sorted_witness :
  api_accounts (mkConfig "" "" "") 7 (mkHeaders None None None)
    (mkDState [("A", mkAccount "A" "" (Int 0) "" "" (Int 0) 5 (Int 0) (Int 0) (Int 0) (Int 0) [] (JObj []));
                  ("B", mkAccount "B" "" (Int 0) "" "" (Int 0) 9 (Int 0) (Int 0) (Int 0) (Int 0) [] (JObj []));
                  ("C", mkAccount "C" "" (Int 0) "" "" (Int 0) 5 (Int 0) (Int 0) (Int 0) (Int 0) [] (JObj []))] ∅ 1)
  = dok (DAccounts 7
           [mkAccount "B" "" (Int 0) "" "" (Int 0) 9 (Int 0) (Int 0) (Int 0) (Int 0) [] (JObj []);
            mkAccount "A" "" (Int 0) "" "" (Int 0) 5 (Int 0) (Int 0) (Int 0) (Int 0) [] (JObj []);
            mkAccount "C" "" (Int 0) "" "" (Int 0) 5 (Int 0) (Int 0) (Int 0) (Int 0) [] (JObj [])]).
Proof.
  exact (proj1 (api_accounts_sorted (mkConfig "" "" "") 7 (mkHeaders None None None)
                  (mkDState [("A", mkAccount "A" "" (Int 0) "" "" (Int 0) 5 (Int 0) (Int 0) (Int 0) (Int 0) [] (JObj []));
                  ("B", mkAccount "B" "" (Int 0) "" "" (Int 0) 9 (Int 0) (Int 0) (Int 0) (Int 0) [] (JObj []));
                  ("C", mkAccount "C" "" (Int 0) "" "" (Int 0) 5 (Int 0) (Int 0) (Int 0) (Int 0) [] (JObj []))] ∅ 1) eq_refl)).
Defined.

(** ** Adding a client in the second variant *)

(** X26. The second variant puts a new client in front of the list, so
    after an admitted add the new key and id always find the new client,
    also when an older client holds the same key or id, and every other
    key and id finds what it found before.  With the admin key unset the
    variant refuses the add and changes nothing. *)
Theorem variant_add_in_front (cfg : Config) (now : Z) (req : headers)
    (f g d rid rkey : string) (st : State) :
  (Variant.adminOk cfg req = true -> trim f <> "" -> trim g <> "" ->
   let c := mkClient (String.append "C_" rid) (trim f) (trim g)
              (String.append "K_" rkey) true now
              (now + addDurationMs (trim d)) "" in
   (VariantClients.admin_add cfg now req f g d rid rkey st).1 = ok (OkClient c) /\
   clients (VariantClients.admin_add cfg now req f g d rid rkey st).2 = c :: clients st /\
   (forall k,
      findClientByApiKey
        (clients (VariantClients.admin_add cfg now req f g d rid rkey st).2) k
      = if decide (k = apiKey c) then Some c else findClientByApiKey (clients st) k) /\
   (forall i,
      findClientById
        (clients (VariantClients.admin_add cfg now req f g d rid rkey st).2) i
      = if decide (i = clientId c) then Some c else findClientById (clients st) i) /\
   (forall t h, trim (header_or_empty (x_api_key h)) = apiKey c ->
      t < now + addDurationMs (trim d) ->
      requireClient t
        (clients (VariantClients.admin_add cfg now req f g d rid rkey st).2)
        h (trim g) = inr c)) /\
  (ADMIN_KEY cfg = "" ->
   VariantClients.admin_add cfg now req f g d rid rkey st
   = (fail 401 "unauthorized admin", st)).
Proof.
  split.
  - intros Hadm Hf Hg. unfold VariantClients.admin_add. rewrite Hadm. simpl.
    apply str_empty_false in Hf as Hf', Hg as Hg'. rewrite Hf', Hg'. simpl.
    set (c := mkClient (String.append "C_" rid) (trim f) (trim g)
                (String.append "K_" rkey) true now
                (now + addDurationMs (trim d)) "").
    assert (Hkey : forall k, findClientByApiKey (c :: clients st) k
              = if decide (k = apiKey c) then Some c
                else findClientByApiKey (clients st) k).
    { intros k. unfold findClientByApiKey. cbn [js_find]. unfold has_apiKey at 1.
      destruct (decide (k = apiKey c)) as [->|Hne].
      - by rewrite bool_decide_eq_true_2.
      - by rewrite bool_decide_eq_false_2. }
    split; [done|]. split; [done|]. split; [exact Hkey|]. split.
    + intros i. unfold findClientById. cbn [js_find]. unfold has_clientId at 1.
      case_decide as Hi.
      * by rewrite bool_decide_eq_true_2.
      * by rewrite bool_decide_eq_false_2.
    + intros t h Hh Ht.
      apply requireClient_inr. split; [|split; [|split; [|split]]].
      * rewrite Hh. subst c. simpl. discriminate.
      * rewrite Hh, Hkey. by rewrite decide_True.
      * done.
      * subst c. simpl. lia.
      * by right.
  - intros Hk. unfold VariantClients.admin_add, Variant.adminOk.
    rewrite Hk. done.
Qed.

Lemma variant_add_in_front_witness :
  clients
    (VariantClients.admin_add (mkConfig "" "A" "") 0 (mkHeaders None (Some "A") None)
       "n" "g" "M1" "ab" "cd" init_state).2
  = [mkClient "C_ab" "n" "g" "K_cd" true 0 (0 + addDurationMs "M1") ""].
Proof.
  assert (Hf : trim "n" <> "") by (vm_compute; discriminate).
  assert (Hg : trim "g" <> "") by (vm_compute; discriminate).
  exact (proj1 (proj2 (proj1 (variant_add_in_front (mkConfig "" "A" "") 0
                                (mkHeaders None (Some "A") None)
                                "n" "g" "M1" "ab" "cd" init_state)
                         eq_refl Hf Hg))).
Defined.
